(** * LanguageBind video processor (merv): embedding and verification

    Source: [merv/models/backbones/video/languagebind/video/processing_video.py].

    The development has three parts.  Part I embeds the program: Python
    exceptions, IEEE-754 binary64 and binary32 arithmetic (through the
    executable specification [SpecFloat] of the standard library), NumPy's
    [linspace] with an integer dtype, the tensors and the five transforms
    of the pipeline, the frame sampler and the processor class.  Part II
    states and proves the properties of the specification.  Part III adds
    properties of the edge cases: exact sampling steps, invalid inputs of
    the transforms, failures and totality of the processor. *)

From Stdlib Require Import ZArith Lia Reals Lra List Bool String.
From Stdlib Require Import Sorted SpecFloat.
From stdpp Require Import gmap strings list fin_maps.
Import ListNotations.

Local Open Scope string_scope.
Local Open Scope list_scope.
Local Open Scope Z_scope.

(* ===================================================================== *)
(** * Part I: the program *)
(* ===================================================================== *)

(** ** Python exceptions and results *)

Inductive exn : Type :=
| ValueError (msg : string)
| NameError (msg : string)
| TypeError (msg : string)
| IndexError (msg : string)
| ZeroDivisionError (msg : string)
| OverflowError (msg : string)
| AssertionError
| RuntimeError (msg : string)
| AttributeError (msg : string)
| CollaboratorError (msg : string).

Inductive result (A : Type) : Type :=
| Ok (a : A)
| Raise (e : exn).
Arguments Ok {A} a.
Arguments Raise {A} e.

(** The exception a computation ended with, if any. *)
Definition raised {A : Type} (r : result A) : option exn :=
  match r with
  | Ok _ => None
  | Raise e => Some e
  end.

Definition rbind {A B : Type} (r : result A) (k : A -> result B) : result B :=
  match r with
  | Ok a => k a
  | Raise e => Raise e
  end.

(** ** IEEE-754 binary64: Python [float], NumPy [float64] *)

Module Float64.

Definition prec : Z := 53.
Definition emax : Z := 1024.

Definition zero : spec_float := S754_zero false.

(** Conversion of an integer, rounding to nearest even. *)
Definition of_int (z : Z) : spec_float := binary_normalize prec emax z 0 false.

Definition div : spec_float -> spec_float -> spec_float := SFdiv prec emax.
Definition mul : spec_float -> spec_float -> spec_float := SFmul prec emax.
Definition add : spec_float -> spec_float -> spec_float := SFadd prec emax.
Definition sub : spec_float -> spec_float -> spec_float := SFsub prec emax.
Definition eqb : spec_float -> spec_float -> bool := SFeqb.
Definition ltb : spec_float -> spec_float -> bool := SFltb.

(** The largest integer not above a finite number; [None] on infinities and
    NaN. *)
Definition floor (f : spec_float) : option Z :=
  match f with
  | S754_zero _ => Some 0
  | S754_finite s m e =>
      let v := if s then Zneg m else Zpos m in
      Some (match e with
            | Z0 => v
            | Zpos _ => v * 2 ^ e
            | Zneg p => v / 2 ^ Zpos p
            end)
  | _ => None
  end.

(** [0.5] *)
Definition half : spec_float := S754_finite false 4503599627370496 (-53).

End Float64.

(** ** IEEE-754 binary32: torch [float32] *)

Module Float32.

Definition prec : Z := 24.
Definition emax : Z := 128.

Definition zero : spec_float := S754_zero false.
Definition of_int (z : Z) : spec_float := binary_normalize prec emax z 0 false.
Definition div : spec_float -> spec_float -> spec_float := SFdiv prec emax.
Definition mul : spec_float -> spec_float -> spec_float := SFmul prec emax.
Definition add : spec_float -> spec_float -> spec_float := SFadd prec emax.
Definition sub : spec_float -> spec_float -> spec_float := SFsub prec emax.
Definition ltb : spec_float -> spec_float -> bool := SFltb.

Definition one : spec_float := S754_finite false 8388608 (-23).
Definition half : spec_float := S754_finite false 8388608 (-24).

(** Rounding of a binary64 number to binary32 ([torch.as_tensor] of a Python
    float with [dtype=float32]). *)
Definition of_float64 (f : spec_float) : spec_float :=
  match f with
  | S754_finite s m e => binary_round prec emax s m e
  | _ => f
  end.

End Float32.

(** A decimal literal [n / 10^k] of the source, as the Python float it
    denotes (the binary64 number nearest to it). *)
Definition decimal (n : Z) (k : Z) : spec_float :=
  Float64.div (Float64.of_int n) (Float64.of_int (10 ^ k)).

(** ** NumPy *)

Module Numpy.

(** [astype(int)] of a floored float64: the integer when it fits int64; the
    conversion of any other value yields the least int64 on x86-64. *)
Definition floor_to_int64 (f : spec_float) : Z :=
  match Float64.floor f with
  | Some k => if (- 2 ^ 63 <=? k) && (k <? 2 ^ 63) then k else - 2 ^ 63
  | None => - 2 ^ 63
  end.

(** [y[-1] = v] on a non-empty array. *)
Definition set_last {A : Type} (y : list A) (v : A) : list A :=
  removelast y ++ [v].

(** The float64 sample points of [np.linspace(start, stop, num)]
    ([endpoint=True]), before the conversion to the requested dtype. *)
Definition linspace_points (start stop num : Z) : list spec_float :=
  let div := num - 1 in
  let fstart := Float64.of_int start in
  let fstop := Float64.of_int stop in
  let delta := Float64.sub fstop fstart in
  let y := map (fun i => Float64.of_int (Z.of_nat i)) (seq 0 (Z.to_nat num)) in
  let y :=
    if 0 <? div then
      let step := Float64.div delta (Float64.of_int div) in
      if Float64.eqb step Float64.zero then
        map (fun v => Float64.mul (Float64.div v (Float64.of_int div)) delta) y
      else
        map (fun v => Float64.mul v step) y
    else
      map (fun v => Float64.mul v delta) y in
  let y := map (fun v => Float64.add v fstart) y in
  if 1 <? num then set_last y fstop else y.

(** [np.linspace(start, stop, num, dtype=int)]: the points are floored, then
    converted. *)
Definition linspace_int (start stop num : Z) : result (list Z) :=
  if num <? 0 then
    Raise (ValueError "Number of samples must be non-negative.")
  else
    Ok (map floor_to_int64 (linspace_points start stop num)).

End Numpy.

(** ** Frame index selection (line 94 of the source) *)

Module Sampler.

Definition frame_id_list (duration num_frames : Z) : result (list Z) :=
  Numpy.linspace_int 0 (duration - 1) num_frames.

(** The specification's reading of the selection: point [i] of the exact
    linear spacing, rounded to the nearest integer (halves upwards). *)
Definition nearest_index (duration num_frames : Z) (i : Z) : Z :=
  if num_frames <=? 1 then 0
  else (2 * i * (duration - 1) + (num_frames - 1)) / (2 * (num_frames - 1)).

Definition nearest_indices (duration num_frames : Z) : list Z :=
  map (fun i => nearest_index duration num_frames (Z.of_nat i))
      (seq 0 (Z.to_nat num_frames)).

(** [k] is the truncation of point [i] of the exact spacing [a / b]: the
    floor of [i * a / b], or one below it when that point is an integer. *)
Definition truncated (a b i k : Z) : Prop :=
  0 <= k /\ b * k <= i * a <= b * k + b.

End Sampler.

(** ** Python values and calls *)

Local Unset Elimination Schemes.
Inductive pyval : Type :=
| PNone
| PBool (b : bool)
| PInt (z : Z)
| PFloat (f : spec_float)
| PStr (s : string)
| PList (l : list pyval).
Local Set Elimination Schemes.

(** The arguments of a call: positional ones, then keyword ones in the
    order they were written. *)
Record pycall : Type := {
  call_args : list pyval;
  call_kwargs : list (string * pyval)
}.

Fixpoint kw_lookup (k : string) (kw : list (string * pyval)) : option pyval :=
  match kw with
  | [] => None
  | (k', v) :: rest => if String.eqb k k' then Some v else kw_lookup k rest
  end.

Fixpoint kw_remove (k : string) (kw : list (string * pyval))
  : list (string * pyval) :=
  match kw with
  | [] => []
  | (k', v) :: rest =>
      if String.eqb k k' then kw_remove k rest else (k', v) :: kw_remove k rest
  end.

(** [f(k1=v1, ..., **kwargs)]: a keyword given twice is a [TypeError]. *)
Fixpoint kw_extend (named : list (string * pyval)) (kwargs : list (string * pyval))
  : result (list (string * pyval)) :=
  match named with
  | [] => Ok kwargs
  | (k, v) :: rest =>
      match kw_lookup k kwargs with
      | Some _ =>
          Raise (TypeError ("got multiple values for keyword argument '" ++ k ++ "'"))
      | None => rbind (kw_extend rest kwargs) (fun kw => Ok ((k, v) :: kw))
      end
  end.

(** ** Tensors

    A rank-4 array is its four dimensions and its elements by index; a
    tensor is an array tagged with its dtype. *)

Module Tensor.

Record array (A : Type) : Type := {
  dim0 : nat; dim1 : nat; dim2 : nat; dim3 : nat;
  elem : nat -> nat -> nat -> nat -> A
}.
Arguments dim0 {A} _.
Arguments dim1 {A} _.
Arguments dim2 {A} _.
Arguments dim3 {A} _.
Arguments elem {A} _ _ _ _ _.
Arguments Build_array {A} _ _ _ _ _.

Definition dims {A : Type} (x : array A) : nat * nat * nat * nat :=
  (dim0 x, dim1 x, dim2 x, dim3 x).

Definition amap {A B : Type} (f : A -> B) (x : array A) : array B :=
  Build_array (dim0 x) (dim1 x) (dim2 x) (dim3 x)
    (fun i j k l => f (elem x i j k l)).

(** Element-wise map that also sees the index on the first axis. *)
Definition amap0 {A B : Type} (f : nat -> A -> B) (x : array A) : array B :=
  Build_array (dim0 x) (dim1 x) (dim2 x) (dim3 x)
    (fun i j k l => f i (elem x i j k l)).

(** [x.permute(3, 0, 1, 2)] *)
Definition permute_3012 {A : Type} (x : array A) : array A :=
  Build_array (dim3 x) (dim0 x) (dim1 x) (dim2 x)
    (fun i j k l => elem x j k l i).

(** [x.flip(-1)] *)
Definition flip_last {A : Type} (x : array A) : array A :=
  Build_array (dim0 x) (dim1 x) (dim2 x) (dim3 x)
    (fun i j k l => elem x i j k (dim3 x - 1 - l)%nat).

(** [x[..., i : i + h, j : j + w]]; a slice is clamped to the axis. *)
Definition slice_last2 {A : Type} (i h j w : nat) (x : array A) : array A :=
  Build_array (dim0 x) (dim1 x)
    (Nat.min h (dim2 x - i)) (Nat.min w (dim3 x - j))
    (fun a b k l => elem x a b (i + k)%nat (j + l)%nat).

Inductive dtype : Type := UInt8 | Float32 | Float64.

Inductive tensor : Type :=
| ByteTensor (x : array Z)
| FloatTensor (x : array spec_float)
| DoubleTensor (x : array spec_float).

Definition dtype_of (x : tensor) : dtype :=
  match x with
  | ByteTensor _ => UInt8
  | FloatTensor _ => Float32
  | DoubleTensor _ => Float64
  end.

Definition shape (x : tensor) : nat * nat * nat * nat :=
  match x with
  | ByteTensor a => dims a
  | FloatTensor a => dims a
  | DoubleTensor a => dims a
  end.

(** An operation that moves elements without looking at them. *)
Definition rearrange (f : forall A : Type, array A -> array A) (x : tensor)
  : tensor :=
  match x with
  | ByteTensor a => ByteTensor (f Z a)
  | FloatTensor a => FloatTensor (f spec_float a)
  | DoubleTensor a => DoubleTensor (f spec_float a)
  end.

Definition shape_eqb (s1 s2 : nat * nat * nat * nat) : bool :=
  let '(a1, b1, c1, d1) := s1 in
  let '(a2, b2, c2, d2) := s2 in
  Nat.eqb a1 a2 && Nat.eqb b1 b2 && Nat.eqb c1 c2 && Nat.eqb d1 d2.

(** [torch.stack(tensors)]: a new leading axis over tensors of one shape. *)
Definition stack (ts : list tensor) : result (list tensor) :=
  match ts with
  | [] => Raise (RuntimeError "stack expects a non-empty TensorList")
  | t0 :: rest =>
      if forallb (fun t => shape_eqb (shape t) (shape t0)) rest then Ok ts
      else Raise (RuntimeError "stack expects each tensor to be equal size")
  end.

End Tensor.

(** ** The collaborators and the state of a run

    The tensor runtime's interpolation kernel, Python's global random
    generator and the video decoder are outside the repository: a run is
    parameterised by them.  The state records how many random numbers have
    been drawn and which collaborators have been called. *)

(** An opened video: the decoded frames, [(frame, row, column, channel)]. *)
Record reader : Type := {
  reader_len : nat;
  reader_height : nat;
  reader_width : nat;
  reader_channels : nat;
  reader_pixel : nat -> nat -> nat -> nat -> Z
}.

Record runtime : Type := {
  (** [torch.nn.functional.interpolate(x, size, mode, align_corners)] *)
  interpolate : Tensor.array spec_float -> Z * Z -> string -> bool ->
                result (Tensor.array spec_float);
  (** the successive results of [random.random()] *)
  random_random : nat -> spec_float;
  (** [decord.VideoReader(path, ctx=cpu(0))] *)
  VideoReader : pyval -> result reader
}.

Inductive event : Type :=
| CalledTokenizer (c : pycall)
| CalledImageProcessor (video_path : pyval)
| OpenedVideo (video_path : pyval)
| DecodedFrames (video_path : pyval) (frame_id_list : list Z).

Record world : Type := {
  drawn : nat;
  trace : list event
}.

Definition M (A : Type) : Type := world -> result A * world.

Definition ret {A : Type} (a : A) : M A := fun w => (Ok a, w).

Definition raise {A : Type} (e : exn) : M A := fun w => (Raise e, w).

Definition lift {A : Type} (r : result A) : M A := fun w => (r, w).

Definition bind {A B : Type} (m : M A) (k : A -> M B) : M B :=
  fun w =>
    match m w with
    | (Ok a, w') => k a w'
    | (Raise e, w') => (Raise e, w')
    end.

Notation "x <- m ;; k" := (bind m (fun x => k))
  (at level 100, m at level 90, right associativity).

Definition log (e : event) : M unit :=
  fun w => (Ok tt, {| drawn := drawn w; trace := trace w ++ [e] |}).

(** [random.random()] *)
Definition random (rt : runtime) : M spec_float :=
  fun w => (Ok (random_random rt (drawn w)),
            {| drawn := S (drawn w); trace := trace w |}).

(** [for x in xs: f(x)], collecting the results. *)
Fixpoint for_each {A B : Type} (f : A -> M B) (xs : list A) : M (list B) :=
  match xs with
  | [] => ret []
  | x :: rest => y <- f x ;; ys <- for_each f rest ;; ret (y :: ys)
  end.

(** ** The transforms of the pipeline *)

Module Transforms.
Import Tensor.

Definition OPENAI_DATASET_MEAN : spec_float * spec_float * spec_float :=
  (decimal 48145466 8, decimal 4578275 7, decimal 40821073 8).
Definition OPENAI_DATASET_STD : spec_float * spec_float * spec_float :=
  (decimal 26862954 8, decimal 26130258 8, decimal 27577711 8).

Definition channel (c : nat) (v : spec_float * spec_float * spec_float)
  : spec_float :=
  let '(v0, v1, v2) := v in
  match c with
  | O => v0
  | S O => v1
  | _ => v2
  end.

(** [lambda x: x / 255.0]: true division by a Python float; an integer
    tensor is promoted to float32. *)
Definition div_255 (x : tensor) : result tensor :=
  match x with
  | ByteTensor a =>
      Ok (FloatTensor
            (amap (fun n => Float32.div (Float32.of_int n) (Float32.of_int 255)) a))
  | FloatTensor a =>
      Ok (FloatTensor (amap (fun v => Float32.div v (Float32.of_int 255)) a))
  | DoubleTensor a =>
      Ok (DoubleTensor (amap (fun v => Float64.div v (Float64.of_int 255)) a))
  end.

(** [NormalizeVideo(mean, std)]: on a clone,
    [clip.sub_(mean[:, None, None, None]).div_(std[:, None, None, None])]
    with [mean] and [std] converted to the clip's dtype. *)
Definition normalize (mean std : spec_float * spec_float * spec_float)
    (x : tensor) : result tensor :=
  if negb (Nat.eqb (fst (fst (fst (shape x)))) 3) then
    Raise (RuntimeError "output shape doesn't match the broadcast shape")
  else
    match x with
    | ByteTensor _ =>
        Raise (RuntimeError
                 "result type Float can't be cast to the desired output type Byte")
    | FloatTensor a =>
        Ok (FloatTensor
              (amap0 (fun c v =>
                        Float32.div
                          (Float32.sub v (Float32.of_float64 (channel c mean)))
                          (Float32.of_float64 (channel c std))) a))
    | DoubleTensor a =>
        Ok (DoubleTensor
              (amap0 (fun c v =>
                        Float64.div (Float64.sub v (channel c mean))
                                    (channel c std)) a))
    end.

(** [float(a) / b] *)
Definition float_div (a b : Z) : result spec_float :=
  if b =? 0 then Raise (ZeroDivisionError "float division by zero")
  else Ok (Float64.div (Float64.of_int a) (Float64.of_int b)).

(** [int(math.floor(f))] *)
Definition int_floor (f : spec_float) : result Z :=
  match Float64.floor f with
  | Some k => Ok k
  | None =>
      match f with
      | S754_nan => Raise (ValueError "cannot convert float NaN to integer")
      | _ => Raise (OverflowError "cannot convert float infinity to integer")
      end
  end.

(** Lines 54 to 59: the size [(new_h, new_w)] asked of the interpolation. *)
Definition short_side_size (size h w : Z) : result (Z * Z) :=
  if w <? h then
    rbind (float_div h w) (fun q =>
    rbind (int_floor (Float64.mul q (Float64.of_int size))) (fun new_h =>
    Ok (new_h, size)))
  else
    rbind (float_div w h) (fun q =>
    rbind (int_floor (Float64.mul q (Float64.of_int size))) (fun new_w =>
    Ok (size, new_w))).

(** [ShortSideScale.forward].  The first assertion, on the rank, holds for
    every [tensor]. *)
Definition ShortSideScale_forward (rt : runtime) (size : Z)
    (interpolation : string) (x : tensor) : result tensor :=
  match x with
  | FloatTensor a =>
      rbind (short_side_size size (Z.of_nat (dim2 a)) (Z.of_nat (dim3 a)))
        (fun new_size =>
      rbind (interpolate rt a new_size interpolation false) (fun y =>
      Ok (FloatTensor y)))
  | _ => Raise AssertionError
  end.

(** [int(round(k / 2.0))] for an integer [k]: halves go to the even
    neighbour. *)
Definition round_half (k : Z) : Z :=
  let q := k / 2 in
  if Z.even k then q else if Z.even q then q else q + 1.

(** [CenterCropVideo(crop_size)], through [center_crop] and [crop] of
    torchvision. *)
Definition center_crop (th tw : Z) (x : tensor) : result tensor :=
  let '(_, _, h, w) := shape x in
  if (Z.of_nat h <? th) || (Z.of_nat w <? tw) then
    Raise (ValueError "height and width must be no smaller than crop_size")
  else
    let i := round_half (Z.of_nat h - th) in
    let j := round_half (Z.of_nat w - tw) in
    Ok (rearrange
          (fun A => slice_last2 (Z.to_nat i) (Z.to_nat th)
                                (Z.to_nat j) (Z.to_nat tw))
          x).

(** [clip.flip(-1)] *)
Definition hflip (x : tensor) : tensor := rearrange (@flip_last) x.

(** [RandomHorizontalFlipVideo(p)] *)
Definition random_hflip (rt : runtime) (p : spec_float) (x : tensor) : M tensor :=
  r <- random rt ;;
  if Float64.ltb r p then ret (hflip x) else ret x.

Inductive transform : Type :=
| Lambda (f : tensor -> result tensor)
| NormalizeVideo (mean std : spec_float * spec_float * spec_float)
| ShortSideScale (size : Z) (interpolation : string)
| CenterCropVideo (crop_size : Z)
| RandomHorizontalFlipVideo (p : spec_float).

Definition apply (rt : runtime) (t : transform) (x : tensor) : M tensor :=
  match t with
  | Lambda f => lift (f x)
  | NormalizeVideo mean std => lift (normalize mean std x)
  | ShortSideScale size interpolation =>
      lift (ShortSideScale_forward rt size interpolation x)
  | CenterCropVideo crop_size => lift (center_crop crop_size crop_size x)
  | RandomHorizontalFlipVideo p => random_hflip rt p x
  end.

(** [Compose(transforms)(x)] *)
Fixpoint Compose (rt : runtime) (ts : list transform) (x : tensor) : M tensor :=
  match ts with
  | [] => ret x
  | t :: rest => y <- apply rt t x ;; Compose rt rest y
  end.

Definition pipeline : list transform :=
  [ Lambda div_255;
    NormalizeVideo OPENAI_DATASET_MEAN OPENAI_DATASET_STD;
    ShortSideScale 224 "bilinear";
    CenterCropVideo 224;
    RandomHorizontalFlipVideo Float64.half ].

(** The four steps of [pipeline] that draw no random number, in order. *)
Definition before_flip (rt : runtime) (x : tensor) : result tensor :=
  rbind (div_255 x) (fun x1 =>
  rbind (normalize OPENAI_DATASET_MEAN OPENAI_DATASET_STD x1) (fun x2 =>
  rbind (ShortSideScale_forward rt 224 "bilinear" x2) (fun x3 =>
  center_crop 224 224 x3))).

Definition get_video_transform (video_decode_backend : string)
  : result (list transform) :=
  if String.eqb video_decode_backend "decord" then Ok pipeline
  else
    Raise (NameError
      ("video_decode_backend should specify in (pytorchvideo, decord, opencv) but got "
       ++ video_decode_backend)).

End Transforms.

(** What the interpolation of the runtime is relied on for: in bilinear
    mode without corner alignment, a result has the requested size and the
    leading dimensions of the input, and there is a result whenever the
    input and the requested size are not empty. *)
Definition interpolate_contract (rt : runtime) : Prop :=
  forall (x : Tensor.array spec_float) (nh nw : Z),
    (forall y, interpolate rt x (nh, nw) "bilinear" false = Ok y ->
       Tensor.dims y
       = (Tensor.dim0 x, Tensor.dim1 x, Z.to_nat nh, Z.to_nat nw)) /\
    ((0 < Tensor.dim1 x)%nat -> (0 < Tensor.dim2 x)%nat ->
     (0 < Tensor.dim3 x)%nat -> 0 < nh -> 0 < nw ->
     exists y, interpolate rt x (nh, nw) "bilinear" false = Ok y).

(** ** A reference interpolation kernel

    Bilinear interpolation over the last two axes in binary32, with the
    source index and the weights of ATen's CPU kernel.  It instantiates the
    runtime where a run has to be computed. *)

Module Reference.
Import Tensor.

(** Source indices and weights of output position [dst] on an axis. *)
Definition source (in_size out_size dst : nat)
  : nat * nat * spec_float * spec_float :=
  if Nat.eqb in_size out_size then (dst, dst, Float32.one, Float32.zero)
  else
    let scale := Float32.div (Float32.of_int (Z.of_nat in_size))
                             (Float32.of_int (Z.of_nat out_size)) in
    let src := Float32.sub
                 (Float32.mul scale
                    (Float32.add (Float32.of_int (Z.of_nat dst)) Float32.half))
                 Float32.half in
    let src := if Float32.ltb src Float32.zero then Float32.zero else src in
    let i0 := Nat.min (Z.to_nat (default 0 (Float64.floor src)))
                      (in_size - 1) in
    let i1 := if (i0 <? in_size - 1)%nat then S i0 else i0 in
    let l1 := Float32.sub src (Float32.of_int (Z.of_nat i0)) in
    let l1 := if Float32.ltb l1 Float32.zero then Float32.zero
              else if Float32.ltb Float32.one l1 then Float32.one else l1 in
    (i0, i1, Float32.sub Float32.one l1, l1).

Definition bilinear (x : array spec_float) (size : Z * Z) (mode : string)
    (align_corners : bool) : result (array spec_float) :=
  let '(nh, nw) := size in
  if negb (String.eqb mode "bilinear") || align_corners then
    Raise (CollaboratorError "reference kernel: bilinear, align_corners=False")
  else if (nh <=? 0) || (nw <=? 0) then
    Raise (RuntimeError "Input and output sizes should be greater than 0")
  else if Nat.eqb (dim1 x) 0 || Nat.eqb (dim2 x) 0 || Nat.eqb (dim3 x) 0 then
    Raise (RuntimeError "Non-empty 4D data tensor expected")
  else
    Ok (Build_array (dim0 x) (dim1 x) (Z.to_nat nh) (Z.to_nat nw)
          (fun n c oh ow =>
             let '(h0, h1, lh0, lh1) := source (dim2 x) (Z.to_nat nh) oh in
             let '(w0, w1, lw0, lw1) := source (dim3 x) (Z.to_nat nw) ow in
             Float32.add
               (Float32.mul lh0
                  (Float32.add (Float32.mul lw0 (elem x n c h0 w0))
                               (Float32.mul lw1 (elem x n c h0 w1))))
               (Float32.mul lh1
                  (Float32.add (Float32.mul lw0 (elem x n c h1 w0))
                               (Float32.mul lw1 (elem x n c h1 w1)))))).

End Reference.

(** ** The frame sampler: [load_and_transform_video] *)

Module Loader.
Import Tensor.

(** [decord_vr.get_batch(indices)]: a negative index counts from the end;
    the result has layout [(T, H, W, C)]. *)
Definition get_batch (r : reader) (indices : list Z) : result (array Z) :=
  let n := Z.of_nat (reader_len r) in
  let indices := map (fun i => if i <? 0 then i + n else i) indices in
  if existsb (fun i => i <? 0) indices then
    Raise (IndexError "Invalid negative indices")
  else if existsb (fun i => n <=? i) indices then
    Raise (IndexError "Out of bound indices")
  else
    Ok (Build_array (length indices) (reader_height r) (reader_width r)
          (reader_channels r)
          (fun t h w c => reader_pixel r (Z.to_nat (nth t indices 0)) h w c)).

(** [clip_start_sec] and [clip_end_sec] are accepted and not used. *)
Definition load_and_transform_video (rt : runtime) (video_path : pyval)
    (transform : list Transforms.transform) (video_decode_backend : string)
    (clip_start_sec clip_end_sec : pyval) (num_frames : Z) : M tensor :=
  if String.eqb video_decode_backend "decord" then
    _ <- log (OpenedVideo video_path) ;;
    decord_vr <- lift (VideoReader rt video_path) ;;
    let duration := Z.of_nat (reader_len decord_vr) in
    frame_id_list <- lift (Sampler.frame_id_list duration num_frames) ;;
    _ <- log (DecodedFrames video_path frame_id_list) ;;
    video_data <- lift (get_batch decord_vr frame_id_list) ;;
    let video_data := permute_3012 video_data in
    Transforms.Compose rt transform (ByteTensor video_data)
  else
    raise (NameError
      "video_decode_backend should specify in (pytorchvideo, decord, opencv)").

End Loader.

(** ** The processor class *)

Module Processor.
Import Tensor.

Record vision_config : Type := {
  video_decode_backend : string;
  num_frames : Z
}.

Record config : Type := { the_vision_config : vision_config }.

(** The values of a result mapping: what the tokenizer put there, or the
    stacked pixel batch. *)
Inductive value : Type :=
| Encoded (v : pyval)
| PixelBatch (batch : list tensor).

Record tokenizer : Type := {
  tokenize : pycall -> result (gmap string value);
  tokenizer_batch_decode : pycall -> result pyval;
  tokenizer_decode : pycall -> result pyval
}.

Record processor : Type := {
  self_config : config;
  self_transform : list Transforms.transform;
  self_tokenizer : option tokenizer
}.

(** [LanguageBindVideoProcessor.__init__]; [self.image_processor] is
    always [load_and_transform_video]. *)
Definition init (cfg : config) (tok : option tokenizer) : result processor :=
  rbind (Transforms.get_video_transform
           (video_decode_backend (the_vision_config cfg)))
    (fun t => Ok {| self_config := cfg; self_transform := t;
                    self_tokenizer := tok |}).

Definition make_list_of_images (x : pyval) : list pyval :=
  match x with
  | PList l => l
  | _ => [x]
  end.

Definition is_None (v : pyval) : bool :=
  match v with
  | PNone => true
  | _ => false
  end.

Definition neither_message : string :=
  "You have to specify either text or images. Both cannot be none.".

Definition call_tokenizer (self : processor) (c : pycall)
  : M (gmap string value) :=
  match self_tokenizer self with
  | None => raise (TypeError "'NoneType' object is not callable")
  | Some t => _ <- log (CalledTokenizer c) ;; lift (tokenize t c)
  end.

Definition call_image_processor (rt : runtime) (self : processor)
    (image : pyval) : M tensor :=
  _ <- log (CalledImageProcessor image) ;;
  Loader.load_and_transform_video rt image (self_transform self)
    (video_decode_backend (the_vision_config (self_config self)))
    (PFloat Float64.zero) PNone
    (num_frames (the_vision_config (self_config self))).

(** The keyword arguments of the tokenizer call of line 119. *)
Definition tokenizer_kwargs (context_length return_tensors : pyval)
    (kwargs : list (string * pyval)) : result (list (string * pyval)) :=
  kw_extend [("max_length", context_length);
             ("padding", PStr "max_length");
             ("truncation", PBool true);
             ("return_tensors", return_tensors)] kwargs.

(** [LanguageBindVideoProcessor.__call__] *)
Definition call (rt : runtime) (self : processor)
    (images text context_length return_tensors : pyval)
    (kwargs : list (string * pyval)) : M (gmap string value) :=
  if is_None text && is_None images then raise (ValueError neither_message)
  else
    encoding <-
      (if negb (is_None text) then
         kw <- lift (tokenizer_kwargs context_length return_tensors kwargs) ;;
         e <- call_tokenizer self {| call_args := [text]; call_kwargs := kw |} ;;
         ret (Some e)
       else ret None) ;;
    image_features <-
      (if negb (is_None images) then
         fs <- for_each (call_image_processor rt self)
                        (make_list_of_images images) ;;
         b <- lift (stack fs) ;;
         ret (Some b)
       else ret None) ;;
    match encoding, image_features with
    | Some e, Some b => ret (<["pixel_values" := PixelBatch b]> e)
    | Some e, None => ret e
    | None, Some b => ret {["pixel_values" := PixelBatch b]}
    | None, None => raise (NameError "name 'image_features' is not defined")
    end.

(** [preprocess] *)
Definition preprocess (rt : runtime) (self : processor)
    (images return_tensors : pyval) : M (gmap string value) :=
  call rt self images PNone (PInt 77) return_tensors [].

(** Binding of a call to the parameters of both decoding methods:
    [self], then [skip_special_tokens=True], then the variadic positional
    and keyword parameters. *)
Definition bind_decode_parameters (c : pycall)
  : result (pyval * list pyval * list (string * pyval)) :=
  match call_args c with
  | v :: rest =>
      match kw_lookup "skip_special_tokens" (call_kwargs c) with
      | Some _ =>
          Raise (TypeError "got multiple values for argument 'skip_special_tokens'")
      | None => Ok (v, rest, call_kwargs c)
      end
  | [] =>
      match kw_lookup "skip_special_tokens" (call_kwargs c) with
      | Some v => Ok (v, [], kw_remove "skip_special_tokens" (call_kwargs c))
      | None => Ok (PBool true, [], call_kwargs c)
      end
  end.

(** The call made by both decoding methods: the remaining positional
    arguments unpacked, then [skip_special_tokens=skip_special_tokens], then
    the remaining keyword arguments unpacked. *)
Definition forward_decode (f : option (pycall -> result pyval)) (c : pycall)
  : result pyval :=
  rbind (bind_decode_parameters c) (fun '(skip_special_tokens, args, kwargs) =>
    match f with
    | None => Raise (AttributeError "'NoneType' object has no attribute")
    | Some f =>
        f {| call_args := args;
             call_kwargs := ("skip_special_tokens", skip_special_tokens) :: kwargs |}
    end).

Definition batch_decode (self : processor) (c : pycall) : result pyval :=
  forward_decode (option_map tokenizer_batch_decode (self_tokenizer self)) c.

Definition decode (self : processor) (c : pycall) : result pyval :=
  forward_decode (option_map tokenizer_decode (self_tokenizer self)) c.

(** The documented forwarding: the arguments as they were given, with
    [skip_special_tokens=True] added when the caller did not give it. *)
Definition forwarded (c : pycall) : pycall :=
  match kw_lookup "skip_special_tokens" (call_kwargs c) with
  | Some _ => c
  | None =>
      {| call_args := call_args c;
         call_kwargs := ("skip_special_tokens", PBool true) :: call_kwargs c |}
  end.

(** What the collaborators are assumed not to do: raise the processor's
    own value error. *)
Definition quiet (rt : runtime) (tok : option tokenizer) : Prop :=
  (forall t c, tok = Some t ->
     raised (tokenize t c) <> Some (ValueError neither_message)) /\
  (forall path,
     raised (VideoReader rt path) <> Some (ValueError neither_message)) /\
  (forall x size mode align,
     raised (interpolate rt x size mode align)
     <> Some (ValueError neither_message)).

End Processor.

(** ** The real numbers behind binary64

    The value of a float, and what it means for a float to be a rounding of
    a real: the notions the properties of Part II are stated with. *)

Module Float64Spec.
Import Float64.
Local Open Scope R_scope.

Definition bpow (e : Z) : R := powerRZ 2 e.

Definition F2R (m e : Z) : R := IZR m * bpow e.

Definition SF2R (f : spec_float) : R :=
  match f with
  | S754_finite s m e => F2R (if s then Zneg m else Zpos m) e
  | _ => 0
  end.

(** Bracketing of a real by a shift record. *)
Definition inbetween (e : Z) (mrs : shr_record) (x : R) : Prop :=
  (0 <= shr_m mrs)%Z /\
  F2R (shr_m mrs) e <= x < F2R (shr_m mrs + 1) e /\
  (x = F2R (shr_m mrs) e -> shr_r mrs = false /\ shr_s mrs = false).

(** [rounded E x v]: [v] is one of the two neighbours of [x] on the grid of
    step [2^E], on which [x] has a 53-bit integer part; it is the lower one
    when [x] is on the grid. *)
Definition rounded (E : Z) (x v : R) : Prop :=
  exists m : Z, (2 ^ 52 <= m < 2 ^ 53)%Z /\
    F2R m E <= x < F2R (m + 1) E /\
    (v = F2R m E \/ (v = F2R (m + 1) E /\ F2R m E < x)).

(** Second half of [binary_round_aux]: renormalisation of the rounded
    mantissa, which has 53 bits or is exactly [2^53]. *)
Definition renorm (m E : Z) : spec_float :=
  let '(mrs, e) := shr_fexp prec emax m E loc_Exact in
  match shr_m mrs with
  | Z0 => S754_zero false
  | Zpos q => if Z.leb e (emax - prec) then S754_finite false q e
              else S754_infinity false
  | Zneg _ => S754_nan
  end.

(** Positive normal numbers with a canonical 53-bit mantissa and an
    exponent between [elo] and [ehi]. *)
Definition normal_pos (elo ehi : Z) (f : spec_float) : Prop :=
  exists m e, f = S754_finite false m e /\
    Zpos (digits2_pos m) = 53%Z /\ (elo <= e <= ehi)%Z.

Definition u52 : R := / IZR (2 ^ 52).

End Float64Spec.

(** ** A concrete run

    A ten-frame clip of two rows and three columns, a runtime built on the
    reference kernel whose random numbers alternate between 0.25 and 0.75,
    and a tokenizer that returns a fixed encoding. *)

Module Example.
Import Tensor.

Definition clip : reader := {|
  reader_len := 10;
  reader_height := 2;
  reader_width := 3;
  reader_channels := 3;
  reader_pixel := fun t h w c => Z.of_nat (t + 10 * h + 50 * w + c)
|}.

Definition rt : runtime := {|
  interpolate := Reference.bilinear;
  random_random := fun n => if Nat.even n then decimal 25 2 else decimal 75 2;
  VideoReader := fun path =>
    match path with
    | PStr s =>
        if String.eqb s "clip.mp4" then Ok clip
        else Raise (CollaboratorError "cannot open the video")
    | _ => Raise (CollaboratorError "cannot open the video")
    end
|}.

Definition start : world := {| drawn := 0; trace := [] |}.

(** One frame of the clip, channels first. *)
Definition video : tensor :=
  ByteTensor (Build_array 3 1 2 3 (fun c t h w => reader_pixel clip t h w c)).

Definition encoding : gmap string Processor.value :=
  {[ "input_ids" := Processor.Encoded (PList [PInt 49406; PInt 320; PInt 49407]);
     "attention_mask" := Processor.Encoded (PList [PInt 1; PInt 1; PInt 1]) ]}.

Definition tok : Processor.tokenizer := {|
  Processor.tokenize := fun _ => Ok encoding;
  Processor.tokenizer_batch_decode := fun c => Ok (PList (call_args c));
  Processor.tokenizer_decode := fun c => Ok (PList (call_args c))
|}.

Definition cfg : Processor.config :=
  {| Processor.the_vision_config :=
       {| Processor.video_decode_backend := "decord";
          Processor.num_frames := 8 |} |}.

Definition self : Processor.processor := {|
  Processor.self_config := cfg;
  Processor.self_transform := Transforms.pipeline;
  Processor.self_tokenizer := Some tok
|}.

(** The first element of a run's result, if it is a float tensor. *)
Definition corner (r : result tensor) : option spec_float :=
  match r with
  | Ok (FloatTensor y) => Some (elem y 0 0 0 0)%nat
  | _ => None
  end.

End Example.

(* ===================================================================== *)
(** * Part II: properties *)
(* ===================================================================== *)

(** ** Binary64 arithmetic on positive normal numbers

    The operations of [SpecFloat] are related to the real numbers they
    compute: a rounded result is one of the two neighbours of the exact
    value on the grid of 53-bit mantissas, and it is the exact value when
    that value lies on the grid. *)

Module Float64Facts.
Import Float64 Float64Spec.

Local Open Scope R_scope.

Lemma bpow_gt_0 e : 0 < bpow e.
Proof. apply powerRZ_lt; lra. Qed.

Lemma bpow_plus a b : bpow (a + b) = bpow a * bpow b.
Proof. apply powerRZ_add; lra. Qed.

Lemma bpow_succ e : bpow (e + 1) = 2 * bpow e.
Proof. rewrite bpow_plus. unfold bpow at 2. simpl. lra. Qed.

Lemma bpow_nonneg_IZR e : (0 <= e)%Z -> bpow e = IZR (2 ^ e).
Proof.
  intros He. unfold bpow.
  rewrite <- (Z2Nat.id e) by exact He.
  rewrite <- pow_powerRZ, <- pow_IZR. reflexivity.
Qed.


Lemma F2R_xO p e : F2R (Zpos p~0) e = F2R (Zpos p) (e + 1).
Proof.
  unfold F2R. rewrite bpow_succ, Pos2Z.inj_xO, mult_IZR. lra.
Qed.

Lemma F2R_xI p e : F2R (Zpos p~1) e = F2R (Zpos p) (e + 1) + bpow e.
Proof.
  unfold F2R. rewrite bpow_succ, Pos2Z.inj_xI, plus_IZR, mult_IZR. lra.
Qed.

Lemma F2R_succ m e : F2R (m + 1) e = F2R m e + bpow e.
Proof. unfold F2R. rewrite plus_IZR. lra. Qed.

Lemma F2R_0 e : F2R 0 e = 0.
Proof. unfold F2R. lra. Qed.

Lemma inbetween_shr_1 e mrs x :
  inbetween e mrs x -> inbetween (e + 1) (shr_1 mrs) x.
Proof.
  destruct mrs as [m r s]. unfold inbetween. cbn [shr_m shr_r shr_s].
  intros (Hm & [Hlo Hhi] & Hex).
  pose proof (bpow_gt_0 e) as Hb.
  rewrite F2R_succ in Hhi.
  destruct m as [|p|p]; [| destruct p as [p|p|] | exfalso; lia];
    cbn [shr_1 shr_m shr_r shr_s];
    rewrite ?F2R_succ, ?F2R_0, ?F2R_xO, ?F2R_xI, ?bpow_succ in *;
    try change (F2R 1 e) with (1 * bpow e) in *;
    (split; [lia | split; [lra | intros Hx]]).
  - destruct (Hex Hx) as [-> ->]. split; reflexivity.
  - lra.
  - destruct (Hex Hx) as [-> ->]. split; reflexivity.
  - lra.
Qed.

Lemma inbetween_iter_pos p : forall e mrs x,
  inbetween e mrs x -> inbetween (e + Zpos p) (SpecFloat.iter_pos shr_1 p mrs) x.
Proof.
  induction p as [p IH|p IH|]; intros e mrs x H; cbn [SpecFloat.iter_pos].
  - replace (e + Zpos p~1)%Z with (e + 1 + Zpos p + Zpos p)%Z by lia.
    apply IH, IH, inbetween_shr_1, H.
  - replace (e + Zpos p~0)%Z with (e + Zpos p + Zpos p)%Z by lia.
    apply IH, IH, H.
  - apply inbetween_shr_1, H.
Qed.


Lemma digits2_pos_spec p :
  (2 ^ (Zpos (digits2_pos p) - 1) <= Zpos p < 2 ^ Zpos (digits2_pos p))%Z.
Proof.
  induction p as [p IH|p IH|]; cbn [digits2_pos].
  - rewrite Pos2Z.inj_succ, (Pos2Z.inj_xI p).
    replace (Z.succ (Zpos (digits2_pos p)) - 1)%Z
      with (Z.succ (Zpos (digits2_pos p) - 1)) by lia.
    assert (0 <= Z.pos (digits2_pos p) - 1)%Z as H0 by lia.
    rewrite (Z.pow_succ_r 2 (Zpos (digits2_pos p) - 1)) by exact H0.
    rewrite (Z.pow_succ_r 2 (Zpos (digits2_pos p))) by lia. lia.
  - rewrite Pos2Z.inj_succ, (Pos2Z.inj_xO p).
    replace (Z.succ (Zpos (digits2_pos p)) - 1)%Z
      with (Z.succ (Zpos (digits2_pos p) - 1)) by lia.
    assert (0 <= Z.pos (digits2_pos p) - 1)%Z as H0 by lia.
    rewrite (Z.pow_succ_r 2 (Zpos (digits2_pos p) - 1)) by exact H0.
    rewrite (Z.pow_succ_r 2 (Zpos (digits2_pos p))) by lia. lia.
  - cbn. lia.
Qed.

Lemma Zdigits2_unique m d :
  (0 < m)%Z -> (2 ^ (d - 1) <= m < 2 ^ d)%Z -> Zdigits2 m = d.
Proof.
  intros Hm [Hlo Hhi]. destruct m as [|p|p]; try lia. cbn [Zdigits2].
  pose proof (digits2_pos_spec p) as [Hlo' Hhi'].
  set (d' := Zpos (digits2_pos p)) in *.
  assert (0 < d)%Z as Hd.
  { destruct (Z_lt_le_dec 0 d) as [H|H]; [exact H|].
    destruct (Z.eq_dec d 0%Z) as [->|Hne]; [cbn in Hhi; lia|].
    rewrite (Z.pow_neg_r 2%Z d) in Hhi by lia. lia. }
  destruct (Z.lt_trichotomy d' d) as [H|[H|H]]; [|exact H|].
  - assert (2 ^ d' <= 2 ^ (d - 1))%Z by (apply Z.pow_le_mono_r; lia). lia.
  - assert (2 ^ d <= 2 ^ (d' - 1))%Z by (apply Z.pow_le_mono_r; lia). lia.
Qed.

Lemma fexp_normal e : (-1074 <= e - 53)%Z -> fexp prec emax e = (e - 53)%Z.
Proof. unfold fexp, emin, prec, emax. lia. Qed.

Lemma bpow_shift E k : (0 <= k)%Z -> bpow (E + k) = IZR (2 ^ k) * bpow E.
Proof. intros Hk. rewrite bpow_plus, (bpow_nonneg_IZR k) by exact Hk. lra. Qed.

Lemma F2R_shift m E k : (0 <= k)%Z -> F2R m (E + k) = F2R (m * 2 ^ k) E.
Proof. intros Hk. unfold F2R. rewrite bpow_shift, mult_IZR by exact Hk. lra. Qed.

Lemma F2R_le m1 m2 e : (m1 <= m2)%Z -> F2R m1 e <= F2R m2 e.
Proof.
  intros H. unfold F2R. apply Rmult_le_compat_r.
  - apply Rlt_le, bpow_gt_0.
  - apply IZR_le, H.
Qed.

Lemma F2R_lt_inv m1 m2 e : F2R m1 e < F2R m2 e -> (m1 < m2)%Z.
Proof.
  unfold F2R. intros H. apply lt_IZR.
  apply Rmult_lt_reg_r with (bpow e); [apply bpow_gt_0 | exact H].
Qed.

Lemma round_nearest_even_cases mrs :
  round_nearest_even (shr_m mrs) (loc_of_shr_record mrs) = shr_m mrs \/
  (round_nearest_even (shr_m mrs) (loc_of_shr_record mrs) = (shr_m mrs + 1)%Z /\
   (shr_r mrs = true \/ shr_s mrs = true)).
Proof.
  destruct mrs as [m [|] [|]]; cbn; auto.
  destruct (Z.even m); auto.
Qed.

Lemma shr_m_of_loc m l : shr_m (shr_record_of_loc m l) = m.
Proof. destruct l as [|[ | | ]]; reflexivity. Qed.

Lemma shr_inbetween mrs ex n x :
  (0 <= n)%Z -> inbetween ex mrs x ->
  exists mrs', shr mrs ex n = (mrs', (ex + n)%Z) /\ inbetween (ex + n) mrs' x.
Proof.
  intros Hn H. destruct n as [|p|p]; try lia.
  - exists mrs. rewrite Z.add_0_r. split; [reflexivity | exact H].
  - exists (SpecFloat.iter_pos shr_1 p mrs). split; [reflexivity|].
    apply inbetween_iter_pos, H.
Qed.

Lemma renorm_correct m E :
  (2 ^ 52 <= m <= 2 ^ 53)%Z -> (-1074 <= E <= 970)%Z ->
  exists p Ef, renorm m E = S754_finite false p Ef /\
    Zpos (digits2_pos p) = 53%Z /\ (E <= Ef <= E + 1)%Z /\
    F2R (Zpos p) Ef = F2R m E.
Proof.
  intros Hm HE. unfold renorm, shr_fexp.
  destruct (Z.eq_dec m (2 ^ 53)%Z) as [->|Hne].
  - change (Zdigits2 (2 ^ 53)) with 54%Z.
    rewrite fexp_normal by lia.
    replace (54 + E - 53 - E)%Z with 1%Z by lia.
    exists (4503599627370496)%positive, (E + 1)%Z.
    cbn -[Z.leb Z.sub].
    replace (E + 1 <=? emax - prec)%Z with true
      by (symmetry; apply Z.leb_le; unfold emax, prec; lia).
    repeat split; try lia.
    rewrite (F2R_shift _ E 1) by lia. reflexivity.
  - assert (Hd : Zdigits2 m = 53%Z) by (apply Zdigits2_unique; lia).
    rewrite Hd, fexp_normal by lia.
    replace (53 + E - 53 - E)%Z with 0%Z by lia.
    destruct m as [|p|p]; try lia.
    exists p, E. cbn -[Z.leb Z.sub].
    replace (E <=? emax - prec)%Z with true
      by (symmetry; apply Z.leb_le; unfold emax, prec; lia).
    cbn [Zdigits2] in Hd.
    repeat split; try lia.
Qed.

Lemma binary_round_aux_correct mx ex lx x d :
  (0 < mx)%Z -> Zdigits2 mx = d -> (53 <= d)%Z ->
  (-1074 <= d + ex - 53)%Z -> (d + ex <= 1023)%Z ->
  inbetween ex (shr_record_of_loc mx lx) x ->
  exists m E,
    binary_round_aux prec emax false mx ex lx = S754_finite false m E /\
    Zpos (digits2_pos m) = 53%Z /\ (d + ex - 53 <= E <= d + ex - 52)%Z /\
    rounded (d + ex - 53) x (F2R (Zpos m) E).
Proof.
  intros Hmx Hd Hd53 Hlo Hhi Hin.
  set (E := (ex + (d - 53))%Z).
  replace (d + ex - 53)%Z with E in * by (unfold E; lia).
  assert (Hx : F2R (2 ^ 52) E <= x < F2R (2 ^ 53) E).
  { destruct mx as [|p|p]; try lia. cbn [Zdigits2] in Hd.
    pose proof (digits2_pos_spec p) as [Hp1 Hp2]. rewrite Hd in Hp1, Hp2.
    destruct Hin as (_ & [Hx1 Hx2] & _). rewrite shr_m_of_loc in Hx1, Hx2.
    unfold E. rewrite !F2R_shift by lia.
    rewrite <- !Z.pow_add_r by lia.
    replace (52 + (d - 53))%Z with (d - 1)%Z by lia.
    replace (53 + (d - 53))%Z with d by lia.
    split.
    - eapply Rle_trans; [|exact Hx1]. apply F2R_le; lia.
    - eapply Rlt_le_trans; [exact Hx2|]. apply F2R_le; lia. }
  destruct (shr_inbetween _ ex (d - 53) x ltac:(lia) Hin) as (mrs' & Hs & Hin').
  fold E in Hs, Hin'.
  assert (Heq : binary_round_aux prec emax false mx ex lx =
                renorm (round_nearest_even (shr_m mrs') (loc_of_shr_record mrs')) E).
  { unfold binary_round_aux, shr_fexp at 1. rewrite Hd, fexp_normal by lia.
    replace (d + ex - 53 - ex)%Z with (d - 53)%Z by lia.
    rewrite Hs. reflexivity. }
  rewrite Heq. clear Heq Hs.
  destruct Hin' as (Hm0 & [Hl Hh] & Hex).
  assert (Hm' : (2 ^ 52 <= shr_m mrs' < 2 ^ 53)%Z).
  { split.
    - assert (2 ^ 52 < shr_m mrs' + 1)%Z; [|lia].
      apply F2R_lt_inv with E. lra.
    - apply F2R_lt_inv with E. lra. }
  assert (Hcases : exists m'', round_nearest_even (shr_m mrs') (loc_of_shr_record mrs') = m'' /\
            (2 ^ 52 <= m'' <= 2 ^ 53)%Z /\
            (F2R m'' E = F2R (shr_m mrs') E \/
             (F2R m'' E = F2R (shr_m mrs' + 1) E /\ F2R (shr_m mrs') E < x))).
  { destruct (round_nearest_even_cases mrs') as [Hr | [Hr Hinex]]; rewrite Hr.
    - eexists; split; [reflexivity|]. split; [lia|]. left; reflexivity.
    - eexists; split; [reflexivity|]. split; [lia|]. right. split; [reflexivity|].
      destruct Hl as [Hl|Hl]; [exact Hl|]. exfalso.
      destruct (Hex (eq_sym Hl)) as [Hr1 Hs1].
      destruct Hinex; congruence. }
  destruct Hcases as (m'' & -> & Hm'' & Hv).
  destruct (renorm_correct m'' E Hm'' ltac:(unfold E; lia)) as (p & Ef & Hren & Hdig & HEf & Hval).
  exists p, Ef. split; [exact Hren|]. split; [exact Hdig|]. split; [unfold E in *; lia|].
  exists (shr_m mrs'). split; [exact Hm'|]. split; [split; assumption|].
  rewrite Hval. exact Hv.
Qed.


Lemma normal_pos_weaken elo ehi elo' ehi' f :
  normal_pos elo ehi f -> (elo' <= elo)%Z -> (ehi <= ehi')%Z ->
  normal_pos elo' ehi' f.
Proof. intros (m & e & -> & Hd & He) H1 H2. exists m, e. repeat split; lia. Qed.

Lemma normal_pos_gt_0 elo ehi f : normal_pos elo ehi f -> 0 < SF2R f.
Proof.
  intros (m & e & -> & _ & _). cbn. unfold F2R.
  apply Rmult_lt_0_compat; [apply IZR_lt; lia | apply bpow_gt_0].
Qed.

(** ** Consequences of [rounded] *)

Lemma rounded_pos E x v : rounded E x v -> 0 < x /\ 0 < v.
Proof.
  intros (m & Hm & [Hl Hh] & Hv). pose proof (bpow_gt_0 E) as Hb.
  assert (0 < F2R m E).
  { unfold F2R. apply Rmult_lt_0_compat; [apply IZR_lt; lia | exact Hb]. }
  rewrite F2R_succ in *. split; [lra|]. destruct Hv as [->|[-> _]]; lra.
Qed.

Lemma rounded_rel_err E x v :
  rounded E x v ->
  - (x * / IZR (2 ^ 52)) <= v - x <= x * / IZR (2 ^ 52).
Proof.
  intros (m & Hm & [Hl Hh] & Hv). pose proof (bpow_gt_0 E) as Hb.
  rewrite F2R_succ in *.
  assert (bpow E <= x * / IZR (2 ^ 52)).
  { assert (F2R (2 ^ 52) E <= x).
    { eapply Rle_trans; [|exact Hl]. apply F2R_le; lia. }
    unfold F2R in H.
    assert (0 < IZR (2 ^ 52)) by (apply IZR_lt; lia).
    apply Rmult_le_reg_r with (IZR (2 ^ 52)); [assumption|].
    rewrite Rmult_assoc, Rinv_l by lra. lra. }
  destruct Hv as [->|[-> _]]; lra.
Qed.

Lemma rounded_exp_le_0 E x v : rounded E x v -> x < IZR (2 ^ 53) -> (E <= 0)%Z.
Proof.
  intros (m & Hm & [Hl Hh] & Hv) Hx.
  destruct (Z_le_gt_dec E 0) as [H|H]; [exact H|]. exfalso.
  assert (F2R (2 ^ 52) E <= x).
  { eapply Rle_trans; [|exact Hl]. apply F2R_le; lia. }
  unfold F2R in H0. rewrite (bpow_nonneg_IZR E) in H0 by lia.
  rewrite <- mult_IZR in H0.
  assert (2 ^ 52 * 2 ^ E < 2 ^ 53)%Z by (apply lt_IZR; lra).
  assert (2 ^ 1 <= 2 ^ E)%Z by (apply Z.pow_le_mono_r; lia).
  lia.
Qed.

Lemma IZR_on_grid n E : (E <= 0)%Z -> IZR n = F2R (n * 2 ^ (- E)) E.
Proof.
  intros HE. rewrite <- F2R_shift by lia.
  replace (E + - E)%Z with 0%Z by lia. unfold F2R, bpow. cbn. lra.
Qed.

(** Rounding does not cross an integer. *)
Lemma rounded_ge_int E x v n :
  rounded E x v -> x < IZR (2 ^ 53) -> IZR n <= x -> IZR n <= v.
Proof.
  intros Hr Hx Hn. pose proof (rounded_exp_le_0 _ _ _ Hr Hx) as HE.
  destruct Hr as (m & Hm & [Hl Hh] & Hv).
  rewrite (IZR_on_grid n E HE) in *.
  assert (n * 2 ^ (- E) < m + 1)%Z by (apply F2R_lt_inv with E; lra).
  assert (F2R (n * 2 ^ (- E)) E <= F2R m E) by (apply F2R_le; lia).
  rewrite F2R_succ in *. pose proof (bpow_gt_0 E).
  destruct Hv as [->|[-> _]]; lra.
Qed.

Lemma rounded_le_int E x v n :
  rounded E x v -> x < IZR (2 ^ 53) -> x <= IZR n -> v <= IZR n.
Proof.
  intros Hr Hx Hn. pose proof (rounded_exp_le_0 _ _ _ Hr Hx) as HE.
  destruct Hr as (m & Hm & [Hl Hh] & Hv).
  rewrite (IZR_on_grid n E HE) in *.
  destruct Hv as [->|[-> Hlt]]; [lra|].
  assert (m < n * 2 ^ (- E))%Z by (apply F2R_lt_inv with E; lra).
  apply F2R_le; lia.
Qed.


Lemma F2R_lt m1 m2 e : (m1 < m2)%Z -> F2R m1 e < F2R m2 e.
Proof.
  intros H. unfold F2R. apply Rmult_lt_compat_r.
  - apply bpow_gt_0.
  - apply IZR_lt, H.
Qed.

Lemma F2R_exp_0 m : F2R m 0 = IZR m.
Proof. unfold F2R, bpow. cbn. lra. Qed.

Lemma rounded_on_grid E x v k : rounded E x v -> x = F2R k E -> v = x.
Proof.
  intros (m & Hm & [Hl Hh] & Hv) ->.
  destruct Hv as [->|[-> Hlt]].
  - assert (k < m + 1)%Z by (apply F2R_lt_inv with E; lra).
    destruct (Z_lt_le_dec k m) as [Hlt|Hle].
    + pose proof (F2R_lt k m E Hlt). lra.
    + replace k with m by lia. reflexivity.
  - assert (k < m + 1)%Z by (apply F2R_lt_inv with E; lra).
    assert (m < k)%Z by (apply F2R_lt_inv with E; lra). lia.
Qed.

Lemma iter_xO_spec p k : Zpos (Pos.iter xO p k) = (Zpos p * 2 ^ Zpos k)%Z.
Proof.
  induction k as [|k IH] using Pos.peano_ind.
  - cbn. lia.
  - rewrite Pos.iter_succ, Pos2Z.inj_xO, IH, Pos2Z.inj_succ.
    rewrite Z.pow_succ_r by lia. lia.
Qed.

(** ** Conversion of an integer below [2^53] is exact *)

Lemma of_int_correct z :
  (0 < z < 2 ^ 53)%Z ->
  normal_pos (-52) 1 (of_int z) /\ SF2R (of_int z) = IZR z.
Proof.
  intros Hz. destruct z as [|p|p]; try lia.
  unfold of_int, binary_normalize, binary_round.
  pose proof (digits2_pos_spec p) as [Hd1 Hd2].
  set (d := Zpos (digits2_pos p)) in *.
  assert (Hd : (1 <= d <= 53)%Z).
  { split; [unfold d; lia|].
    destruct (Z_le_gt_dec d 53) as [H|H]; [exact H|].
    assert (2 ^ 53 <= 2 ^ (d - 1))%Z by (apply Z.pow_le_mono_r; lia). lia. }
  assert (Hf : fexp prec emax (d + 0) = (d - 53)%Z).
  { unfold fexp, emin, prec, emax. lia. }
  rewrite Hf.
  assert (Hal : exists mz, shl_align p 0 (d - 53) = (mz, (d - 53)%Z) /\
                  Zpos mz = (Zpos p * 2 ^ (53 - d))%Z).
  { unfold shl_align. destruct (d - 53 - 0)%Z as [|k|k] eqn:Hk; try lia.
    - exists p. replace (d - 53)%Z with 0%Z by lia.
      split; [reflexivity|]. replace (53 - d)%Z with 0%Z by lia. cbn. lia.
    - exists (Pos.iter xO p k). split; [reflexivity|].
      rewrite iter_xO_spec. f_equal. f_equal. lia. }
  destruct Hal as (mz & -> & Hmz).
  assert (Hval : F2R (Zpos mz) (d - 53) = IZR (Zpos p)).
  { rewrite Hmz, <- F2R_shift by lia.
    replace (d - 53 + (53 - d))%Z with 0%Z by lia. apply F2R_exp_0. }
  assert (Hdig : Zdigits2 (Zpos mz) = 53%Z).
  { apply Zdigits2_unique; [lia|]. rewrite Hmz.
    assert (H52 : (2 ^ (53 - 1) = 2 ^ (d - 1) * 2 ^ (53 - d))%Z).
    { rewrite <- Z.pow_add_r by lia. f_equal. lia. }
    assert (H53 : (2 ^ 53 = 2 ^ d * 2 ^ (53 - d))%Z).
    { rewrite <- Z.pow_add_r by lia. f_equal. lia. }
    assert (0 < 2 ^ (53 - d))%Z by (apply Z.pow_pos_nonneg; lia).
    rewrite H52, H53. split.
    - apply Z.mul_le_mono_nonneg_r; lia.
    - apply Z.mul_lt_mono_pos_r; lia. }
  destruct (binary_round_aux_correct (Zpos mz) (d - 53) loc_Exact (IZR (Zpos p)) 53)
    as (m & E & Heq & Hm & HE & Hr); try lia.
  { cbn [shr_record_of_loc]. unfold inbetween. cbn [shr_m shr_r shr_s].
    rewrite F2R_succ, Hval. pose proof (bpow_gt_0 (d - 53)).
    split; [lia|]. split; [lra|]. intros _. split; reflexivity. }
  rewrite Heq. split.
  - exists m, E. split; [reflexivity|]. split; [exact Hm|]. lia.
  - cbn [SF2R]. eapply rounded_on_grid; [exact Hr|].
    replace (53 + (d - 53) - 53)%Z with (d - 53)%Z by lia.
    symmetry. exact Hval.
Qed.


(** ** Multiplication of normal numbers *)

Lemma mul_correct a b c d fx fy :
  normal_pos a b fx -> normal_pos c d fy ->
  (-1074 <= a + c + 52)%Z -> (b + d <= 900)%Z ->
  exists E, normal_pos (a + c + 52) (b + d + 54) (mul fx fy) /\
            rounded E (SF2R fx * SF2R fy) (SF2R (mul fx fy)).
Proof.
  intros (mx & ex & -> & Hdx & Hex) (my & ey & -> & Hdy & Hey) Hlo Hhi.
  unfold mul. cbn [SFmul xorb SF2R].
  pose proof (digits2_pos_spec mx) as Hmx. rewrite Hdx in Hmx.
  pose proof (digits2_pos_spec my) as Hmy. rewrite Hdy in Hmy.
  rewrite Pos2Z.inj_mul.
  assert (Hprod : (2 ^ 104 <= Zpos mx * Zpos my < 2 ^ 106)%Z) by nia.
  set (P := (Zpos mx * Zpos my)%Z) in *.
  assert (Hd : exists dd, Zdigits2 P = dd /\ (105 <= dd <= 106)%Z).
  { destruct (Z_lt_le_dec P (2 ^ 105)) as [H|H].
    - exists 105%Z. split; [apply Zdigits2_unique; lia | lia].
    - exists 106%Z. split; [apply Zdigits2_unique; lia | lia]. }
  destruct Hd as (dd & Hdd & Hrange).
  destruct (binary_round_aux_correct P (ex + ey) loc_Exact
              (F2R (Zpos mx) ex * F2R (Zpos my) ey) dd)
    as (m & E & Heq & Hm & HE & Hr); try lia.
  { cbn [shr_record_of_loc]. unfold inbetween. cbn [shr_m shr_r shr_s].
    assert (F2R P (ex + ey) = F2R (Zpos mx) ex * F2R (Zpos my) ey) as <-.
    { unfold F2R, P. rewrite mult_IZR, bpow_plus. ring. }
    rewrite F2R_succ. pose proof (bpow_gt_0 (ex + ey)).
    split; [lia|]. split; [lra|]. intros _; split; reflexivity. }
  rewrite Heq. exists (dd + (ex + ey) - 53)%Z. split.
  - exists m, E. split; [reflexivity|]. split; [exact Hm|]. lia.
  - exact Hr.
Qed.

(** ** Division of normal numbers *)

Lemma new_location_0 nb : new_location nb 0 = loc_Exact.
Proof.
  unfold new_location, new_location_even, new_location_odd.
  destruct (Z.even nb); reflexivity.
Qed.

Lemma SFdiv_core_normal mx ex my ey :
  Zpos (digits2_pos mx) = 53%Z -> Zpos (digits2_pos my) = 53%Z ->
  (-1074 <= ex - ey - 53)%Z ->
  SFdiv_core_binary prec emax (Zpos mx) ex (Zpos my) ey =
  (let '(q, r) := Z.div_eucl (Zpos mx * 2 ^ 53) (Zpos my) in
   (q, (ex - ey - 53)%Z, new_location (Zpos my) r)).
Proof.
  intros Hdx Hdy Hlo. unfold SFdiv_core_binary. cbn [Zdigits2].
  rewrite Hdx, Hdy.
  assert (He : Z.min (fexp prec emax (53 + ex - (53 + ey))) (ex - ey)
               = (ex - ey - 53)%Z).
  { unfold fexp, emin, prec, emax. lia. }
  rewrite He.
  replace (ex - ey - (ex - ey - 53))%Z with 53%Z by lia.
  rewrite Z.shiftl_mul_pow2 by lia. reflexivity.
Qed.

Lemma div_correct a b c d fx fy :
  normal_pos a b fx -> normal_pos c d fy ->
  (-1074 <= a - d - 53)%Z -> (b - c <= 900)%Z ->
  exists E, normal_pos (a - d - 53) (b - c - 51) (div fx fy) /\
            rounded E (SF2R fx / SF2R fy) (SF2R (div fx fy)).
Proof.
  intros (mx & ex & -> & Hdx & Hex) (my & ey & -> & Hdy & Hey) Hlo Hhi.
  unfold div. cbn [SFdiv xorb SF2R].
  rewrite SFdiv_core_normal by (assumption || lia).
  pose proof (digits2_pos_spec mx) as Hmx. rewrite Hdx in Hmx.
  pose proof (digits2_pos_spec my) as Hmy. rewrite Hdy in Hmy.
  pose proof (Z_div_mod (Zpos mx * 2 ^ 53) (Zpos my) ltac:(lia)) as Hdm.
  destruct (Z.div_eucl (Zpos mx * 2 ^ 53) (Zpos my)) as [q r].
  destruct Hdm as [Hdm Hr].
  set (e' := (ex - ey - 53)%Z).
  assert (Hq : (2 ^ 52 <= q < 2 ^ 54)%Z) by nia.
  assert (Hd : exists dd, Zdigits2 q = dd /\ (53 <= dd <= 54)%Z).
  { destruct (Z_lt_le_dec q (2 ^ 53)) as [H|H].
    - exists 53%Z. split; [apply Zdigits2_unique; lia | lia].
    - exists 54%Z. split; [apply Zdigits2_unique; lia | lia]. }
  destruct Hd as (dd & Hdd & Hrange).
  assert (Hx : F2R (Zpos mx) ex / F2R (Zpos my) ey
               = F2R q e' + IZR r / IZR (Zpos my) * bpow e').
  { unfold F2R. replace ex with (e' + 53 + ey)%Z by (unfold e'; lia).
    rewrite !bpow_plus, (bpow_nonneg_IZR 53) by lia.
    pose proof (bpow_gt_0 ey). pose proof (bpow_gt_0 e').
    assert (0 < IZR (Zpos my)) by (apply IZR_lt; lia).
    assert (IZR (Zpos mx) * IZR (2 ^ 53) = IZR (Zpos my) * IZR q + IZR r) as Hm.
    { rewrite <- !mult_IZR, <- plus_IZR. f_equal. exact Hdm. }
    set (X := IZR (Zpos mx)) in *. set (K := IZR (2 ^ 53)) in *.
    set (Y := IZR (Zpos my)) in *. set (B := bpow e') in *.
    set (By := bpow ey) in *.
    replace (X * (B * K * By)) with ((Y * IZR q + IZR r) * (B * By))
      by (rewrite <- Hm; ring).
    field. split; lra. }
  assert (Hfrac : 0 <= IZR r / IZR (Zpos my) < 1).
  { assert (0 < IZR (Zpos my)) by (apply IZR_lt; lia).
    assert (0 <= IZR r) by (apply IZR_le; lia).
    assert (IZR r < IZR (Zpos my)) by (apply IZR_lt; lia).
    split.
    - apply Rmult_le_pos; [assumption|]. apply Rlt_le, Rinv_0_lt_compat. assumption.
    - apply Rmult_lt_reg_r with (IZR (Zpos my)); [assumption|].
      unfold Rdiv. rewrite Rmult_assoc, Rinv_l by lra. lra. }
  destruct (binary_round_aux_correct q e' (new_location (Zpos my) r)
              (F2R (Zpos mx) ex / F2R (Zpos my) ey) dd)
    as (m & E & Heq & Hm & HE & Hrd); try (unfold e'; lia).
  { unfold inbetween. rewrite shr_m_of_loc, Hx, F2R_succ.
    pose proof (bpow_gt_0 e') as Hb.
    split; [lia|]. split; [nra|].
    intros H0.
    assert (IZR r / IZR (Zpos my) = 0) as Hz by nra.
    assert (r = 0%Z) as ->.
    { apply eq_IZR. assert (0 < IZR (Zpos my)) by (apply IZR_lt; lia).
      unfold Rdiv in Hz. apply Rmult_integral in Hz. destruct Hz as [Hz|Hz]; [exact Hz|].
      pose proof (Rinv_0_lt_compat _ H). lra. }
    rewrite new_location_0. split; reflexivity. }
  rewrite Heq. exists (dd + e' - 53)%Z. split.
  - exists m, E. split; [reflexivity|]. split; [exact Hm|]. unfold e' in *. lia.
  - exact Hrd.
Qed.

(** ** Floor *)

Lemma floor_correct m e :
  exists k, floor (S754_finite false m e) = Some k /\
    IZR k <= F2R (Zpos m) e < IZR k + 1.
Proof.
  cbn [floor]. destruct e as [|p|p].
  - exists (Zpos m). split; [reflexivity|]. rewrite F2R_exp_0. lra.
  - exists (Zpos m * 2 ^ Zpos p)%Z. split; [reflexivity|].
    rewrite <- (F2R_exp_0 (Zpos m * 2 ^ Zpos p)), <- F2R_shift by lia.
    rewrite Z.add_0_l. lra.
  - exists (Zpos m / 2 ^ Zpos p)%Z. split; [reflexivity|].
    assert (0 < 2 ^ Zpos p)%Z as Hp by (apply Z.pow_pos_nonneg; lia).
    pose proof (Z.div_mod (Zpos m) (2 ^ Zpos p) ltac:(lia)) as Hdm.
    pose proof (Z.mod_pos_bound (Zpos m) (2 ^ Zpos p) Hp) as Hr.
    set (k := (Zpos m / 2 ^ Zpos p)%Z) in *.
    replace (IZR k + 1) with (IZR (k + 1)) by (rewrite plus_IZR; lra).
    rewrite (IZR_on_grid k (Zneg p)), (IZR_on_grid (k + 1) (Zneg p)) by lia.
    change (- Zneg p)%Z with (Zpos p). split.
    + apply F2R_le. lia.
    + apply F2R_lt. lia.
Qed.


(** ** Truncation of a scaled quotient

    [floor (fl (i * fl (a / b)))] is the exact [floor (i * a / b)], or one
    below it when [i * a / b] is an integer that the rounded product
    undershoots. *)

Lemma u52_facts : 0 < u52 /\ IZR (2 ^ 50) * (2 * u52 + u52 * u52) < 1.
Proof.
  unfold u52. change (2 ^ 52)%Z with 4503599627370496%Z.
  change (2 ^ 50)%Z with 1125899906842624%Z. split; lra.
Qed.

Lemma rounded_bounds E x v :
  rounded E x v -> x * (1 - u52) <= v <= x * (1 + u52).
Proof.
  intros Hr. pose proof (rounded_rel_err _ _ _ Hr) as He.
  fold u52 in He. lra.
Qed.

Lemma scaled_real_bounds (A Rb P S Y k : R) (X1 Ri : R) :
  0 < Rb -> 0 < Ri -> 0 < X1 -> P = Ri * X1 -> Rb * P = A ->
  A <= IZR (2 ^ 50) ->
  X1 * (1 - u52) <= S <= X1 * (1 + u52) ->
  (Ri * S) * (1 - u52) <= Y <= (Ri * S) * (1 + u52) ->
  k <= Y < k + 1 ->
  Rb * k < A + 1 /\ A - 1 < Rb * (k + 1).
Proof.
  intros HRb HRi HX1 HP HA HA50 [HS1 HS2] [HY1 HY2] [Hk1 Hk2].
  destruct u52_facts as [Hu Hnum].
  assert (Hu1 : u52 < 1).
  { assert (1 <= IZR (2 ^ 50)) by (apply IZR_le; lia). nra. }
  assert (HP0 : 0 < P) by (subst P; nra).
  assert (HA0 : 0 < A) by (subst A; nra).
  assert (HiS2 : Ri * S <= P * (1 + u52)) by (subst P; nra).
  assert (HiS1 : P * (1 - u52) <= Ri * S) by (subst P; nra).
  assert (HYu : Y <= P * ((1 + u52) * (1 + u52))) by nra.
  assert (HYl : P * ((1 - u52) * (1 - u52)) <= Y) by nra.
  assert (HbY2 : Rb * Y <= A * ((1 + u52) * (1 + u52))).
  { rewrite <- HA. nra. }
  assert (HbY1 : A * ((1 - u52) * (1 - u52)) <= Rb * Y).
  { rewrite <- HA. nra. }
  assert (HAerr : A * (2 * u52 + u52 * u52) < 1) by nra.
  split; nra.
Qed.

Lemma scaled_floor_value (i a b : Z) (y s : spec_float) E1 E2 m e :
  (0 < i)%Z -> (0 < a)%Z -> (0 < b)%Z -> (i * a <= 2 ^ 50)%Z ->
  rounded E1 (IZR a / IZR b) (SF2R s) ->
  rounded E2 (IZR i * SF2R s) (SF2R y) ->
  y = S754_finite false m e ->
  exists k, floor y = Some k /\
    (0 <= k)%Z /\ (b * k <= i * a)%Z /\ (i * a <= b * k + b)%Z.
Proof.
  intros Hi Ha Hb Hia Hr1 Hr2 ->.
  destruct (floor_correct m e) as (k & Hfl & Hk).
  exists k. split; [exact Hfl|].
  assert (HRb : 0 < IZR b) by (apply IZR_lt; lia).
  assert (HRi : 0 < IZR i) by (apply IZR_lt; lia).
  assert (HRa : 0 < IZR a) by (apply IZR_lt; lia).
  assert (HX1 : 0 < IZR a / IZR b) by (apply Rdiv_lt_0_compat; assumption).
  destruct (scaled_real_bounds (IZR (i * a)) (IZR b) (IZR i * (IZR a / IZR b))
              (SF2R s) (F2R (Zpos m) e) (IZR k) (IZR a / IZR b) (IZR i))
    as [Hup Hlo]; try assumption; try reflexivity.
  - rewrite mult_IZR. field. lra.
  - apply IZR_le. exact Hia.
  - apply rounded_bounds with E1. exact Hr1.
  - apply (rounded_bounds E2). exact Hr2.
  - split; [|split].
    + destruct (rounded_pos _ _ _ Hr2) as [_ Hy]. cbn [SF2R] in Hy.
      assert (0 < IZR (k + 1)) by (rewrite plus_IZR; lra).
      apply lt_IZR in H. lia.
    + rewrite <- mult_IZR, <- (plus_IZR _ 1) in Hup. apply lt_IZR in Hup. lia.
    + replace (IZR k + 1) with (IZR (k + 1)) in Hlo by (rewrite plus_IZR; lra).
      rewrite <- mult_IZR in Hlo.
      replace (IZR (i * a) - 1) with (IZR (i * a - 1)) in Hlo
        by (rewrite minus_IZR; lra).
      apply lt_IZR in Hlo. lia.
Qed.


(** When the quotient is at least one, the truncated product is at least
    the multiplier. *)
Lemma scaled_floor_ge (i a b : Z) (y s : spec_float) E1 E2 k :
  (0 < i)%Z -> (0 < b <= a)%Z -> (i * a <= 2 ^ 50)%Z ->
  rounded E1 (IZR a / IZR b) (SF2R s) ->
  rounded E2 (IZR i * SF2R s) (SF2R y) ->
  (exists m e, y = S754_finite false m e) ->
  floor y = Some k -> (i <= k)%Z.
Proof.
  intros Hi [Hb Hab] Hia Hr1 Hr2 (m & e & ->) Hfl.
  assert (HRb : 0 < IZR b) by (apply IZR_lt; lia).
  assert (HRi : 1 <= IZR i) by (apply IZR_le; lia).
  assert (HRab : IZR b <= IZR a) by (apply IZR_le; lia).
  assert (HRa50 : IZR i * IZR a <= IZR (2 ^ 50)).
  { rewrite <- mult_IZR. apply IZR_le. exact Hia. }
  assert (H50 : IZR (2 ^ 50) * 2 < IZR (2 ^ 53)).
  { change (2 ^ 50)%Z with 1125899906842624%Z.
    change (2 ^ 53)%Z with 9007199254740992%Z. lra. }
  assert (Hq1 : 1 <= IZR a / IZR b).
  { apply Rmult_le_reg_r with (IZR b); [exact HRb|].
    unfold Rdiv. rewrite Rmult_assoc, Rinv_l by lra. lra. }
  assert (Hqa : IZR a / IZR b <= IZR a).
  { apply Rmult_le_reg_r with (IZR b); [exact HRb|].
    unfold Rdiv. rewrite Rmult_assoc, Rinv_l by lra.
    assert (1 <= IZR b) by (apply IZR_le; lia). nra. }
  assert (Ha50 : IZR a <= IZR (2 ^ 50)) by nra.
  pose proof (rounded_ge_int _ _ _ 1 Hr1 ltac:(lra) Hq1) as Hs1.
  pose proof (rounded_bounds _ _ _ Hr1) as [_ Hs2].
  destruct u52_facts as [Hu _].
  assert (Hu1 : u52 < 1).
  { unfold u52. change (2 ^ 52)%Z with 4503599627370496%Z. lra. }
  assert (Hs3 : SF2R s <= IZR a * 2) by nra.
  assert (Hx2 : IZR i * SF2R s < IZR (2 ^ 53)) by nra.
  assert (Hx2' : IZR i <= IZR i * SF2R s) by nra.
  pose proof (rounded_ge_int _ _ _ i Hr2 Hx2 Hx2') as Hy.
  cbn [SF2R] in Hy.
  destruct (floor_correct m e) as (k' & Hfl' & Hk').
  rewrite Hfl in Hfl'. injection Hfl' as <-.
  assert (IZR i < IZR (k + 1)) as Hlt by (rewrite plus_IZR; lra).
  apply lt_IZR in Hlt. lia.
Qed.

End Float64Facts.

(** ** The frame index sequence *)

Module SamplerFacts.
Import Float64Spec Float64Facts Sampler.

Lemma truncated_0 a b k : 0 < b -> truncated a b 0 k -> k = 0.
Proof. unfold truncated. nia. Qed.

Lemma add_zero_r f :
  (f = Float64.zero \/ exists m e, f = S754_finite false m e) ->
  Float64.add f Float64.zero = f.
Proof. intros [->|(m & e & ->)]; reflexivity. Qed.

Lemma floor_to_int64_small f k :
  Float64.floor f = Some k -> 0 <= k <= 2 ^ 53 ->
  Numpy.floor_to_int64 f = k.
Proof.
  intros Hf Hk. unfold Numpy.floor_to_int64. rewrite Hf.
  replace (- 2 ^ 63 <=? k) with true by (symmetry; apply Z.leb_le; lia).
  replace (k <? 2 ^ 63) with true by (symmetry; apply Z.ltb_lt; lia).
  reflexivity.
Qed.

Lemma floor_to_int64_of_int a :
  0 <= a < 2 ^ 53 -> Numpy.floor_to_int64 (Float64.of_int a) = a.
Proof.
  intros Ha. destruct (Z.eq_dec a 0) as [->|Hne]; [reflexivity|].
  destruct (of_int_correct a ltac:(lia)) as [(m & e & Heq & Hd & He) Hv].
  rewrite Heq in *. cbn [SF2R] in Hv.
  destruct (floor_correct m e) as (k & Hfl & Hk). rewrite Hv in Hk.
  assert (k = a).
  { destruct Hk as [Hk1 Hk2]. apply le_IZR in Hk1.
    rewrite <- (plus_IZR k 1) in Hk2. apply lt_IZR in Hk2. lia. }
  subst k. apply floor_to_int64_small; [exact Hfl | lia].
Qed.

(** One interior point of the sequence, for a positive step. *)
Lemma interior_point a b i :
  0 < a -> 0 < b -> 0 <= i -> i * a <= 2 ^ 50 -> b < 2 ^ 53 ->
  i < 2 ^ 53 -> a < 2 ^ 53 ->
  let step := Float64.div (Float64.of_int a) (Float64.of_int b) in
  Float64.eqb step Float64.zero = false /\
  exists k,
    Numpy.floor_to_int64
      (Float64.add (Float64.mul (Float64.of_int i) step) Float64.zero) = k /\
    truncated a b i k /\ (a = b -> k = i).
Proof.
  intros Ha Hb Hi Hia Hb53 Hi53 Ha53 step.
  destruct (of_int_correct a ltac:(lia)) as [Hna Hva].
  destruct (of_int_correct b ltac:(lia)) as [Hnb Hvb].
  destruct (div_correct _ _ _ _ _ _ Hna Hnb ltac:(lia) ltac:(lia))
    as (E1 & Hns & Hr1).
  fold step in Hns, Hr1. rewrite Hva, Hvb in Hr1.
  split.
  { destruct Hns as (m & e & -> & _). reflexivity. }
  destruct (Z.eq_dec i 0) as [->|Hne].
  - exists 0. split; [|split].
    + destruct Hns as (m & e & -> & _). reflexivity.
    + unfold truncated. lia.
    + reflexivity || (intros; lia).
  - destruct (of_int_correct i ltac:(lia)) as [Hni Hvi].
    destruct (mul_correct _ _ _ _ _ _ Hni Hns ltac:(lia) ltac:(lia))
      as (E2 & Hny & Hr2).
    rewrite Hvi in Hr2.
    destruct Hny as (m & e & Hy & _).
    destruct (scaled_floor_value i a b _ step E1 E2 m e
                ltac:(lia) Ha Hb Hia Hr1 Hr2 Hy)
      as (k & Hfl & Hk0 & Hk1 & Hk2).
    exists k. split; [|split].
    + rewrite add_zero_r by (right; eauto).
      apply floor_to_int64_small; [exact Hfl|]. nia.
    + unfold truncated. lia.
    + intros <-.
      assert (Hone : (IZR a / IZR a = 1)%R).
      { field. apply not_0_IZR. lia. }
      rewrite Hone in Hr1.
      assert (Hx53 : (1 < IZR (2 ^ 53))%R) by (apply IZR_lt; lia).
      pose proof (rounded_ge_int _ _ _ 1 Hr1 Hx53 ltac:(lra)) as Hs1.
      pose proof (rounded_le_int _ _ _ 1 Hr1 Hx53 ltac:(lra)) as Hs2.
      assert (Hs : SF2R step = 1%R) by lra.
      rewrite Hs, Rmult_1_r in Hr2.
      assert (Hi53' : (IZR i < IZR (2 ^ 53))%R) by (apply IZR_lt; lia).
      pose proof (rounded_ge_int _ _ _ i Hr2 Hi53' ltac:(lra)) as Hy1.
      pose proof (rounded_le_int _ _ _ i Hr2 Hi53' ltac:(lra)) as Hy2.
      rewrite Hy in Hy1, Hy2. cbn [SF2R] in Hy1, Hy2.
      destruct (floor_correct m e) as (k' & Hfl' & Hk').
      rewrite Hy in Hfl. rewrite Hfl in Hfl'. injection Hfl' as <-.
      destruct Hk' as [Hk1' Hk2'].
      assert (IZR k <= IZR i)%R as Hle by lra. apply le_IZR in Hle.
      assert (IZR i < IZR (k + 1))%R as Hlt by (rewrite plus_IZR; lra).
      apply lt_IZR in Hlt. lia.
Qed.

Lemma removelast_map_seq {A : Type} (f : nat -> A) n :
  removelast (map f (seq 0 (S n))) = map f (seq 0 n).
Proof. rewrite seq_S, map_app. cbn [map]. apply removelast_last. Qed.


Lemma nth_map_seq {A : Type} (g : nat -> A) (n i : nat) (d : A) :
  (i < n)%nat -> nth i (map g (seq 0 n)) d = g i.
Proof.
  intros Hi. rewrite (nth_indep _ d (g 0%nat)) by (rewrite length_map, length_seq; exact Hi).
  rewrite (map_nth g (seq 0 n) 0%nat i), seq_nth by exact Hi. reflexivity.
Qed.

Lemma sub_zero_r a :
  0 <= a < 2 ^ 53 ->
  Float64.sub (Float64.of_int a) (Float64.of_int 0) = Float64.of_int a.
Proof.
  intros Ha. destruct (Z.eq_dec a 0) as [->|Hne]; [reflexivity|].
  destruct (of_int_correct a ltac:(lia)) as [(m & e & -> & _) _]. reflexivity.
Qed.

(** The degenerate step: a one-frame video. *)
Lemma zero_step_point b i :
  0 < b < 2 ^ 53 -> 0 <= i < 2 ^ 53 ->
  Float64.eqb (Float64.div Float64.zero (Float64.of_int b)) Float64.zero = true /\
  Numpy.floor_to_int64
    (Float64.add
       (Float64.mul (Float64.div (Float64.of_int i) (Float64.of_int b))
                    Float64.zero) Float64.zero) = 0.
Proof.
  intros Hb Hi.
  destruct (of_int_correct b ltac:(lia)) as [Hnb Hvb].
  split.
  { destruct Hnb as (m & e & -> & _). reflexivity. }
  destruct (Z.eq_dec i 0) as [->|Hne].
  - destruct Hnb as (m & e & -> & _). reflexivity.
  - destruct (of_int_correct i ltac:(lia)) as [Hni Hvi].
    destruct (div_correct _ _ _ _ _ _ Hni Hnb ltac:(lia) ltac:(lia))
      as (E1 & (m & e & -> & _) & _).
    reflexivity.
Qed.

(** The sequence for at least two samples: [n] interior indices, each the
    truncation of its exact point, followed by the last frame. *)
Lemma frame_id_list_ge_2 D (n : nat) :
  1 <= D -> D * (Z.of_nat n + 2) <= 2 ^ 50 ->
  exists g : nat -> Z,
    Sampler.frame_id_list D (Z.of_nat (S n) + 1)
      = Ok (map g (seq 0 (S n)) ++ [D - 1]) /\
    forall i, (i < S n)%nat ->
      truncated (D - 1) (Z.of_nat (S n)) (Z.of_nat i) (g i) /\
      (D - 1 = Z.of_nat (S n) -> g i = Z.of_nat i).
Proof.
  intros HD Hb.
  set (N := Z.of_nat (S n) + 1). set (a := D - 1). set (b := Z.of_nat (S n)).
  assert (HN : N = b + 1) by reflexivity.
  assert (Hb0 : 0 < b) by (unfold b; lia).
  assert (Hbound : b < 2 ^ 50 /\ a < 2 ^ 50) by (unfold a, b in *; nia).
  unfold Sampler.frame_id_list, Numpy.linspace_int, Numpy.linspace_points.
  fold a.
  replace (N <? 0) with false by (symmetry; apply Z.ltb_ge; lia).
  replace (N - 1) with b by lia.
  replace (0 <? b) with true by (symmetry; apply Z.ltb_lt; lia).
  replace (1 <? N) with true by (symmetry; apply Z.ltb_lt; lia).
  replace (Z.to_nat N) with (S (S n)) by (unfold N; lia).
  rewrite sub_zero_r by lia.
  change (Float64.of_int 0) with Float64.zero.
  destruct (Z.eq_dec a 0) as [Ha0|Ha0].
  - (* one frame: the step is zero *)
    rewrite Ha0. change (Float64.of_int 0) with Float64.zero.
    destruct (zero_step_point b 0 ltac:(lia) ltac:(lia)) as [-> _].
    rewrite !map_map. unfold Numpy.set_last.
    rewrite removelast_map_seq, map_app, map_map. cbn [map].
    eexists. split; [reflexivity|].
    intros i Hi. cbv beta.
    destruct (zero_step_point b (Z.of_nat i) ltac:(lia) ltac:(lia)) as [_ ->].
    unfold truncated. split; lia.
  - destruct (interior_point a b 0 ltac:(lia) Hb0 ltac:(lia) ltac:(lia)
                ltac:(lia) ltac:(lia) ltac:(lia)) as [-> _].
    rewrite !map_map. unfold Numpy.set_last.
    rewrite removelast_map_seq, map_app, map_map. cbn [map].
    rewrite floor_to_int64_of_int by lia.
    eexists. split; [reflexivity|].
    intros i Hi. cbv beta.
    destruct (interior_point a b (Z.of_nat i) ltac:(lia) Hb0 ltac:(lia)
                ltac:(unfold a, b in *; nia) ltac:(lia) ltac:(lia) ltac:(lia))
      as [_ (k & -> & Hk)].
    exact Hk.
Qed.

(** A single sample is the first frame. *)
Lemma frame_id_list_1 D :
  1 <= D < 2 ^ 53 -> Sampler.frame_id_list D 1 = Ok [0].
Proof.
  intros HD.
  unfold Sampler.frame_id_list, Numpy.linspace_int, Numpy.linspace_points.
  cbn [Z.ltb Z.compare Z.sub Z.add Z.opp Z.pos_sub Z.to_nat Pos.to_nat
       Pos.iter_op seq map Nat.add Z.of_nat].
  rewrite sub_zero_r by lia.
  destruct (Z.eq_dec (D - 1) 0) as [->|Hne]; [reflexivity|].
  destruct (of_int_correct (D - 1) ltac:(lia)) as [(m & e & -> & _) _].
  reflexivity.
Qed.


(** The whole sequence: every index is the truncation of its exact point;
    when [D = N] the indices are [0 .. D-1]. *)
Lemma frame_id_list_structure D N :
  1 <= D -> 1 <= N -> D * N <= 2 ^ 50 ->
  exists ids, Sampler.frame_id_list D N = Ok ids /\
    length ids = Z.to_nat N /\
    (forall i, (i < length ids)%nat ->
       truncated (D - 1) (N - 1) (Z.of_nat i) (nth i ids 0) /\
       nth i ids 0 <= D - 1 /\
       (D = N -> nth i ids 0 = Z.of_nat i)) /\
    (N = 1 -> ids = [0]) /\
    (2 <= N -> List.last ids 0 = D - 1).
Proof.
  intros HD HN Hb.
  destruct (Z.eq_dec N 1) as [->|HN1].
  - exists [0]. rewrite frame_id_list_1 by lia.
    split; [reflexivity|]. split; [reflexivity|]. split; [|split; [reflexivity|lia]].
    intros i Hi. cbn in Hi. assert (i = 0%nat) as -> by lia.
    cbn. unfold truncated. lia.
  - set (n := Z.to_nat (N - 2)).
    assert (HNn : N = Z.of_nat (S n) + 1) by (unfold n; lia).
    destruct (frame_id_list_ge_2 D n HD ltac:(nia)) as (g & Hg & Hi).
    rewrite <- HNn in Hg.
    exists (map g (seq 0 (S n)) ++ [D - 1]). split; [exact Hg|].
    assert (Hlen : length (map g (seq 0 (S n)) ++ [D - 1]) = S (S n)).
    { rewrite length_app, length_map, length_seq. cbn. lia. }
    split; [rewrite Hlen; lia|]. split; [|split; [lia|]].
    + intros i Hlt. rewrite Hlen in Hlt.
      replace (N - 1) with (Z.of_nat (S n)) by lia.
      destruct (Nat.eq_dec i (S n)) as [->|Hne].
      * rewrite app_nth2 by (rewrite length_map, length_seq; lia).
        rewrite length_map, length_seq, Nat.sub_diag. cbn [nth].
        unfold truncated. split; [nia|]. split; lia.
      * rewrite app_nth1 by (rewrite length_map, length_seq; lia).
        rewrite nth_map_seq by lia.
        destruct (Hi i ltac:(lia)) as [Ht He].
        split; [exact Ht|]. split; [unfold truncated in Ht; nia|].
        intros HDN. apply He. lia.
    + intros _. apply last_last.
Qed.

(** *** Consequences for a sequence of truncated points *)

Lemma truncated_nondecreasing (a b : Z) (ids : list Z) i j :
  0 <= a -> 0 < b ->
  (forall i, (i < length ids)%nat ->
     truncated a b (Z.of_nat i) (nth i ids 0)) ->
  (i <= j < length ids)%nat -> nth i ids 0 <= nth j ids 0.
Proof.
  intros Ha Hb Htr Hij.
  destruct (Htr i ltac:(lia)) as (Hi0 & Hi1 & Hi2).
  destruct (Htr j ltac:(lia)) as (Hj0 & Hj1 & Hj2).
  destruct (Nat.eq_dec i j) as [->|Hne]; [lia|].
  destruct (Z.eq_dec a 0) as [Ha0|Ha0]; [subst a; nia|].
  assert (Z.of_nat i < Z.of_nat j) as Hlt by lia.
  assert (Z.of_nat i * a < Z.of_nat j * a) by nia.
  nia.
Qed.

Lemma truncated_increasing (a b : Z) (ids : list Z) i j :
  0 <= a -> 0 < b ->
  (forall i, (i < length ids)%nat ->
     truncated a b (Z.of_nat i) (nth i ids 0)) ->
  b < a -> (i < j < length ids)%nat -> nth i ids 0 < nth j ids 0.
Proof.
  intros Ha Hb Htr Hba Hij.
  destruct (Htr i ltac:(lia)) as (Hi0 & Hi1 & Hi2).
  destruct (Htr j ltac:(lia)) as (Hj0 & Hj1 & Hj2).
  assert (Z.of_nat i + 1 <= Z.of_nat j) as Hlt by lia.
  assert (Z.of_nat i * a + a <= Z.of_nat j * a) by nia.
  nia.
Qed.

Lemma truncated_spacing (a b : Z) (ids : list Z) i :
  0 <= a -> 0 < b ->
  (forall i, (i < length ids)%nat ->
     truncated a b (Z.of_nat i) (nth i ids 0)) ->
  (S i < length ids)%nat ->
  a - b <= b * (nth (S i) ids 0 - nth i ids 0) <= a + b.
Proof.
  intros Ha Hb Htr Hi.
  destruct (Htr i ltac:(lia)) as (Hi0 & Hi1 & Hi2).
  destruct (Htr (S i) ltac:(lia)) as (Hj0 & Hj1 & Hj2).
  rewrite Nat2Z.inj_succ in Hj1, Hj2. nia.
Qed.

Lemma truncated_repeats (a b : Z) (ids : list Z) :
  0 <= a -> 0 < b ->
  (forall i, (i < length ids)%nat ->
     truncated a b (Z.of_nat i) (nth i ids 0)) ->
  a < b -> length ids = S (Z.to_nat b) -> ~ List.NoDup ids.
Proof.
  intros Ha Hb Htr Hab Hlen Hnd.
  assert (Hge : forall i, (i < length ids)%nat -> Z.of_nat i <= nth i ids 0).
  { induction i as [|i IH]; intros Hi.
    - destruct (Htr 0%nat Hi) as (H0 & _). lia.
    - specialize (IH ltac:(lia)).
      pose proof (truncated_nondecreasing a b ids i (S i) Ha Hb Htr ltac:(lia)) as Hle.
      assert (nth i ids 0 <> nth (S i) ids 0).
      { intros Heq. apply (proj1 (NoDup_nth ids 0) Hnd) in Heq; lia. }
      lia. }
  specialize (Hge (Z.to_nat b) ltac:(lia)).
  destruct (Htr (Z.to_nat b) ltac:(lia)) as (H0 & H1 & H2).
  rewrite Z2Nat.id in * by lia. nia.
Qed.


Lemma increasing_NoDup (ids : list Z) :
  (forall i j, (i < j < length ids)%nat -> nth i ids 0 < nth j ids 0) ->
  List.NoDup ids.
Proof.
  intros Hinc. apply (NoDup_nth ids 0). intros i j Hi Hj Heq.
  destruct (Nat.lt_trichotomy i j) as [H|[H|H]]; [|exact H|].
  - specialize (Hinc i j ltac:(lia)). lia.
  - specialize (Hinc j i ltac:(lia)). lia.
Qed.


(** *** The claims on the frame index sequence *)

(** C2, counterexample: asked for one frame of a five-frame video, the
    sampler yields the single index 0, so the last index is not [D - 1]. *)
Lemma single_sample_misses_last_frame :
  Sampler.frame_id_list 5 1 = Ok [0] /\ List.last [0] 0 <> 5 - 1.
Proof. split; [reflexivity | discriminate]. Qed.

(** C2, amended: for a video of [D >= 1] frames and [N >= 1] requested
    frames (with [D * N <= 2^50], where binary64 is exact enough), the
    sequence has [N] indices and starts at 0.  For [N = 1] it is [[0]].
    For [N >= 2] it ends at [D - 1] and is evenly spaced up to truncation:
    consecutive indices differ from the exact step [(D-1)/(N-1)] by at
    most one.  When [N <= D] the indices are strictly increasing, hence
    distinct; when [N > D] they are non-decreasing and some index
    repeats. *)
Theorem frame_ids_span_and_order (D N : Z) :
  1 <= D -> 1 <= N -> D * N <= 2 ^ 50 ->
  exists ids, Sampler.frame_id_list D N = Ok ids /\
    length ids = Z.to_nat N /\
    nth 0 ids 0 = 0 /\
    (N = 1 -> ids = [0]) /\
    (2 <= N -> List.last ids 0 = D - 1) /\
    (forall i, (S i < length ids)%nat ->
       (D - 1) - (N - 1)
       <= (N - 1) * (nth (S i) ids 0 - nth i ids 0)
       <= (D - 1) + (N - 1)) /\
    (N <= D ->
       (forall i j, (i < j < length ids)%nat -> nth i ids 0 < nth j ids 0) /\
       List.NoDup ids) /\
    (D < N ->
       (forall i j, (i <= j < length ids)%nat -> nth i ids 0 <= nth j ids 0) /\
       ~ List.NoDup ids).
Proof.
  intros HD HN Hb.
  destruct (frame_id_list_structure D N HD HN Hb)
    as (ids & Heq & Hlen & Hall & H1 & Hlast).
  exists ids. split; [exact Heq|]. split; [exact Hlen|].
  destruct (Z.eq_dec N 1) as [->|HN1].
  - rewrite (H1 eq_refl) in *. cbn [length nth].
    split; [reflexivity|]. split; [reflexivity|]. split; [lia|].
    split; [intros i Hi; cbn in Hi; lia|]. split.
    + intros _. split; [intros i j Hij; cbn in Hij; lia|].
      constructor; [intros []|constructor].
    + lia.
  - assert (Hb0 : 0 < N - 1) by lia.
    assert (Htr : forall i, (i < length ids)%nat ->
                    truncated (D - 1) (N - 1) (Z.of_nat i) (nth i ids 0)).
    { intros i Hi. exact (proj1 (Hall i Hi)). }
    split.
    { apply (truncated_0 (D - 1) (N - 1)); [exact Hb0|].
      apply (Htr 0%nat). lia. }
    split; [lia|]. split; [exact Hlast|]. split.
    { intros i Hi.
      apply (truncated_spacing (D - 1) (N - 1) ids i ltac:(lia) Hb0 Htr Hi). }
    split.
    + intros HND.
      assert (Hinc : forall i j, (i < j < length ids)%nat ->
                       nth i ids 0 < nth j ids 0).
      { intros i j Hij. destruct (Z.eq_dec D N) as [HDN|HDN].
        - rewrite (proj2 (proj2 (Hall i ltac:(lia))) HDN).
          rewrite (proj2 (proj2 (Hall j ltac:(lia))) HDN). lia.
        - apply (truncated_increasing (D - 1) (N - 1) ids i j ltac:(lia) Hb0 Htr); lia. }
      split; [exact Hinc | apply increasing_NoDup, Hinc].
    + intros HDN. split.
      * intros i j Hij.
        apply (truncated_nondecreasing (D - 1) (N - 1) ids i j ltac:(lia) Hb0 Htr).
        exact Hij.
      * apply (truncated_repeats (D - 1) (N - 1) ids ltac:(lia) Hb0 Htr);
          [lia|]. rewrite Hlen. lia.
Qed.

Lemma frame_ids_span_and_order_witness :
  1 <= 300 /\ 1 <= 8 /\ 300 * 8 <= 2 ^ 50 /\
  exists ids, Sampler.frame_id_list 300 8 = Ok ids /\
    length ids = 8%nat /\ nth 0 ids 0 = 0 /\ List.last ids 0 = 299 /\
    List.NoDup ids.
Proof.
  assert (H1 : 1 <= 300) by lia.
  assert (H2 : 1 <= 8) by lia.
  assert (H3 : 300 * 8 <= 2 ^ 50) by lia.
  split; [exact H1|]. split; [exact H2|]. split; [exact H3|].
  destruct (frame_ids_span_and_order 300 8 H1 H2 H3)
    as (ids & Heq & Hlen & Hfirst & _ & Hlast & _ & Hinc & _).
  exists ids. split; [exact Heq|]. split; [exact Hlen|].
  split; [exact Hfirst|]. split; [apply Hlast; lia|].
  apply Hinc. lia.
Defined.

(** Beyond the integers that binary64 represents exactly the size
    condition of the statement above is needed: the last index of a video
    of [2^53 + 2] frames is [2^53], not [2^53 + 1]. *)
Lemma last_index_rounds_on_huge_video :
  Sampler.frame_id_list (2 ^ 53 + 2) 2 = Ok [0; 2 ^ 53].
Proof. vm_compute. reflexivity. Qed.

(** C3, counterexample: for five frames and four samples the code selects
    [0; 1; 2; 4], while rounding the exact points [0, 4/3, 8/3, 4] to the
    nearest integer gives [0; 1; 3; 4]. *)
Lemma truncation_differs_from_nearest :
  Sampler.frame_id_list 5 4 = Ok [0; 1; 2; 4] /\
  Sampler.nearest_indices 5 4 = [0; 1; 3; 4] /\
  nth 2 [0; 1; 2; 4] 0 <> nth 2 (Sampler.nearest_indices 5 4) 0.
Proof. split; [reflexivity|]. split; [reflexivity | discriminate]. Qed.

(** C3, amended: for [D >= 1] and [num_frames = N >= 1] (with
    [D * N <= 2^50]) the selection has exactly [N] indices; they are the
    binary64 points of the linear spacing of [N] points over [[0, D-1]],
    each truncated to the integer not above it (not rounded to the
    nearest): index [i] lies in [[0, D-1]] and is the floor of the exact
    point [i * (D-1) / (N-1)], or one less when that point is an integer;
    an index repeats whenever [D < N]. *)
Theorem frame_ids_truncate_points (D N : Z) :
  1 <= D -> 1 <= N -> D * N <= 2 ^ 50 ->
  exists ids, Sampler.frame_id_list D N = Ok ids /\
    length ids = Z.to_nat N /\
    ids = map Numpy.floor_to_int64 (Numpy.linspace_points 0 (D - 1) N) /\
    (forall i, (i < length ids)%nat ->
       0 <= nth i ids 0 <= D - 1 /\
       (N - 1) * nth i ids 0 <= Z.of_nat i * (D - 1)
         <= (N - 1) * nth i ids 0 + (N - 1)) /\
    (D < N -> ~ List.NoDup ids).
Proof.
  intros HD HN Hb.
  destruct (frame_id_list_structure D N HD HN Hb)
    as (ids & Heq & Hlen & Hall & H1 & Hlast).
  exists ids. split; [exact Heq|]. split; [exact Hlen|]. split.
  { unfold Sampler.frame_id_list, Numpy.linspace_int in Heq.
    replace (N <? 0) with false in Heq by (symmetry; apply Z.ltb_ge; lia).
    injection Heq as <-. reflexivity. }
  split.
  - intros i Hi. destruct (Hall i Hi) as ((H0 & Htr) & Hle & _).
    split; [lia | exact Htr].
  - intros HDN.
    apply (truncated_repeats (D - 1) (N - 1) ids ltac:(lia) ltac:(lia));
      [|lia|rewrite Hlen; lia].
    intros i Hi. exact (proj1 (Hall i Hi)).
Qed.

Lemma frame_ids_truncate_points_witness :
  1 <= 3 /\ 1 <= 8 /\ 3 * 8 <= 2 ^ 50 /\
  exists ids, Sampler.frame_id_list 3 8 = Ok ids /\
    length ids = 8%nat /\ ~ List.NoDup ids.
Proof.
  assert (H1 : 1 <= 3) by lia.
  assert (H2 : 1 <= 8) by lia.
  assert (H3 : 3 * 8 <= 2 ^ 50) by lia.
  split; [exact H1|]. split; [exact H2|]. split; [exact H3|].
  destruct (frame_ids_truncate_points 3 8 H1 H2 H3)
    as (ids & Heq & Hlen & _ & _ & Hrep).
  exists ids. split; [exact Heq|]. split; [exact Hlen|].
  apply Hrep. lia.
Defined.

End SamplerFacts.

(** ** The transforms *)

Module TransformFacts.
Import Float64Spec Float64Facts Tensor Transforms.

(** The long side of the scaled clip: at least the target, and the
    truncation of the exact [224 * L / S]. *)
Lemma scale_long_side (L S : Z) :
  1 <= S -> S <= L -> L < 2 ^ 31 ->
  exists k,
    Float64.floor (Float64.mul (Float64.div (Float64.of_int L) (Float64.of_int S))
                               (Float64.of_int 224)) = Some k /\
    224 <= k /\ S * k <= 224 * L <= S * k + S.
Proof.
  intros HS HSL HL.
  destruct (of_int_correct L ltac:(lia)) as [HnL HvL].
  destruct (of_int_correct S ltac:(lia)) as [HnS HvS].
  destruct (of_int_correct 224 ltac:(lia)) as [Hn224 Hv224].
  destruct (div_correct _ _ _ _ _ _ HnL HnS ltac:(lia) ltac:(lia))
    as (E1 & Hns & Hr1).
  rewrite HvL, HvS in Hr1.
  destruct (mul_correct _ _ _ _ _ _ Hns Hn224 ltac:(lia) ltac:(lia))
    as (E2 & Hny & Hr2).
  rewrite Hv224, Rmult_comm in Hr2.
  destruct Hny as (m & e & Hy & _).
  destruct (scaled_floor_value 224 L S _ _ E1 E2 m e
              ltac:(lia) ltac:(lia) ltac:(lia) ltac:(lia) Hr1 Hr2 Hy)
    as (k & Hfl & Hk0 & Hk1 & Hk2).
  exists k. split; [exact Hfl|]. split; [|lia].
  eapply (scaled_floor_ge 224 L S); try eassumption; try lia. eauto.
Qed.

Lemma short_side_size_cases (h w : Z) :
  1 <= h < 2 ^ 31 -> 1 <= w < 2 ^ 31 ->
  exists new_h new_w,
    short_side_size 224 h w = Ok (new_h, new_w) /\
    (w < h ->
     new_w = 224 /\
     Float64.floor (Float64.mul (Float64.div (Float64.of_int h) (Float64.of_int w))
                                (Float64.of_int 224)) = Some new_h /\
     224 <= new_h /\ w * new_h <= 224 * h <= w * new_h + w) /\
    (h <= w ->
     new_h = 224 /\
     Float64.floor (Float64.mul (Float64.div (Float64.of_int w) (Float64.of_int h))
                                (Float64.of_int 224)) = Some new_w /\
     224 <= new_w /\ h * new_w <= 224 * w <= h * new_w + h).
Proof.
  intros Hh Hw. unfold short_side_size, float_div, int_floor.
  destruct (Z.ltb_spec w h) as [Hlt|Hge].
  - destruct (scale_long_side h w ltac:(lia) ltac:(lia) ltac:(lia))
      as (k & Hfl & Hk).
    replace (w =? 0) with false by (symmetry; apply Z.eqb_neq; lia).
    cbn [rbind]. rewrite Hfl. cbn [rbind].
    exists k, 224. split; [reflexivity|]. split; [|lia].
    intros _. split; [reflexivity|]. split; [reflexivity|exact Hk].
  - destruct (scale_long_side w h ltac:(lia) ltac:(lia) ltac:(lia))
      as (k & Hfl & Hk).
    replace (h =? 0) with false by (symmetry; apply Z.eqb_neq; lia).
    cbn [rbind]. rewrite Hfl. cbn [rbind].
    exists 224, k. split; [reflexivity|]. split; [lia|].
    intros _. split; [reflexivity|]. split; [reflexivity|exact Hk].
Qed.

(** *** Shapes along the pipeline *)

Lemma div_255_shape x y :
  div_255 x = Ok y ->
  shape y = shape x /\ (dtype_of x <> Float64 -> dtype_of y = Float32).
Proof.
  destruct x; cbn; intros [= <-]; split; try reflexivity; congruence.
Qed.

Lemma div_255_total x : exists y, div_255 x = Ok y.
Proof. destruct x; cbn; eauto. Qed.

Lemma normalize_shape mean std x y :
  normalize mean std x = Ok y ->
  shape y = shape x /\ dtype_of y = dtype_of x.
Proof.
  unfold normalize. destruct (negb _); [discriminate|].
  destruct x; cbn; intros [= <-]; split; reflexivity.
Qed.

Lemma normalize_total mean std x :
  fst (fst (fst (shape x))) = 3%nat -> dtype_of x <> UInt8 ->
  exists y, normalize mean std x = Ok y.
Proof.
  intros HC Hd. unfold normalize. rewrite HC. cbn [Nat.eqb negb].
  destruct x; cbn in Hd; try congruence; eauto.
Qed.

Lemma round_half_bounds k : 0 <= k -> 0 <= round_half k <= k.
Proof.
  intros Hk.
  destruct (Z.eq_dec k 0) as [->|Hne]; [change (round_half 0) with 0; lia|].
  unfold round_half.
  destruct (Z.even k); [|destruct (Z.even (k / 2))].
  all: pose proof (Z.div_mod k 2 ltac:(lia));
       pose proof (Z.mod_pos_bound k 2 ltac:(lia)); lia.
Qed.

Lemma center_crop_shape (th tw : nat) x y :
  center_crop (Z.of_nat th) (Z.of_nat tw) x = Ok y ->
  shape y = (fst (fst (fst (shape x))), snd (fst (fst (shape x))), th, tw) /\
  dtype_of y = dtype_of x.
Proof.
  unfold center_crop.
  destruct (shape x) as [[[c t] h] w] eqn:Hs.
  destruct (Z.ltb_spec (Z.of_nat h) (Z.of_nat th)) as [|Hh]; [discriminate|].
  destruct (Z.ltb_spec (Z.of_nat w) (Z.of_nat tw)) as [|Hw]; [discriminate|].
  cbn [orb]. intros [= <-].
  pose proof (round_half_bounds (Z.of_nat h - Z.of_nat th) ltac:(lia)) as Hi.
  pose proof (round_half_bounds (Z.of_nat w - Z.of_nat tw) ltac:(lia)) as Hj.
  rewrite !Nat2Z.id.
  destruct x as [a|a|a]; cbn in Hs |- *; unfold dims in *;
    injection Hs as <- <- <- <-; (split; [|reflexivity]); cbn;
    rewrite !Nat.min_l by lia; reflexivity.
Qed.

Lemma center_crop_total (th tw : Z) x :
  th <= Z.of_nat (snd (fst (shape x))) -> tw <= Z.of_nat (snd (shape x)) ->
  exists y, center_crop th tw x = Ok y.
Proof.
  unfold center_crop. destruct (shape x) as [[[c t] h] w]. cbn [fst snd].
  intros Hh Hw.
  replace (Z.of_nat h <? th) with false by (symmetry; apply Z.ltb_ge; lia).
  replace (Z.of_nat w <? tw) with false by (symmetry; apply Z.ltb_ge; lia).
  cbn [orb]. eauto.
Qed.

Lemma hflip_shape x : shape (hflip x) = shape x /\ dtype_of (hflip x) = dtype_of x.
Proof. destruct x; split; reflexivity. Qed.

Lemma ShortSideScale_shape rt x y :
  interpolate_contract rt ->
  ShortSideScale_forward rt 224 "bilinear" x = Ok y ->
  exists a new_h new_w,
    x = FloatTensor a /\
    short_side_size 224 (Z.of_nat (dim2 a)) (Z.of_nat (dim3 a))
      = Ok (new_h, new_w) /\
    shape y = (dim0 a, dim1 a, Z.to_nat new_h, Z.to_nat new_w) /\
    dtype_of y = Float32.
Proof.
  intros Hc. unfold ShortSideScale_forward.
  destruct x as [a|a|a]; try discriminate.
  destruct (short_side_size 224 _ _) as [[nh nw]|e] eqn:Hs; [|discriminate].
  cbn [rbind].
  destruct (interpolate rt a (nh, nw) "bilinear" false) as [b|e] eqn:Hi;
    [|discriminate].
  cbn [rbind]. intros [= <-].
  exists a, nh, nw. split; [reflexivity|]. split; [exact Hs|].
  split; [|reflexivity]. cbn [shape].
  exact (proj1 (Hc a nh nw) b Hi).
Qed.

(** [Compose] on the pipeline: the four deterministic steps, then one draw
    that decides the flip. *)
Lemma Compose_pipeline rt x w :
  Compose rt pipeline x w =
  match before_flip rt x with
  | Ok y =>
      (Ok (if Float64.ltb (random_random rt (drawn w)) Float64.half
           then hflip y else y),
       {| drawn := S (drawn w); trace := trace w |})
  | Raise e => (Raise e, w)
  end.
Proof.
  unfold pipeline, before_flip. cbn [Compose apply]. unfold bind, lift.
  destruct (div_255 x) as [x1|e]; [|reflexivity]. cbn [rbind].
  destruct (normalize _ _ x1) as [x2|e]; [|reflexivity]. cbn [rbind].
  destruct (ShortSideScale_forward rt 224 "bilinear" x2) as [x3|e];
    [|reflexivity]. cbn [rbind].
  destruct (center_crop 224 224 x3) as [x4|e]; [|reflexivity].
  unfold random_hflip, bind, random, ret.
  destruct (Float64.ltb _ _); reflexivity.
Qed.

Lemma before_flip_shape rt x y :
  interpolate_contract rt ->
  before_flip rt x = Ok y ->
  shape y = (fst (fst (fst (shape x))), snd (fst (fst (shape x))), 224, 224)%nat.
Proof.
  intros Hc. unfold before_flip.
  destruct (div_255 x) as [x1|e] eqn:H1; [|discriminate]. cbn [rbind].
  destruct (normalize _ _ x1) as [x2|e] eqn:H2; [|discriminate]. cbn [rbind].
  destruct (ShortSideScale_forward rt 224 "bilinear" x2) as [x3|e] eqn:H3;
    [|discriminate]. cbn [rbind].
  intros H4.
  apply div_255_shape in H1. apply normalize_shape in H2.
  destruct (ShortSideScale_shape _ _ _ Hc H3) as (a & nh & nw & -> & _ & Hs3 & _).
  apply (center_crop_shape 224 224) in H4. destruct H4 as [H4 _].
  rewrite H4, Hs3. cbn [fst snd].
  destruct H1 as [H1 _]. destruct H2 as [H2 _].
  rewrite <- H1, <- H2. reflexivity.
Qed.

Lemma before_flip_total rt x (T H W : nat) :
  interpolate_contract rt ->
  shape x = (3, T, H, W)%nat -> dtype_of x <> Float64 ->
  (1 <= T)%nat -> 1 <= Z.of_nat H < 2 ^ 31 -> 1 <= Z.of_nat W < 2 ^ 31 ->
  exists y, before_flip rt x = Ok y.
Proof.
  intros Hc Hs Hd HT HH HW. unfold before_flip.
  destruct (div_255_total x) as (x1 & H1). rewrite H1. cbn [rbind].
  destruct (div_255_shape _ _ H1) as [Hs1 Hd1]. specialize (Hd1 Hd).
  destruct (normalize_total OPENAI_DATASET_MEAN OPENAI_DATASET_STD x1)
    as (x2 & H2).
  { rewrite Hs1, Hs. reflexivity. }
  { rewrite Hd1. discriminate. }
  rewrite H2. cbn [rbind].
  destruct (normalize_shape _ _ _ _ H2) as [Hs2 Hd2].
  rewrite Hs1, Hs in Hs2. rewrite Hd1 in Hd2.
  destruct x2 as [a|a|a]; try discriminate. cbn [shape] in Hs2.
  unfold dims in Hs2. injection Hs2 as H0a H1a H2a H3a.
  unfold ShortSideScale_forward. rewrite H2a, H3a.
  destruct (short_side_size_cases (Z.of_nat H) (Z.of_nat W) HH HW)
    as (nh & nw & Hsz & Hc1 & Hc2).
  rewrite Hsz. cbn [rbind].
  assert (Hn : 224 <= nh /\ 224 <= nw).
  { destruct (Z_lt_le_dec (Z.of_nat W) (Z.of_nat H)) as [Hlt|Hle].
    - destruct (Hc1 Hlt) as (-> & _ & Hk & _). lia.
    - destruct (Hc2 Hle) as (-> & _ & Hk & _). lia. }
  destruct (proj2 (Hc a nh nw)) as (b & Hb); try lia.
  rewrite Hb. cbn [rbind].
  pose proof (proj1 (Hc a nh nw) b Hb) as Hdb.
  apply center_crop_total; cbn [shape]; rewrite Hdb; cbn [fst snd]; lia.
Qed.


Lemma reference_contract : interpolate_contract Example.rt.
Proof.
  intros x nh nw. cbn [interpolate Example.rt]. unfold Reference.bilinear.
  cbn [String.eqb Ascii.eqb Bool.eqb negb orb].
  destruct (Z.leb_spec nh 0) as [Hh|Hh]; cbn [orb].
  { split; [discriminate | intros; lia]. }
  destruct (Z.leb_spec nw 0) as [Hw|Hw]; cbn [orb].
  { split; [discriminate | intros; lia]. }
  destruct (Nat.eqb_spec (dim1 x) 0) as [H1|H1]; cbn [orb].
  { split; [discriminate | intros; lia]. }
  destruct (Nat.eqb_spec (dim2 x) 0) as [H2|H2]; cbn [orb].
  { split; [discriminate | intros; lia]. }
  destruct (Nat.eqb_spec (dim3 x) 0) as [H3|H3]; cbn [orb].
  { split; [discriminate | intros; lia]. }
  split; [intros y [= <-]; reflexivity | intros; eauto].
Qed.

(** *** The claims on the transforms *)

(** C8: on a float32 clip of shape [(C, T, H, W)] with positive sizes
    below [2^31], [ShortSideScale(224)] asks the interpolation for the size
    [(new_h, new_w)] where, if [W < H], [new_w = 224] and
    [new_h = floor (H / W * 224)], and otherwise [new_h = 224] and
    [new_w = floor (W / H * 224)], the quotient and the product being those
    of Python floats.  So the short side is 224, and the long side is within
    one of [224] times the exact aspect ratio: the ratio is preserved up to
    rounding. *)
Theorem ShortSideScale_size (rt : runtime) (a : array spec_float) :
  interpolate_contract rt ->
  (1 <= dim1 a)%nat ->
  1 <= Z.of_nat (dim2 a) < 2 ^ 31 -> 1 <= Z.of_nat (dim3 a) < 2 ^ 31 ->
  let H := Z.of_nat (dim2 a) in
  let W := Z.of_nat (dim3 a) in
  exists y new_h new_w,
    ShortSideScale_forward rt 224 "bilinear" (FloatTensor a) = Ok y /\
    shape y = (dim0 a, dim1 a, Z.to_nat new_h, Z.to_nat new_w) /\
    (W < H ->
       new_w = 224 /\
       Float64.floor
         (Float64.mul (Float64.div (Float64.of_int H) (Float64.of_int W))
                      (Float64.of_int 224)) = Some new_h /\
       W * new_h <= 224 * H <= W * new_h + W) /\
    (H <= W ->
       new_h = 224 /\
       Float64.floor
         (Float64.mul (Float64.div (Float64.of_int W) (Float64.of_int H))
                      (Float64.of_int 224)) = Some new_w /\
       H * new_w <= 224 * W <= H * new_w + H) /\
    Z.min new_h new_w = 224.
Proof.
  intros Hc HT HH HW H W.
  destruct (short_side_size_cases H W HH HW) as (nh & nw & Hsz & Hc1 & Hc2).
  assert (Hn : 224 <= nh /\ 224 <= nw /\ Z.min nh nw = 224).
  { destruct (Z_lt_le_dec W H) as [Hlt|Hle].
    - destruct (Hc1 Hlt) as (-> & _ & Hk & _). lia.
    - destruct (Hc2 Hle) as (-> & _ & Hk & _). lia. }
  destruct (proj2 (Hc a nh nw)) as (b & Hb); try lia.
  exists (FloatTensor b), nh, nw.
  split.
  { unfold ShortSideScale_forward. fold H W. rewrite Hsz. cbn [rbind].
    rewrite Hb. reflexivity. }
  split; [exact (proj1 (Hc a nh nw) b Hb)|].
  split; [intros Hlt; destruct (Hc1 Hlt) as (? & ? & ? & ?); auto|].
  split; [intros Hle; destruct (Hc2 Hle) as (? & ? & ? & ?); auto|].
  apply Hn.
Qed.

Lemma ShortSideScale_size_witness :
  exists y,
    ShortSideScale_forward Example.rt 224 "bilinear"
      (FloatTensor (Build_array 3 1 360 640 (fun _ _ _ _ => Float32.zero)))
    = Ok y /\
    shape y = (3, 1, 224, 398)%nat.
Proof.
  destruct (ShortSideScale_size Example.rt
              (Build_array 3 1 360 640 (fun _ _ _ _ => Float32.zero))
              reference_contract)
    as (y & nh & nw & Hy & Hs & _ & Hle & _); cbn [dim1 dim2 dim3]; try lia.
  exists y. split; [exact Hy|].
  cbn [dim0 dim1 dim2 dim3] in Hle, Hs.
  destruct (Hle ltac:(lia)) as (-> & Hfl & _).
  vm_compute in Hfl. injection Hfl as <-. exact Hs.
Defined.

(** C7: whatever the resolution and the aspect ratio of the input clip of
    shape [(C, T, H, W)] with [H, W >= 1], every output of the pipeline has
    shape [(C, T, 224, 224)]; and there is an output for every uint8 or
    float32 clip with three channels, at least one frame and sides below
    [2^31]. *)
Theorem pipeline_output_224 (rt : runtime) (x : tensor) (C T H W : nat) :
  interpolate_contract rt ->
  shape x = (C, T, H, W) -> (1 <= H)%nat -> (1 <= W)%nat ->
  (forall w y w',
     Compose rt pipeline x w = (Ok y, w') -> shape y = (C, T, 224, 224)%nat) /\
  (C = 3%nat -> (1 <= T)%nat -> Z.of_nat H < 2 ^ 31 -> Z.of_nat W < 2 ^ 31 ->
   dtype_of x <> Float64 ->
   forall w, exists y w',
     Compose rt pipeline x w = (Ok y, w') /\ shape y = (3, T, 224, 224)%nat).
Proof.
  intros Hc Hs HH HW.
  assert (Hpart : forall w y w',
            Compose rt pipeline x w = (Ok y, w') ->
            shape y = (C, T, 224, 224)%nat).
  { intros w y w'. rewrite Compose_pipeline.
    destruct (before_flip rt x) as [z|e] eqn:Hz; [|discriminate].
    intros [= <- _].
    pose proof (before_flip_shape rt x z Hc Hz) as Hsz.
    rewrite Hs in Hsz. cbn [fst snd] in Hsz.
    destruct (Float64.ltb _ _); [|exact Hsz].
    rewrite (proj1 (hflip_shape z)). exact Hsz. }
  split; [exact Hpart|].
  intros -> HT HH31 HW31 Hd w.
  destruct (before_flip_total rt x T H W Hc Hs Hd HT ltac:(lia) ltac:(lia))
    as (z & Hz).
  pose proof (Compose_pipeline rt x w) as Hrun. rewrite Hz in Hrun.
  eexists. eexists. split; [exact Hrun|].
  eapply Hpart. exact Hrun.
Qed.

Lemma pipeline_output_224_witness :
  shape Example.video = (3, 1, 2, 3)%nat /\
  exists y w',
    Compose Example.rt pipeline Example.video Example.start = (Ok y, w') /\
    shape y = (3, 1, 224, 224)%nat.
Proof.
  split; [reflexivity|].
  destruct (pipeline_output_224 Example.rt Example.video 3 1 2 3
              reference_contract eq_refl ltac:(lia) ltac:(lia))
    as [_ Htot].
  exact (Htot eq_refl ltac:(lia) ltac:(lia) ltac:(lia) ltac:(discriminate)
              Example.start).
Defined.

(** C4, counterexample: two successive applications of the pipeline to the
    same clip.  The first draws 0.25 and flips, the second draws 0.75 and
    does not: the first elements of the two outputs differ. *)
Lemma two_runs_differ :
  let run := Compose Example.rt pipeline Example.video in
  Example.corner (fst (run Example.start))
    = Some (S754_finite true 11263496 (-25)) /\
  Example.corner (fst (run (snd (run Example.start))))
    = Some (S754_finite true 15007253 (-23)).
Proof. split; vm_compute; reflexivity. Qed.

(** C4, amended: the pipeline is deterministic up to its last step, the
    random horizontal flip.  For every input there is one outcome of the
    four steps before the flip, an error or a tensor [y]; an application
    fails with that error, or returns [y] flipped along the last axis when
    the number it draws is below 0.5 and [y] itself otherwise.  Two
    applications whose draws fall on the same side of 0.5 produce the same
    output. *)
Theorem pipeline_deterministic_up_to_flip (rt : runtime) (x : tensor) :
  exists before : result tensor,
    (forall w,
       fst (Compose rt pipeline x w) =
       match before with
       | Ok y =>
           Ok (if Float64.ltb (random_random rt (drawn w)) Float64.half
               then hflip y else y)
       | Raise e => Raise e
       end) /\
    (forall w1 w2,
       Float64.ltb (random_random rt (drawn w1)) Float64.half
       = Float64.ltb (random_random rt (drawn w2)) Float64.half ->
       fst (Compose rt pipeline x w1) = fst (Compose rt pipeline x w2)).
Proof.
  exists (before_flip rt x).
  assert (Hrun : forall w,
            fst (Compose rt pipeline x w) =
            match before_flip rt x with
            | Ok y =>
                Ok (if Float64.ltb (random_random rt (drawn w)) Float64.half
                    then hflip y else y)
            | Raise e => Raise e
            end).
  { intros w. rewrite Compose_pipeline.
    destruct (before_flip rt x); reflexivity. }
  split; [exact Hrun|].
  intros w1 w2 Heq. rewrite !Hrun, Heq. reflexivity.
Qed.

End TransformFacts.

(** ** The processor *)

Module ProcessorFacts.
Import Tensor Transforms Processor TransformFacts.

Lemma is_None_true v : is_None v = true <-> v = PNone.
Proof. destruct v; cbn; split; congruence. Qed.

Lemma is_None_false v : is_None v = false <-> v <> PNone.
Proof. destruct v; cbn; split; congruence. Qed.

(** *** Which exceptions a run can end with *)

Section Avoids.
Variable E : exn.

Lemma bind_avoids {A B : Type} (m : M A) (k : A -> M B) w :
  raised (fst (m w)) <> Some E ->
  (forall a w', raised (fst (k a w')) <> Some E) ->
  raised (fst (bind m k w)) <> Some E.
Proof.
  intros Hm Hk. unfold bind. destruct (m w) as [[a|e] w']; cbn in *.
  - apply Hk.
  - exact Hm.
Qed.

Lemma for_each_avoids {A B : Type} (f : A -> M B) (xs : list A) :
  (forall x w, raised (fst (f x w)) <> Some E) ->
  forall w, raised (fst (for_each f xs w)) <> Some E.
Proof.
  intros Hf. induction xs as [|x xs IH]; intros w; cbn [for_each].
  - discriminate.
  - apply bind_avoids; [apply Hf|]. intros y w1.
    apply bind_avoids; [apply IH|]. intros ys w2. discriminate.
Qed.

End Avoids.

Lemma kw_extend_avoids named kwargs :
  raised (kw_extend named kwargs) <> Some (ValueError neither_message).
Proof.
  induction named as [|[k v] named IH]; cbn [kw_extend]; [discriminate|].
  destruct (kw_lookup k kwargs); [discriminate|].
  destruct (kw_extend named kwargs); cbn [rbind]; [discriminate | exact IH].
Qed.

Lemma before_flip_avoids rt x :
  (forall a size mode align,
     raised (interpolate rt a size mode align)
     <> Some (ValueError neither_message)) ->
  raised (before_flip rt x) <> Some (ValueError neither_message).
Proof.
  intros Hq. unfold before_flip.
  destruct (div_255_total x) as (x1 & ->). cbn [rbind].
  unfold normalize.
  destruct (negb _); cbn [rbind]; [discriminate|].
  destruct x1 as [a|a|a]; cbn [rbind]; try discriminate.
  unfold ShortSideScale_forward.
  destruct (short_side_size 224 _ _) as [sz|e] eqn:Hsz; cbn [rbind].
  - match goal with
    | |- context [interpolate rt ?a' ?s ?m ?al] =>
        pose proof (Hq a' s m al) as Hi;
        destruct (interpolate rt a' s m al) as [b|e]; cbn [rbind];
        [|exact Hi]
    end.
    unfold center_crop. destruct (shape (FloatTensor b)) as [[[? ?] ?] ?].
    destruct (_ || _); discriminate.
  - unfold short_side_size, float_div, int_floor in Hsz.
    repeat match type of Hsz with
           | context [if ?b then _ else _] => destruct b; cbn [rbind] in Hsz
           | context [match Float64.floor ?f with _ => _ end] =>
               destruct (Float64.floor f) eqn:?; cbn [rbind] in Hsz
           | context [match ?f with S754_nan => _ | _ => _ end] =>
               destruct f; cbn [rbind] in Hsz
           end; try discriminate Hsz; injection Hsz as <-; discriminate.
Qed.


Lemma lift_fst {A : Type} (r : result A) w : fst (lift r w) = r.
Proof. reflexivity. Qed.

Lemma load_avoids rt tok path backend cs ce n w :
  quiet rt tok ->
  raised (fst (Loader.load_and_transform_video rt path pipeline backend cs ce n w))
  <> Some (ValueError neither_message).
Proof.
  intros (_ & Hvr & Hint). unfold Loader.load_and_transform_video.
  destruct (String.eqb backend "decord"); [|discriminate].
  apply bind_avoids; [discriminate|]. intros _ w1.
  apply bind_avoids; [apply Hvr|]. intros vr w2.
  apply bind_avoids.
  { cbn [lift fst]. unfold Sampler.frame_id_list, Numpy.linspace_int.
    destruct (_ <? _); discriminate. }
  intros ids w3.
  apply bind_avoids; [discriminate|]. intros _ w4.
  apply bind_avoids.
  { cbn [lift fst]. unfold Loader.get_batch.
    repeat match goal with
           | |- context [if ?b then _ else _] => destruct b
           end; discriminate. }
  intros data w5. rewrite Compose_pipeline.
  pose proof (before_flip_avoids rt (ByteTensor (permute_3012 data)) Hint) as Hb.
  destruct (before_flip rt _); [discriminate | exact Hb].
Qed.

(** *** The claims on the processor *)

(** C6: [get_video_transform] returns the pipeline exactly when the
    backend is ["decord"].  For every other name it raises a [NameError],
    and so does the construction of a processor; [load_and_transform_video]
    raises a [NameError] too, leaving the state of the run as it was: no
    video has been opened or decoded. *)
Theorem backend_gate (backend : string) :
  (get_video_transform backend = Ok pipeline <-> backend = "decord") /\
  (backend <> "decord" ->
   get_video_transform backend
   = Raise (NameError
       ("video_decode_backend should specify in (pytorchvideo, decord, opencv) but got "
        ++ backend)) /\
   (forall n tok,
      exists msg,
        init {| the_vision_config :=
                  {| video_decode_backend := backend; num_frames := n |} |} tok
        = Raise (NameError msg)) /\
   (forall rt path transform cs ce n w,
      Loader.load_and_transform_video rt path transform backend cs ce n w
      = (Raise (NameError
           "video_decode_backend should specify in (pytorchvideo, decord, opencv)"),
         w))).
Proof.
  unfold get_video_transform, init, Loader.load_and_transform_video.
  cbn [the_vision_config video_decode_backend].
  unfold get_video_transform.
  destruct (String.eqb_spec backend "decord") as [->|Hne].
  - split; [split; reflexivity|]. intros H. congruence.
  - split; [split; [discriminate | intros; congruence]|].
    intros _. split; [reflexivity|]. split; [|reflexivity].
    intros n tok. eexists. reflexivity.
Qed.

Lemma backend_gate_witness :
  "opencv" <> "decord" /\
  get_video_transform "opencv"
  = Raise (NameError
      "video_decode_backend should specify in (pytorchvideo, decord, opencv) but got opencv").
Proof.
  assert (H : "opencv" <> "decord") by discriminate.
  split; [exact H|].
  exact (proj1 (proj2 (backend_gate "opencv") H)).
Defined.

(** C10: with no text and an empty list of images the call passes the
    guard, processes no image and fails in [torch.stack]: it does not raise
    the value error of the guard and returns no mapping. *)
Theorem empty_image_list_fails_in_stack rt self ctx rtn kwargs w :
  call rt self (PList []) PNone ctx rtn kwargs w
  = (Raise (RuntimeError "stack expects a non-empty TensorList"), w) /\
  raised (fst (call rt self (PList []) PNone ctx rtn kwargs w))
  <> Some (ValueError neither_message) /\
  (forall m, fst (call rt self (PList []) PNone ctx rtn kwargs w) <> Ok m).
Proof.
  assert (H : call rt self (PList []) PNone ctx rtn kwargs w
              = (Raise (RuntimeError "stack expects a non-empty TensorList"), w)).
  { destruct w. reflexivity. }
  rewrite H. split; [reflexivity|]. split; [discriminate|]. discriminate.
Qed.

(** C5, evaluation at the failing input: a single positional argument is
    bound to [skip_special_tokens], so the tokenizer is called with no
    positional argument and with that value as [skip_special_tokens];
    forwarding the arguments unchanged would have passed it on as the
    positional argument, with [skip_special_tokens=True]. *)
Theorem decode_rebinds_first_positional cfg transform tok (ids : pyval) :
  let self := {| self_config := cfg; self_transform := transform;
                 self_tokenizer := Some tok |} in
  let c := {| call_args := [ids]; call_kwargs := [] |} in
  batch_decode self c
  = tokenizer_batch_decode tok
      {| call_args := []; call_kwargs := [("skip_special_tokens", ids)] |} /\
  decode self c
  = tokenizer_decode tok
      {| call_args := []; call_kwargs := [("skip_special_tokens", ids)] |} /\
  forwarded c
  = {| call_args := [ids];
       call_kwargs := [("skip_special_tokens", PBool true)] |}.
Proof. repeat split. Qed.

(** Calls that pass keyword arguments only are forwarded as documented. *)
Lemma decode_forwards_keywords cfg transform tok kwargs :
  kw_lookup "skip_special_tokens" kwargs = None ->
  let self := {| self_config := cfg; self_transform := transform;
                 self_tokenizer := Some tok |} in
  let c := {| call_args := []; call_kwargs := kwargs |} in
  batch_decode self c = tokenizer_batch_decode tok (forwarded c) /\
  decode self c = tokenizer_decode tok (forwarded c).
Proof.
  intros Hk. cbn zeta.
  unfold batch_decode, decode, forward_decode, bind_decode_parameters, forwarded.
  cbn [call_args call_kwargs self_tokenizer option_map]. rewrite Hk.
  split; reflexivity.
Qed.


Lemma init_inv cfg tok self :
  init cfg tok = Ok self ->
  self_transform self = pipeline /\ self_tokenizer self = tok /\
  self_config self = cfg /\
  video_decode_backend (the_vision_config cfg) = "decord".
Proof.
  unfold init, get_video_transform.
  destruct (String.eqb_spec (video_decode_backend (the_vision_config cfg))
                            "decord") as [He|He]; [|discriminate].
  cbn [rbind]. intros [= <-]. cbn. auto.
Qed.

(** C9: for a processor built by the constructor, and collaborators that do
    not themselves raise the processor's value error, a call raises that
    error exactly when both [text] and [images] are [None]; it then leaves
    the state of the run as it was: neither the tokenizer nor the image
    processor has been called. *)
Theorem neither_raises_value_error rt cfg tok self images text ctx rtn kwargs w :
  init cfg tok = Ok self -> quiet rt tok ->
  (raised (fst (call rt self images text ctx rtn kwargs w))
   = Some (ValueError neither_message)
   <-> text = PNone /\ images = PNone) /\
  (text = PNone -> images = PNone ->
   call rt self images text ctx rtn kwargs w
   = (Raise (ValueError neither_message), w)).
Proof.
  intros Hinit Hq.
  destruct (init_inv _ _ _ Hinit) as (Htr & Htok & Hcfg & Hbe).
  assert (Hboth : text = PNone -> images = PNone ->
            call rt self images text ctx rtn kwargs w
            = (Raise (ValueError neither_message), w)).
  { intros -> ->. reflexivity. }
  split; [|exact Hboth]. split.
  - intros Hr.
    destruct (is_None text) eqn:Ht; [destruct (is_None images) eqn:Hi|].
    + split; [apply is_None_true, Ht | apply is_None_true, Hi].
    + exfalso. revert Hr. unfold call. rewrite Ht, Hi. cbn [andb negb].
      apply bind_avoids; [discriminate|]. intros enc w1.
      apply bind_avoids.
      * apply bind_avoids.
        -- apply for_each_avoids. intros image w2.
           unfold call_image_processor.
           apply bind_avoids; [discriminate|]. intros _ w3.
           rewrite Htr. apply (load_avoids rt tok), Hq.
        -- intros fs w2. apply bind_avoids; [|discriminate].
           cbn [lift fst]. unfold stack.
           destruct fs; [discriminate|]. destruct (forallb _ _); discriminate.
      * intros [b|] w2; destruct enc; discriminate.
    + exfalso. revert Hr. unfold call. rewrite Ht. cbn [andb negb].
      apply bind_avoids.
      * apply bind_avoids; [apply kw_extend_avoids|]. intros kw w1.
        apply bind_avoids; [|discriminate].
        unfold call_tokenizer. rewrite Htok.
        destruct tok as [t|]; [|discriminate].
        apply bind_avoids; [discriminate|]. intros _ w2.
        apply (proj1 Hq t). reflexivity.
      * intros enc w1. apply bind_avoids.
        -- destruct (negb (is_None images)); [|discriminate].
           apply bind_avoids.
           ++ apply for_each_avoids. intros image w2.
              unfold call_image_processor.
              apply bind_avoids; [discriminate|]. intros _ w3.
              rewrite Htr. apply (load_avoids rt tok), Hq.
           ++ intros fs w2. apply bind_avoids; [|discriminate].
              cbn [lift fst]. unfold stack.
              destruct fs; [discriminate|]. destruct (forallb _ _); discriminate.
        -- intros [b|] w2; destruct enc; discriminate.
  - intros [Ht Hi]. rewrite (Hboth Ht Hi). reflexivity.
Qed.


Lemma example_quiet : quiet Example.rt (Some Example.tok).
Proof.
  split; [|split].
  - intros t c [= <-]. discriminate.
  - intros path. cbn [VideoReader Example.rt].
    destruct path; try discriminate.
    destruct (String.eqb s "clip.mp4"); discriminate.
  - intros x [nh nw] mode align. cbn [interpolate Example.rt].
    unfold Reference.bilinear.
    repeat match goal with
           | |- context [if ?b then _ else _] => destruct b
           end; discriminate.
Qed.

Lemma neither_raises_value_error_witness :
  init Example.cfg (Some Example.tok) = Ok Example.self /\
  call Example.rt Example.self PNone PNone (PInt 77) PNone [] Example.start
  = (Raise (ValueError neither_message), Example.start) /\
  raised (fst (call Example.rt Example.self PNone (PStr "a cat") (PInt 77)
                 PNone [] Example.start))
  <> Some (ValueError neither_message).
Proof.
  assert (Hinit : init Example.cfg (Some Example.tok) = Ok Example.self)
    by reflexivity.
  split; [exact Hinit|]. split.
  - exact (proj2 (neither_raises_value_error Example.rt Example.cfg
                    (Some Example.tok) Example.self PNone PNone (PInt 77) PNone []
                    Example.start Hinit example_quiet) eq_refl eq_refl).
  - intros Hr.
    apply (proj1 (neither_raises_value_error Example.rt Example.cfg
                    (Some Example.tok) Example.self PNone (PStr "a cat")
                    (PInt 77) PNone [] Example.start Hinit example_quiet)) in Hr.
    destruct Hr as [Ht _]. discriminate Ht.
Defined.

(** C1: a call that supplies text, images or both returns, once the
    collaborators have returned: with only text, the tokenizer's encoding
    itself, which holds a pixel key only if the tokenizer put one there;
    with only images, the mapping whose single key ["pixel_values"] holds
    the stacked batch; with both, the tokenizer's encoding with the batch
    stored under ["pixel_values"], its other keys unchanged.  The tokenizer
    is called first, then the images are processed in order. *)
Theorem call_result_mapping rt self images text ctx rtn kwargs w tok kw :
  let c := {| call_args := [text]; call_kwargs := kw |} in
  let w_tok := {| drawn := drawn w; trace := trace w ++ [CalledTokenizer c] |} in
  (text <> PNone -> images = PNone ->
   self_tokenizer self = Some tok -> tokenizer_kwargs ctx rtn kwargs = Ok kw ->
   forall enc, tokenize tok c = Ok enc ->
     call rt self images text ctx rtn kwargs w = (Ok enc, w_tok) /\
     (enc !! "pixel_values" = None ->
      forall m, fst (call rt self images text ctx rtn kwargs w) = Ok m ->
                m !! "pixel_values" = None)) /\
  (text = PNone -> images <> PNone ->
   forall fs w' batch,
     for_each (call_image_processor rt self) (make_list_of_images images) w
     = (Ok fs, w') ->
     stack fs = Ok batch ->
     call rt self images text ctx rtn kwargs w
     = (Ok {[ "pixel_values" := PixelBatch batch ]}, w')) /\
  (text <> PNone -> images <> PNone ->
   self_tokenizer self = Some tok -> tokenizer_kwargs ctx rtn kwargs = Ok kw ->
   forall enc fs w' batch,
     tokenize tok c = Ok enc ->
     for_each (call_image_processor rt self) (make_list_of_images images) w_tok
     = (Ok fs, w') ->
     stack fs = Ok batch ->
     call rt self images text ctx rtn kwargs w
     = (Ok (<["pixel_values" := PixelBatch batch]> enc), w') /\
     (<["pixel_values" := PixelBatch batch]> enc) !! "pixel_values"
     = Some (PixelBatch batch) /\
     (forall k, k <> "pixel_values" ->
        (<["pixel_values" := PixelBatch batch]> enc) !! k = enc !! k)).
Proof.
  intros c w_tok. split; [|split].
  - intros Ht -> Htok Hkw enc Henc.
    assert (H : call rt self PNone text ctx rtn kwargs w = (Ok enc, w_tok)).
    { unfold call. apply is_None_false in Ht. rewrite Ht. cbn [andb negb is_None].
      unfold bind, lift, ret, call_tokenizer. rewrite Hkw, Htok.
      unfold bind, log, lift. fold c. rewrite Henc. reflexivity. }
    split; [exact H|]. intros Hpx m. rewrite H. intros [= <-]. exact Hpx.
  - intros -> Hi fs w' batch Hfs Hst.
    unfold call. apply is_None_false in Hi. rewrite Hi. cbn [andb negb is_None].
    unfold bind at 1. unfold ret at 1. unfold bind at 1. unfold bind at 1.
    rewrite Hfs. unfold bind, lift, ret. rewrite Hst. reflexivity.
  - intros Ht Hi Htok Hkw enc fs w' batch Henc Hfs Hst.
    split; [|split].
    + unfold call. apply is_None_false in Ht. apply is_None_false in Hi.
      rewrite Ht, Hi. cbn [andb negb].
      unfold bind at 1. unfold bind at 1. unfold lift at 1. rewrite Hkw.
      unfold bind at 1. unfold call_tokenizer. rewrite Htok.
      unfold bind at 1. unfold log at 1. unfold lift at 1. fold c. rewrite Henc.
      unfold ret at 1. unfold bind at 1. unfold bind at 1. fold w_tok.
      rewrite Hfs. unfold bind, lift, ret. rewrite Hst. reflexivity.
    + apply lookup_insert_eq.
    + intros k Hk. apply lookup_insert_ne. congruence.
Qed.


Lemma call_result_mapping_witness :
  PStr "a cat" <> PNone /\ PStr "clip.mp4" <> PNone /\
  exists batch w',
    call Example.rt Example.self (PStr "clip.mp4") (PStr "a cat") (PInt 77)
         PNone [] Example.start
    = (Ok (<["pixel_values" := PixelBatch batch]> Example.encoding), w').
Proof.
  assert (Ht : PStr "a cat" <> PNone) by discriminate.
  assert (Hi : PStr "clip.mp4" <> PNone) by discriminate.
  split; [exact Ht|]. split; [exact Hi|].
  eexists. eexists.
  refine (proj1 (proj2 (proj2 (call_result_mapping Example.rt Example.self
            (PStr "clip.mp4") (PStr "a cat") (PInt 77) PNone [] Example.start
            Example.tok _)) Ht Hi eq_refl eq_refl Example.encoding _ _ _
            eq_refl _ _)).
  - reflexivity.
  - reflexivity.
Defined.

End ProcessorFacts.

(* ===================================================================== *)
(** * Part III: further properties *)
(* ===================================================================== *)

(** ** Exact quotients and products

    When the quotient of two integers is an integer, binary64 computes it
    without error, and so the product of two integers below [2^53]. *)

Module ExactFacts.
Import Float64 Float64Spec Float64Facts.

Local Open Scope R_scope.

Lemma rounded_int E x v n :
  rounded E x v -> x = IZR n -> (n < 2 ^ 53)%Z -> v = IZR n.
Proof.
  intros Hr -> Hn.
  assert (H : IZR n < IZR (2 ^ 53)) by (apply IZR_lt; exact Hn).
  pose proof (rounded_ge_int _ _ _ n Hr H ltac:(lra)).
  pose proof (rounded_le_int _ _ _ n Hr H ltac:(lra)). lra.
Qed.

Lemma floor_of_int_value f n :
  (exists m e, f = S754_finite false m e) -> SF2R f = IZR n ->
  floor f = Some n.
Proof.
  intros (m & e & ->) Hv. cbn [SF2R] in Hv.
  destruct (floor_correct m e) as (k & Hfl & Hk). rewrite Hv in Hk.
  destruct Hk as [Hk1 Hk2]. apply le_IZR in Hk1.
  rewrite <- (plus_IZR k 1) in Hk2. apply lt_IZR in Hk2.
  rewrite Hfl. f_equal. lia.
Qed.

Lemma div_exact a b q :
  (0 < b < 2 ^ 53)%Z -> (0 < q)%Z -> a = (q * b)%Z -> (a < 2 ^ 53)%Z ->
  normal_pos (-106) 2 (div (of_int a) (of_int b)) /\
  SF2R (div (of_int a) (of_int b)) = IZR q.
Proof.
  intros Hb Hq Ha Ha53.
  destruct (of_int_correct a ltac:(nia)) as [Hna Hva].
  destruct (of_int_correct b ltac:(lia)) as [Hnb Hvb].
  destruct (div_correct _ _ _ _ _ _ Hna Hnb ltac:(lia) ltac:(lia))
    as (E1 & Hns & Hr1).
  split; [exact Hns|].
  rewrite Hva, Hvb in Hr1.
  apply (rounded_int E1 (IZR a / IZR b)); [exact Hr1| |nia].
  rewrite Ha, mult_IZR. field. apply not_0_IZR. lia.
Qed.

Lemma mul_exact lo hi lo' hi' fx fy x y :
  normal_pos lo hi fx -> normal_pos lo' hi' fy ->
  (-1074 <= lo + lo' + 52)%Z -> (hi + hi' <= 900)%Z ->
  SF2R fx = IZR x -> SF2R fy = IZR y -> (x * y < 2 ^ 53)%Z ->
  (exists m e, mul fx fy = S754_finite false m e) /\
  floor (mul fx fy) = Some (x * y)%Z.
Proof.
  intros Hnx Hny Hlo Hhi Hx Hy Hxy.
  destruct (mul_correct _ _ _ _ _ _ Hnx Hny Hlo Hhi) as (E & Hn & Hr).
  assert (Hfin : exists m e, mul fx fy = S754_finite false m e).
  { destruct Hn as (m & e & -> & _). eauto. }
  split; [exact Hfin|].
  apply floor_of_int_value; [exact Hfin|].
  apply (rounded_int E (SF2R fx * SF2R fy)); [exact Hr| |exact Hxy].
  rewrite Hx, Hy, mult_IZR. reflexivity.
Qed.

(** [floor (a / b * c)] for a quotient [a / b = q] that is an integer. *)
Lemma scaled_exact a b c q :
  (0 < b < 2 ^ 53)%Z -> (0 < q)%Z -> a = (q * b)%Z -> (a < 2 ^ 53)%Z ->
  (0 < c)%Z -> (q * c < 2 ^ 53)%Z ->
  floor (mul (div (of_int a) (of_int b)) (of_int c)) = Some (q * c)%Z.
Proof.
  intros Hb Hq Ha Ha53 Hc Hqc.
  destruct (div_exact a b q Hb Hq Ha Ha53) as [Hns Hs].
  destruct (of_int_correct c ltac:(nia)) as [Hnc Hvc].
  exact (proj2 (mul_exact _ _ _ _ _ _ q c Hns Hnc ltac:(lia) ltac:(lia)
                  Hs Hvc Hqc)).
Qed.

End ExactFacts.

(** ** The frame sampler, continued: exact steps, valid indices, decoding *)

Module LoaderFacts.
Import Float64Spec Float64Facts ExactFacts Sampler SamplerFacts Tensor.

(** One point of the sequence when the step [a / b] is the integer [s]. *)
Lemma exact_point a b i s :
  0 < s -> 0 < b < 2 ^ 53 -> a = s * b -> a < 2 ^ 53 ->
  0 <= i -> i * s < 2 ^ 53 ->
  let step := Float64.div (Float64.of_int a) (Float64.of_int b) in
  Float64.eqb step Float64.zero = false /\
  Numpy.floor_to_int64
    (Float64.add (Float64.mul (Float64.of_int i) step) Float64.zero) = i * s.
Proof.
  intros Hs Hb Ha Ha53 Hi His step.
  destruct (div_exact a b s Hb Hs Ha Ha53) as [Hns Hv].
  fold step in Hns, Hv.
  split.
  { destruct Hns as (m & e & -> & _). reflexivity. }
  destruct (Z.eq_dec i 0) as [->|Hne].
  - destruct Hns as (m & e & -> & _). reflexivity.
  - destruct (of_int_correct i ltac:(nia)) as [Hni Hvi].
    destruct (mul_exact _ _ _ _ _ _ i s Hni Hns ltac:(lia) ltac:(lia)
                Hvi Hv His) as [Hfin Hfl].
    rewrite add_zero_r by (right; exact Hfin).
    apply floor_to_int64_small; [exact Hfl | nia].
Qed.

Lemma length_set_last {A : Type} (y : list A) (v : A) :
  y <> [] -> length (Numpy.set_last y v) = length y.
Proof.
  intros Hy. unfold Numpy.set_last.
  rewrite (app_removelast_last v Hy) at 2.
  rewrite !length_app. reflexivity.
Qed.

Lemma length_linspace_points start stop num :
  length (Numpy.linspace_points start stop num) = Z.to_nat num.
Proof.
  unfold Numpy.linspace_points.
  set (y0 := map (fun i => Float64.of_int (Z.of_nat i)) (seq 0 (Z.to_nat num))).
  assert (H0 : length y0 = Z.to_nat num)
    by (unfold y0; rewrite length_map, length_seq; reflexivity).
  set (y1 := if 0 <? num - 1 then _ else _).
  assert (H1 : length y1 = Z.to_nat num).
  { unfold y1. destruct (0 <? num - 1); [destruct (Float64.eqb _ _)|];
      rewrite length_map; exact H0. }
  destruct (Z.ltb_spec 1 num) as [Hn|Hn].
  - rewrite length_set_last; [rewrite length_map; exact H1|].
    intros Hnil. apply (f_equal (@length _)) in Hnil.
    rewrite length_map, H1 in Hnil. cbn in Hnil. lia.
  - rewrite length_map. exact H1.
Qed.

(** The sampler returns as many indices as were asked for, whatever the
    video. *)
Lemma frame_id_list_length D N ids :
  frame_id_list D N = Ok ids -> length ids = Z.to_nat N /\ 0 <= N.
Proof.
  unfold frame_id_list, Numpy.linspace_int.
  destruct (Z.ltb_spec N 0) as [|HN]; [discriminate|].
  intros [= <-]. rewrite length_map, length_linspace_points. split; [reflexivity|lia].
Qed.

Lemma frame_ids_in_range D N :
  1 <= D -> 0 <= N -> D * N <= 2 ^ 50 ->
  exists ids, frame_id_list D N = Ok ids /\ length ids = Z.to_nat N /\
    Forall (fun k => 0 <= k < D) ids.
Proof.
  intros HD HN Hb.
  destruct (Z.eq_dec N 0) as [->|HN0].
  - exists []. split; [reflexivity|]. split; [reflexivity|constructor].
  - destruct (frame_id_list_structure D N HD ltac:(lia) Hb)
      as (ids & Heq & Hlen & Hall & _).
    exists ids. split; [exact Heq|]. split; [exact Hlen|].
    apply (proj2 (List.Forall_nth (fun k => 0 <= k < D) ids)).
    intros i d Hi. rewrite (nth_indep ids d 0 Hi).
    destruct (Hall i Hi) as ((H0 & _) & Hle & _). lia.
Qed.

Lemma existsb_none {A : Type} (P : A -> Prop) (f : A -> bool) (l : list A) :
  Forall P l -> (forall x, P x -> f x = false) -> existsb f l = false.
Proof.
  intros Hl Hf. induction Hl as [|x l Hx _ IH]; [reflexivity|].
  cbn [existsb]. rewrite (Hf x Hx), IH. reflexivity.
Qed.

(** Indices within the video are decoded as they are. *)
Lemma get_batch_in_range r ids :
  Forall (fun k => 0 <= k < Z.of_nat (reader_len r)) ids ->
  Loader.get_batch r ids
  = Ok (Build_array (length ids) (reader_height r) (reader_width r)
          (reader_channels r)
          (fun t h w c => reader_pixel r (Z.to_nat (nth t ids 0)) h w c)).
Proof.
  intros Hin. unfold Loader.get_batch.
  assert (Hm : map (fun i => if i <? 0 then i + Z.of_nat (reader_len r) else i)
                   ids = ids).
  { induction Hin as [|k l Hk _ IH]; [reflexivity|].
    cbn [map]. rewrite IH.
    replace (k <? 0) with false by (symmetry; apply Z.ltb_ge; lia).
    reflexivity. }
  rewrite Hm.
  rewrite (existsb_none _ _ _ Hin)
    by (intros x Hx; apply Z.ltb_ge; lia).
  rewrite (existsb_none _ _ _ Hin)
    by (intros x Hx; apply Z.leb_gt; lia).
  reflexivity.
Qed.

(** A run of the loader on a video that opens, up to the transform. *)
Lemma load_decodes rt path transform cs ce N w r :
  VideoReader rt path = Ok r -> (1 <= reader_len r)%nat -> 0 <= N ->
  Z.of_nat (reader_len r) * N <= 2 ^ 50 ->
  exists ids,
    frame_id_list (Z.of_nat (reader_len r)) N = Ok ids /\
    length ids = Z.to_nat N /\
    Forall (fun k => 0 <= k < Z.of_nat (reader_len r)) ids /\
    Loader.load_and_transform_video rt path transform "decord" cs ce N w
    = Transforms.Compose rt transform
        (ByteTensor
           (permute_3012
              (Build_array (length ids) (reader_height r) (reader_width r)
                 (reader_channels r)
                 (fun t h x c =>
                    reader_pixel r (Z.to_nat (nth t ids 0)) h x c))))
        {| drawn := drawn w;
           trace := (trace w ++ [OpenedVideo path])
                    ++ [DecodedFrames path ids] |}.
Proof.
  intros Hr Hlen HN Hb.
  destruct (frame_ids_in_range (Z.of_nat (reader_len r)) N ltac:(lia) HN Hb)
    as (ids & Heq & Hl & Hin).
  exists ids. split; [exact Heq|]. split; [exact Hl|]. split; [exact Hin|].
  unfold Loader.load_and_transform_video.
  cbn [String.eqb Ascii.eqb Bool.eqb].
  unfold bind, log, lift. rewrite Hr, Heq. cbn [drawn trace].
  rewrite (get_batch_in_range r ids Hin). reflexivity.
Qed.

(** *** Properties of the sampler and of the loader *)

(** X1: when the step [(D-1)/(N-1)] between sample points is an integer
    [s], in particular when as many frames are asked for as the video has,
    the indices are exactly [0, s, 2s, ..., D-1]: binary64 introduces no
    error. *)
Theorem frame_ids_exact_on_integral_step (D N s : Z) :
  2 <= N < 2 ^ 53 -> 0 <= s -> D - 1 = s * (N - 1) -> D <= 2 ^ 53 ->
  frame_id_list D N
  = Ok (map (fun i => Z.of_nat i * s) (seq 0 (Z.to_nat N))).
Proof.
  intros HN Hs HD HD53.
  set (n := Z.to_nat (N - 2)).
  set (a := D - 1) in *. set (b := N - 1) in *.
  assert (Hb : b = Z.of_nat (S n)) by (unfold b, n; lia).
  unfold frame_id_list, Numpy.linspace_int, Numpy.linspace_points.
  fold a. fold b.
  replace (N <? 0) with false by (symmetry; apply Z.ltb_ge; lia).
  replace (0 <? b) with true by (symmetry; apply Z.ltb_lt; lia).
  replace (1 <? N) with true by (symmetry; apply Z.ltb_lt; lia).
  replace (Z.to_nat N) with (S (S n)) by (unfold n; lia).
  rewrite sub_zero_r by lia.
  change (Float64.of_int 0) with Float64.zero.
  assert (Hrhs : map (fun i => Z.of_nat i * s) (seq 0 (S (S n)))
                 = map (fun i => Z.of_nat i * s) (seq 0 (S n))
                   ++ [Z.of_nat (S n) * s]).
  { rewrite (seq_S (S n)), map_app. reflexivity. }
  rewrite Hrhs. clear Hrhs.
  destruct (Z.eq_dec s 0) as [Hs0|Hs0].
  - assert (Ha0 : a = 0) by lia. rewrite Ha0.
    change (Float64.of_int 0) with Float64.zero.
    destruct (zero_step_point b 0 ltac:(lia) ltac:(lia)) as [-> _].
    rewrite !map_map. unfold Numpy.set_last.
    rewrite removelast_map_seq, map_app, map_map. cbn [map].
    f_equal. f_equal.
    + apply map_ext_in. intros i Hi. apply in_seq in Hi.
      destruct (zero_step_point b (Z.of_nat i) ltac:(lia) ltac:(lia))
        as [_ ->].
      lia.
    + change (Numpy.floor_to_int64 Float64.zero) with 0. f_equal. lia.
  - destruct (exact_point a b 0 s ltac:(lia) ltac:(lia) ltac:(lia)
                ltac:(lia) ltac:(lia) ltac:(lia)) as [-> _].
    rewrite !map_map. unfold Numpy.set_last.
    rewrite removelast_map_seq, map_app, map_map. cbn [map].
    rewrite floor_to_int64_of_int by lia.
    f_equal. f_equal; [|f_equal; lia].
    apply map_ext_in. intros i Hi. apply in_seq in Hi.
    destruct (exact_point a b (Z.of_nat i) s ltac:(lia) ltac:(lia)
                ltac:(lia) ltac:(lia) ltac:(lia) ltac:(nia)) as [_ ->].
    reflexivity.
Qed.

Lemma frame_ids_exact_on_integral_step_witness :
  frame_id_list 29 8 = Ok [0; 4; 8; 12; 16; 20; 24; 28] /\
  frame_id_list 8 8 = Ok [0; 1; 2; 3; 4; 5; 6; 7].
Proof.
  split.
  - exact (frame_ids_exact_on_integral_step 29 8 4 ltac:(lia) ltac:(lia)
             eq_refl ltac:(lia)).
  - exact (frame_ids_exact_on_integral_step 8 8 1 ltac:(lia) ltac:(lia)
             eq_refl ltac:(lia)).
Defined.

(** X2: for a video of at least one frame (and [D * N <= 2^50]) every
    sampled index is a valid frame number, so decoding the batch does not
    fail; the transform is applied to a uint8 tensor of layout
    [(C, N, H, W)] whose frame [t] is frame [ids[t]] of the video, after
    the video has been opened and the frames decoded once. *)
Theorem sampled_frames_reach_transform rt path transform cs ce N w r :
  VideoReader rt path = Ok r -> (1 <= reader_len r)%nat -> 0 <= N ->
  Z.of_nat (reader_len r) * N <= 2 ^ 50 ->
  exists ids data,
    frame_id_list (Z.of_nat (reader_len r)) N = Ok ids /\
    Forall (fun k => 0 <= k < Z.of_nat (reader_len r)) ids /\
    Loader.get_batch r ids = Ok data /\
    dims (permute_3012 data)
    = (reader_channels r, Z.to_nat N, reader_height r, reader_width r) /\
    (forall c t h x,
       elem (permute_3012 data) c t h x
       = reader_pixel r (Z.to_nat (nth t ids 0)) h x c) /\
    Loader.load_and_transform_video rt path transform "decord" cs ce N w
    = Transforms.Compose rt transform (ByteTensor (permute_3012 data))
        {| drawn := drawn w;
           trace := (trace w ++ [OpenedVideo path])
                    ++ [DecodedFrames path ids] |}.
Proof.
  intros Hr Hlen HN Hb.
  destruct (load_decodes rt path transform cs ce N w r Hr Hlen HN Hb)
    as (ids & Heq & Hl & Hin & Hrun).
  exists ids. eexists. split; [exact Heq|]. split; [exact Hin|].
  split; [apply get_batch_in_range, Hin|].
  split; [unfold dims; cbn; rewrite Hl; reflexivity|].
  split; [reflexivity | exact Hrun].
Qed.

Lemma sampled_frames_reach_transform_witness :
  exists y w',
    Loader.load_and_transform_video Example.rt (PStr "clip.mp4") []
      "decord" (PFloat Float64.zero) PNone 4 Example.start = (Ok y, w') /\
    shape y = (3, 4, 2, 3)%nat /\
    trace w' = [OpenedVideo (PStr "clip.mp4");
                DecodedFrames (PStr "clip.mp4") [0; 3; 6; 9]].
Proof.
  destruct (sampled_frames_reach_transform Example.rt (PStr "clip.mp4") []
              (PFloat Float64.zero) PNone 4 Example.start Example.clip
              eq_refl ltac:(cbn; lia) ltac:(lia) ltac:(cbn; lia))
    as (ids & data & Heq & _ & _ & Hd & _ & Hrun).
  vm_compute in Heq. injection Heq as <-.
  eexists. eexists. split; [exact Hrun|]. split; [exact Hd | reflexivity].
Defined.

(** X3: a negative [num_frames] is refused by [np.linspace] with a value
    error, after the video has been opened and before any frame is
    decoded or transformed. *)
Theorem negative_num_frames_rejected rt path transform cs ce N w r :
  VideoReader rt path = Ok r -> N < 0 ->
  exists msg,
    Loader.load_and_transform_video rt path transform "decord" cs ce N w
    = (Raise (ValueError msg),
       {| drawn := drawn w; trace := trace w ++ [OpenedVideo path] |}).
Proof.
  intros Hr HN. eexists.
  unfold Loader.load_and_transform_video.
  cbn [String.eqb Ascii.eqb Bool.eqb].
  unfold bind, log, lift. rewrite Hr.
  unfold frame_id_list, Numpy.linspace_int.
  replace (N <? 0) with true by (symmetry; apply Z.ltb_lt; lia).
  reflexivity.
Qed.

Lemma negative_num_frames_rejected_witness :
  exists msg,
    Loader.load_and_transform_video Example.rt (PStr "clip.mp4")
      Transforms.pipeline "decord" (PFloat Float64.zero) PNone (-1)
      Example.start
    = (Raise (ValueError msg),
       {| drawn := 0; trace := [OpenedVideo (PStr "clip.mp4")] |}).
Proof.
  exact (negative_num_frames_rejected Example.rt (PStr "clip.mp4")
           Transforms.pipeline (PFloat Float64.zero) PNone (-1) Example.start
           Example.clip eq_refl ltac:(lia)).
Defined.

End LoaderFacts.

(** ** The transforms, continued: edge cases of the pipeline *)

Module PipelineFacts.
Import Float64Facts ExactFacts Tensor Transforms TransformFacts.

(** [round_half k] is within one half of [k / 2]. *)
Lemma round_half_centred k : 0 <= k -> -1 <= k - 2 * round_half k <= 1.
Proof.
  intros Hk. unfold round_half.
  pose proof (Z.div_mod k 2 ltac:(lia)) as Hdm.
  pose proof (Z.mod_pos_bound k 2 ltac:(lia)) as Hm.
  destruct (Z.even k) eqn:He.
  - apply Z.even_spec in He. destruct He as [q ->].
    rewrite (Z.mul_comm 2 q), Z.div_mul by lia. lia.
  - rewrite <- Z.negb_odd in He. apply negb_false_iff in He.
    apply Z.odd_spec in He. destruct He as [q ->].
    replace ((2 * q + 1) / 2) with q
      by (apply Z.div_unique with 1; lia).
    destruct (Z.even q); lia.
Qed.

(** A run of the steps before the flip that succeeds was given three
    channels and yields a float32 tensor. *)
Lemma before_flip_inv rt x y :
  before_flip rt x = Ok y ->
  fst (fst (fst (shape x))) = 3%nat /\ dtype_of y = Float32.
Proof.
  unfold before_flip.
  destruct (div_255 x) as [x1|e] eqn:H1; [|discriminate]. cbn [rbind].
  destruct (normalize _ _ x1) as [x2|e] eqn:H2; [|discriminate]. cbn [rbind].
  destruct (ShortSideScale_forward rt 224 "bilinear" x2) as [x3|e] eqn:H3;
    [|discriminate]. cbn [rbind].
  intros H4. split.
  - destruct (div_255_shape _ _ H1) as [Hs1 _]. rewrite <- Hs1.
    unfold normalize in H2.
    destruct (Nat.eqb_spec (fst (fst (fst (shape x1)))) 3) as [He|He];
      [exact He | discriminate].
  - destruct (center_crop_shape 224 224 _ _ H4) as [_ ->].
    unfold ShortSideScale_forward in H3.
    destruct x2 as [a|a|a]; try discriminate.
    destruct (short_side_size _ _ _); [|discriminate]. cbn [rbind] in H3.
    destruct (interpolate rt a _ _ _); [|discriminate].
    injection H3 as <-. reflexivity.
Qed.

(** What a successful application of the pipeline leaves behind. *)
Lemma pipeline_success rt x w y w' :
  interpolate_contract rt ->
  Compose rt pipeline x w = (Ok y, w') ->
  shape y = (3, snd (fst (fst (shape x))), 224, 224)%nat /\
  dtype_of y = Float32 /\
  drawn w' = S (drawn w) /\ trace w' = trace w.
Proof.
  intros Hc. rewrite Compose_pipeline.
  destruct (before_flip rt x) as [z|e] eqn:Hz; [|discriminate].
  intros [= <- <-].
  pose proof (before_flip_shape rt x z Hc Hz) as Hs.
  destruct (before_flip_inv rt x z Hz) as [H3 Hd].
  rewrite H3 in Hs.
  destruct (Float64.ltb _ _).
  - destruct (hflip_shape z) as [-> ->]. auto.
  - auto.
Qed.

(** No transform writes to the trace of collaborator calls. *)
Lemma Compose_trace rt ts : forall x w,
  trace (snd (Compose rt ts x w)) = trace w.
Proof.
  induction ts as [|t ts IH]; intros x w; [reflexivity|].
  cbn [Compose]. unfold bind.
  destruct (apply rt t x w) as [[y|e] w1] eqn:Ha.
  - rewrite IH.
    destruct t; cbn [apply] in Ha; unfold lift, random_hflip, bind, random,
      ret in Ha; try (injection Ha as _ <-; reflexivity).
    destruct (Float64.ltb _ _); injection Ha as _ <-; reflexivity.
  - cbn [snd].
    destruct t; cbn [apply] in Ha; unfold lift, random_hflip, bind, random,
      ret in Ha; try (injection Ha as _ <-; reflexivity).
    destruct (Float64.ltb _ _); discriminate.
Qed.

(** *** Properties of the transforms *)

(** X4: on a clip whose frames have no rows or no columns,
    [ShortSideScale] fails with a division by zero in the computation of
    the aspect ratio, before the interpolation is called. *)
Theorem ShortSideScale_rejects_empty_frame rt size interpolation a :
  dim2 a = 0%nat \/ dim3 a = 0%nat ->
  exists msg,
    ShortSideScale_forward rt size interpolation (FloatTensor a)
    = Raise (ZeroDivisionError msg).
Proof.
  intros H0. eexists.
  unfold ShortSideScale_forward, short_side_size, float_div.
  destruct (Z.ltb_spec (Z.of_nat (dim3 a)) (Z.of_nat (dim2 a))) as [Hlt|Hge].
  - replace (Z.of_nat (dim3 a) =? 0) with true
      by (symmetry; apply Z.eqb_eq; lia).
    reflexivity.
  - replace (Z.of_nat (dim2 a) =? 0) with true
      by (symmetry; apply Z.eqb_eq; lia).
    reflexivity.
Qed.

Lemma ShortSideScale_rejects_empty_frame_witness :
  exists msg,
    ShortSideScale_forward Example.rt 224 "bilinear"
      (FloatTensor (Build_array 3 8 0 640 (fun _ _ _ _ => Float32.zero)))
    = Raise (ZeroDivisionError msg).
Proof.
  apply (ShortSideScale_rejects_empty_frame Example.rt 224 "bilinear"
           (Build_array 3 8 0 640 (fun _ _ _ _ => Float32.zero))).
  left. reflexivity.
Defined.

(** X5: when the long side is a whole multiple [k] of the short side, the
    size asked of the interpolation is exact: the short side becomes
    [size] and the long side [k * size], for either orientation; a square
    clip is scaled to [size] by [size]. *)
Theorem short_side_size_integral_ratio (size s k : Z) :
  1 <= s -> 1 <= k -> k * s < 2 ^ 53 -> 1 <= size -> k * size < 2 ^ 53 ->
  short_side_size size (k * s) s = Ok (k * size, size) /\
  short_side_size size s (k * s) = Ok (size, k * size).
Proof.
  intros Hs Hk Hks Hsize Hksize.
  assert (Hlong : Float64.floor
            (Float64.mul (Float64.div (Float64.of_int (k * s)) (Float64.of_int s))
                         (Float64.of_int size)) = Some (k * size)).
  { apply scaled_exact; lia. }
  assert (Hsq : k = 1 -> Float64.floor
            (Float64.mul (Float64.div (Float64.of_int s) (Float64.of_int (k * s)))
                         (Float64.of_int size)) = Some size).
  { intros ->. replace (1 * s) with s by lia.
    replace size with (1 * size) at 2 by lia.
    apply scaled_exact; lia. }
  unfold short_side_size, float_div, int_floor. split.
  - destruct (Z.ltb_spec s (k * s)) as [Hlt|Hge].
    + replace (s =? 0) with false by (symmetry; apply Z.eqb_neq; lia).
      cbn [rbind]. rewrite Hlong. reflexivity.
    + assert (k = 1) as Hk1 by nia.
      replace (k * s =? 0) with false by (symmetry; apply Z.eqb_neq; lia).
      cbn [rbind]. rewrite (Hsq Hk1). cbn [rbind]. subst k.
      f_equal. f_equal. lia.
  - replace (k * s <? s) with false by (symmetry; apply Z.ltb_ge; nia).
    replace (s =? 0) with false by (symmetry; apply Z.eqb_neq; lia).
    cbn [rbind]. rewrite Hlong. reflexivity.
Qed.

Lemma short_side_size_integral_ratio_witness :
  short_side_size 224 1280 640 = Ok (448, 224) /\
  short_side_size 224 640 1280 = Ok (224, 448).
Proof.
  exact (short_side_size_integral_ratio 224 640 2 ltac:(lia) ltac:(lia)
           ltac:(lia) ltac:(lia) ltac:(lia)).
Defined.

(** X6: [CenterCropVideo] on a clip at least as large as the crop keeps
    the leading dimensions and cuts the window of the crop size whose
    offsets are such that the margins on either side of it differ by at
    most one row and one column; element [(k, l)] of the result is element
    [(i + k, j + l)] of the clip. *)
Theorem center_crop_is_centred (th tw : Z) (x : tensor) (c t h w : nat) :
  shape x = (c, t, h, w) ->
  0 <= th <= Z.of_nat h -> 0 <= tw <= Z.of_nat w ->
  exists i j : nat,
    center_crop th tw x
    = Ok (rearrange
            (fun A => slice_last2 i (Z.to_nat th) j (Z.to_nat tw)) x) /\
    shape (rearrange
             (fun A => slice_last2 i (Z.to_nat th) j (Z.to_nat tw)) x)
    = (c, t, Z.to_nat th, Z.to_nat tw) /\
    Z.abs ((Z.of_nat h - th - Z.of_nat i) - Z.of_nat i) <= 1 /\
    Z.abs ((Z.of_nat w - tw - Z.of_nat j) - Z.of_nat j) <= 1.
Proof.
  intros Hs Hh Hw.
  pose proof (round_half_bounds (Z.of_nat h - th) ltac:(lia)) as Hi.
  pose proof (round_half_bounds (Z.of_nat w - tw) ltac:(lia)) as Hj.
  pose proof (round_half_centred (Z.of_nat h - th) ltac:(lia)) as Hci.
  pose proof (round_half_centred (Z.of_nat w - tw) ltac:(lia)) as Hcj.
  exists (Z.to_nat (round_half (Z.of_nat h - th))),
         (Z.to_nat (round_half (Z.of_nat w - tw))).
  split; [|split; [|split]].
  - unfold center_crop. rewrite Hs.
    replace (Z.of_nat h <? th) with false by (symmetry; apply Z.ltb_ge; lia).
    replace (Z.of_nat w <? tw) with false by (symmetry; apply Z.ltb_ge; lia).
    reflexivity.
  - destruct x as [a|a|a]; cbn [shape rearrange] in Hs |- *;
      unfold dims in *; cbn [slice_last2 dim0 dim1 dim2 dim3];
      injection Hs as -> -> -> ->;
      rewrite !Nat.min_l by lia; reflexivity.
  - rewrite Z2Nat.id by lia. lia.
  - rewrite Z2Nat.id by lia. lia.
Qed.

Lemma center_crop_is_centred_witness :
  exists i j : nat,
    center_crop 2 2 Example.video
    = Ok (rearrange (fun A => slice_last2 i 2 j 2) Example.video) /\
    Z.abs ((2 - 2 - Z.of_nat i) - Z.of_nat i) <= 1 /\
    Z.abs ((3 - 2 - Z.of_nat j) - Z.of_nat j) <= 1.
Proof.
  destruct (center_crop_is_centred 2 2 Example.video 3 1 2 3 eq_refl
              ltac:(lia) ltac:(lia)) as (i & j & Hc & _ & Hi & Hj).
  exists i, j. split; [exact Hc|]. split; [exact Hi | exact Hj].
Defined.

(** X7: an application of the pipeline that returns has drawn exactly one
    random number, the flip decision for the whole clip; one that fails
    has drawn none.  Neither calls a collaborator that is traced. *)
Theorem pipeline_draws_one_number rt x w :
  match Compose rt pipeline x w with
  | (Ok _, w') => drawn w' = S (drawn w) /\ trace w' = trace w
  | (Raise _, w') => w' = w
  end.
Proof.
  rewrite Compose_pipeline.
  destruct (before_flip rt x); [split|]; reflexivity.
Qed.

(** X8: the pipeline refuses a clip whose number of channels is not 3:
    the normalisation by the three channel means fails with a runtime
    error, and no random number is drawn. *)
Theorem pipeline_rejects_wrong_channels rt x w :
  fst (fst (fst (shape x))) <> 3%nat ->
  exists msg, Compose rt pipeline x w = (Raise (RuntimeError msg), w).
Proof.
  intros HC. rewrite Compose_pipeline. unfold before_flip.
  destruct (div_255_total x) as (x1 & H1). rewrite H1. cbn [rbind].
  destruct (div_255_shape _ _ H1) as [Hs1 _].
  unfold normalize. rewrite Hs1.
  destruct (Nat.eqb_spec (fst (fst (fst (shape x)))) 3) as [He|He];
    [contradiction|].
  cbn [negb rbind]. eexists. reflexivity.
Qed.

Lemma pipeline_rejects_wrong_channels_witness :
  exists msg,
    Compose Example.rt pipeline
      (ByteTensor (Build_array 1 8 360 640 (fun _ _ _ _ => 0)))
      Example.start
    = (Raise (RuntimeError msg), Example.start).
Proof.
  apply (pipeline_rejects_wrong_channels Example.rt
           (ByteTensor (Build_array 1 8 360 640 (fun _ _ _ _ => 0)))
           Example.start).
  cbn. lia.
Defined.

(** X9: [ShortSideScale] asserts that its input is float32 and fails with
    an assertion error on any other dtype, without calling the
    interpolation; so the pipeline fails on a float64 clip of three
    channels, which the division and the normalisation leave float64. *)
Theorem ShortSideScale_requires_float32 rt size interpolation x :
  dtype_of x <> Float32 ->
  ShortSideScale_forward rt size interpolation x = Raise AssertionError /\
  (dtype_of x = Float64 -> fst (fst (fst (shape x))) = 3%nat ->
   forall w, Compose rt pipeline x w = (Raise AssertionError, w)).
Proof.
  intros Hd. split.
  - destruct x; cbn in Hd; try congruence; reflexivity.
  - intros H64 HC w. rewrite Compose_pipeline. unfold before_flip.
    destruct x as [a|a|a]; try discriminate H64.
    cbn [div_255 rbind]. unfold normalize.
    cbn [shape amap dims dim0 dim1 dim2 dim3 fst] in HC |- *.
    rewrite HC. reflexivity.
Qed.

Lemma ShortSideScale_requires_float32_witness :
  ShortSideScale_forward Example.rt 224 "bilinear" Example.video
  = Raise AssertionError /\
  Compose Example.rt pipeline
    (DoubleTensor (Build_array 3 8 360 640 (fun _ _ _ _ => Float64.zero)))
    Example.start
  = (Raise AssertionError, Example.start).
Proof.
  split.
  - apply (ShortSideScale_requires_float32 Example.rt 224 "bilinear"
             Example.video).
    discriminate.
  - apply (ShortSideScale_requires_float32 Example.rt 224 "bilinear"
             (DoubleTensor
                (Build_array 3 8 360 640 (fun _ _ _ _ => Float64.zero)))).
    + discriminate.
    + reflexivity.
    + reflexivity.
Defined.

End PipelineFacts.

(** ** The processor, continued: batches, failures and forwarding *)

Module CallFacts.
Import Tensor Transforms Processor TransformFacts PipelineFacts LoaderFacts
       ProcessorFacts.

Lemma bind_ok {A B : Type} (m : M A) (k : A -> M B) w b w' :
  bind m k w = (Ok b, w') ->
  exists a w1, m w = (Ok a, w1) /\ k a w1 = (Ok b, w').
Proof.
  unfold bind. destruct (m w) as [[a|e] w1]; [|discriminate].
  intros H. exists a, w1. split; [reflexivity | exact H].
Qed.

Lemma get_batch_dims r ids data :
  Loader.get_batch r ids = Ok data ->
  dims data
  = (length ids, reader_height r, reader_width r, reader_channels r).
Proof.
  unfold Loader.get_batch.
  destruct (existsb _ _); [discriminate|].
  destruct (existsb _ _); [discriminate|].
  intros [= <-]. unfold dims. cbn [dim0 dim1 dim2 dim3].
  rewrite length_map. reflexivity.
Qed.

(** What a successful run of the loader with the pipeline returns. *)
Lemma load_success rt path backend cs ce N w y w' :
  interpolate_contract rt ->
  Loader.load_and_transform_video rt path pipeline backend cs ce N w
  = (Ok y, w') ->
  shape y = (3, Z.to_nat N, 224, 224)%nat /\ dtype_of y = Float32 /\
  drawn w' = S (drawn w).
Proof.
  intros Hc. unfold Loader.load_and_transform_video.
  destruct (String.eqb backend "decord"); [|discriminate].
  intros H.
  apply bind_ok in H as ([] & w1 & H1 & H). injection H1 as <-.
  apply bind_ok in H as (r & w2 & H2 & H). injection H2 as _ <-.
  apply bind_ok in H as (ids & w3 & H3 & H). injection H3 as Hids <-.
  apply bind_ok in H as ([] & w4 & H4 & H). injection H4 as <-.
  apply bind_ok in H as (data & w5 & H5 & H). injection H5 as Hd <-.
  destruct (pipeline_success _ _ _ _ _ Hc H) as (Hs & Hdt & Hdr & _).
  split; [|split; [exact Hdt | exact Hdr]].
  rewrite Hs. cbn [shape]. unfold dims.
  cbn [permute_3012 dim0 dim1 dim2 dim3 fst snd].
  pose proof (get_batch_dims _ _ _ Hd) as Hdims. unfold dims in Hdims.
  injection Hdims as -> _ _ _.
  destruct (frame_id_list_length _ _ _ Hids) as [-> _]. reflexivity.
Qed.

Lemma for_each_ok {A B : Type} (P : B -> Prop) (f : A -> M B) (xs : list A) :
  (forall x w y w', f x w = (Ok y, w') -> P y /\ drawn w' = S (drawn w)) ->
  forall w ys w', for_each f xs w = (Ok ys, w') ->
    Forall P ys /\ length ys = length xs /\
    drawn w' = (drawn w + length xs)%nat.
Proof.
  intros Hf. induction xs as [|x xs IH]; intros w ys w'; cbn [for_each].
  - intros [= <- <-]. split; [constructor|]. split; [reflexivity|].
    cbn [length]. lia.
  - intros H.
    apply bind_ok in H as (y & w1 & H1 & H).
    apply bind_ok in H as (ys' & w2 & H2 & H). injection H as <- <-.
    destruct (Hf _ _ _ _ H1) as [Hy Hd1].
    destruct (IH _ _ _ H2) as (Hys & Hl & Hd2).
    split; [constructor; assumption|]. cbn [length].
    split; [congruence | lia].
Qed.

Lemma for_each_total {A B : Type} (Q : B -> Prop) (f : A -> M B)
    (xs : list A) :
  Forall (fun x => forall w, exists y w', f x w = (Ok y, w') /\ Q y) xs ->
  forall w, exists ys w',
    for_each f xs w = (Ok ys, w') /\ Forall Q ys /\ length ys = length xs.
Proof.
  intros Hxs. induction Hxs as [|x xs Hx _ IH]; intros w; cbn [for_each].
  - exists [], w. split; [reflexivity|]. split; [constructor | reflexivity].
  - destruct (Hx w) as (y & w1 & Hy & HQ).
    destruct (IH w1) as (ys & w2 & Hys & HQs & Hl).
    exists (y :: ys), w2. unfold bind, ret. rewrite Hy, Hys.
    split; [reflexivity|]. split; [constructor; assumption|].
    cbn [length]. congruence.
Qed.

Lemma for_each_app_fail {A B : Type} (f : A -> M B) (xs : list A) x after e :
  forall w ys w1 w2,
    for_each f xs w = (Ok ys, w1) -> f x w1 = (Raise e, w2) ->
    for_each f (xs ++ x :: after) w = (Raise e, w2).
Proof.
  induction xs as [|x0 xs IH]; intros w ys w1 w2; cbn [for_each app].
  - intros [= _ <-] Hx. unfold bind. rewrite Hx. reflexivity.
  - intros H Hx.
    apply bind_ok in H as (y & w3 & H1 & H).
    apply bind_ok in H as (ys' & w4 & H2 & H). injection H as _ <-.
    unfold bind at 1. rewrite H1. unfold bind at 1.
    rewrite (IH _ _ _ _ H2 Hx). reflexivity.
Qed.

Lemma shape_eqb_refl s : shape_eqb s s = true.
Proof.
  destruct s as [[[a b] c] d]. cbn. rewrite !Nat.eqb_refl. reflexivity.
Qed.

(** Tensors of one shape stack. *)
Lemma stack_same_shape s ts :
  ts <> [] -> Forall (fun t => shape t = s) ts -> stack ts = Ok ts.
Proof.
  intros Hne Hall. destruct ts as [|t0 rest]; [contradiction|].
  cbn [stack]. inversion Hall as [|? ? H0 Hrest]; subst.
  replace (forallb _ rest) with true; [reflexivity|].
  symmetry. apply forallb_forall. intros t Ht.
  rewrite List.Forall_forall in Hrest. rewrite (Hrest t Ht).
  apply shape_eqb_refl.
Qed.

(** The image part of [call] on a processor made by the constructor. *)
Lemma images_part rt cfg tok self xs w fs w' :
  init cfg tok = Ok self -> interpolate_contract rt ->
  for_each (call_image_processor rt self) xs w = (Ok fs, w') ->
  Forall (fun t =>
            shape t = (3, Z.to_nat (num_frames (the_vision_config cfg)),
                       224, 224)%nat /\ dtype_of t = Float32) fs /\
  length fs = length xs /\ drawn w' = (drawn w + length xs)%nat.
Proof.
  intros Hinit Hc.
  destruct (init_inv _ _ _ Hinit) as (Htr & _ & Hcfg & _).
  apply for_each_ok. intros x w0 y w1 H.
  unfold call_image_processor in H.
  apply bind_ok in H as ([] & w2 & H1 & H). injection H1 as <-.
  rewrite Htr, Hcfg in H.
  destruct (load_success _ _ _ _ _ _ _ _ _ Hc H) as (Hs & Hd & Hdr).
  split; [split; assumption | exact Hdr].
Qed.

(** The steps of [call] when no text is given. *)
Lemma call_images_only rt self images ctx rtn kwargs w :
  images <> PNone ->
  call rt self images PNone ctx rtn kwargs w
  = match for_each (call_image_processor rt self)
            (make_list_of_images images) w with
    | (Ok fs, w') =>
        match stack fs with
        | Ok b => (Ok {[ "pixel_values" := PixelBatch b ]}, w')
        | Raise e => (Raise e, w')
        end
    | (Raise e, w') => (Raise e, w')
    end.
Proof.
  intros Hi. apply is_None_false in Hi. unfold call.
  rewrite Hi. cbn [is_None andb negb].
  unfold bind at 1. unfold ret at 1. unfold bind at 1. unfold bind at 1.
  destruct (for_each _ _ w) as [[fs|e] w']; [|reflexivity].
  unfold bind, lift, ret. destruct (stack fs); reflexivity.
Qed.

(** A call that returns with images given has run the image part. *)
Lemma call_ok_images rt self images text ctx rtn kwargs w m w' :
  images <> PNone ->
  call rt self images text ctx rtn kwargs w = (Ok m, w') ->
  exists w1 fs,
    drawn w1 = drawn w /\
    for_each (call_image_processor rt self) (make_list_of_images images) w1
    = (Ok fs, w') /\
    fs <> [] /\
    m !! "pixel_values" = Some (PixelBatch fs).
Proof.
  intros Hi. pose proof Hi as Hi'. apply is_None_false in Hi'.
  unfold call. rewrite Hi'. rewrite andb_false_r. cbn [negb].
  intros H.
  apply bind_ok in H as (enc & w1 & Henc & H).
  apply bind_ok in H as (feat & w2 & Hfeat & H).
  apply bind_ok in Hfeat as (fs & w3 & Hfs & Hst).
  apply bind_ok in Hst as (b & w4 & Hst & Hret).
  injection Hret as <- <-. injection Hst as Hst <-.
  assert (Hb : b = fs /\ fs <> []).
  { unfold stack in Hst. destruct fs as [|t0 rest]; [discriminate|].
    destruct (forallb _ _); [|discriminate].
    injection Hst as <-. split; [reflexivity | discriminate]. }
  destruct Hb as [-> Hne].
  assert (Hd : drawn w1 = drawn w).
  { destruct (negb (is_None text)).
    - apply bind_ok in Henc as (kw & w5 & Hkw & Henc).
      injection Hkw as _ <-.
      apply bind_ok in Henc as (e & w6 & He & Hr). injection Hr as _ <-.
      unfold call_tokenizer in He.
      destruct (self_tokenizer self); [|discriminate].
      apply bind_ok in He as ([] & w7 & Hlog & He).
      injection Hlog as <-. injection He as _ <-. reflexivity.
    - injection Henc as _ <-. reflexivity. }
  assert (Hm : w3 = w' /\ m !! "pixel_values" = Some (PixelBatch fs)).
  { destruct enc as [e|]; injection H as <- <-.
    - split; [reflexivity | apply lookup_insert_eq].
    - split; [reflexivity | apply lookup_singleton_eq]. }
  destruct Hm as [<- Hm].
  exists w1, fs. split; [exact Hd|]. split; [exact Hfs|]. split; assumption.
Qed.

Lemma kw_extend_conflict named kwargs k v :
  In k (map fst named) -> kw_lookup k kwargs = Some v ->
  exists msg, kw_extend named kwargs = Raise (TypeError msg).
Proof.
  intros Hin Hk. induction named as [|[k0 v0] named IH]; [destruct Hin|].
  cbn [kw_extend]. destruct (kw_lookup k0 kwargs) eqn:H0; [eauto|].
  destruct Hin as [Heq|Hin].
  - cbn in Heq. subst k0. congruence.
  - destruct (IH Hin) as (msg & ->). cbn [rbind]. eauto.
Qed.

Lemma kw_lookup_remove_ne k k' kw :
  k <> k' -> kw_lookup k (kw_remove k' kw) = kw_lookup k kw.
Proof.
  intros Hne. induction kw as [|[k0 v0] kw IH]; [reflexivity|].
  cbn [kw_remove kw_lookup].
  destruct (String.eqb_spec k' k0) as [->|Hk'].
  - rewrite IH. destruct (String.eqb_spec k k0); [contradiction|reflexivity].
  - cbn [kw_lookup]. rewrite IH. reflexivity.
Qed.

Lemma kw_remove_absent k kw :
  kw_lookup k kw = None -> kw_remove k kw = kw.
Proof.
  induction kw as [|[k0 v0] kw IH]; [reflexivity|].
  cbn [kw_lookup kw_remove]. destruct (String.eqb k k0); [discriminate|].
  intros H. rewrite (IH H). reflexivity.
Qed.

Lemma call_image_processor_trace rt self image w :
  exists evs,
    trace (snd (call_image_processor rt self image w)) = trace w ++ evs /\
    Forall (fun ev => forall c, ev <> CalledTokenizer c) evs.
Proof.
  unfold call_image_processor, Loader.load_and_transform_video.
  unfold bind at 1. unfold log at 1.
  destruct (String.eqb _ "decord").
  - unfold bind at 1. unfold log at 1. cbn [trace drawn].
    unfold bind at 1. unfold lift at 1.
    destruct (VideoReader rt image) as [r|e].
    + unfold bind at 1. unfold lift at 1.
      destruct (Sampler.frame_id_list _ _) as [ids|e].
      * unfold bind at 1. unfold log at 1. cbn [trace drawn].
        unfold bind at 1. unfold lift at 1.
        destruct (Loader.get_batch r ids) as [data|e].
        -- rewrite Compose_trace. cbn [trace].
           exists [CalledImageProcessor image; OpenedVideo image;
                   DecodedFrames image ids].
           split; [rewrite <- !app_assoc; reflexivity|].
           repeat constructor; intros c; discriminate.
        -- cbn [snd trace].
           exists [CalledImageProcessor image; OpenedVideo image;
                   DecodedFrames image ids].
           split; [rewrite <- !app_assoc; reflexivity|].
           repeat constructor; intros c; discriminate.
      * cbn [snd trace].
        exists [CalledImageProcessor image; OpenedVideo image].
        split; [rewrite <- !app_assoc; reflexivity|].
        repeat constructor; intros c; discriminate.
    + cbn [snd trace].
      exists [CalledImageProcessor image; OpenedVideo image].
      split; [rewrite <- !app_assoc; reflexivity|].
      repeat constructor; intros c; discriminate.
  - cbn [raise snd trace]. exists [CalledImageProcessor image].
    split; [reflexivity|]. repeat constructor; intros c; discriminate.
Qed.

Lemma for_each_trace {A B : Type} (f : A -> M B) (xs : list A) :
  (forall x w, exists evs,
     trace (snd (f x w)) = trace w ++ evs /\
     Forall (fun ev => forall c, ev <> CalledTokenizer c) evs) ->
  forall w, exists evs,
    trace (snd (for_each f xs w)) = trace w ++ evs /\
    Forall (fun ev => forall c, ev <> CalledTokenizer c) evs.
Proof.
  intros Hf. induction xs as [|x xs IH]; intros w; cbn [for_each].
  - exists []. split; [rewrite app_nil_r; reflexivity | constructor].
  - destruct (Hf x w) as (e1 & H1 & HF1). unfold bind at 1.
    destruct (f x w) as [[y|e] w1]; cbn [snd] in H1.
    + destruct (IH w1) as (e2 & H2 & HF2). unfold bind at 1.
      destruct (for_each f xs w1) as [[ys|e] w2]; unfold ret;
        cbn [snd] in H2 |- *;
        exists (e1 ++ e2);
        (split; [rewrite H2, H1, app_assoc; reflexivity
                | apply Forall_app; split; assumption]).
    + cbn [snd]. exists e1. split; assumption.
Qed.

(** A video that opens, with frames of three channels, is loaded. *)
Lemma load_total rt path cs ce N w r :
  interpolate_contract rt ->
  VideoReader rt path = Ok r ->
  (1 <= reader_len r)%nat -> reader_channels r = 3%nat ->
  1 <= Z.of_nat (reader_height r) < 2 ^ 31 ->
  1 <= Z.of_nat (reader_width r) < 2 ^ 31 ->
  1 <= N -> Z.of_nat (reader_len r) * N <= 2 ^ 50 ->
  exists y w' ids,
    Loader.load_and_transform_video rt path pipeline "decord" cs ce N w
    = (Ok y, w') /\
    shape y = (3, Z.to_nat N, 224, 224)%nat /\ dtype_of y = Float32 /\
    drawn w' = S (drawn w) /\
    trace w' = trace w ++ [OpenedVideo path; DecodedFrames path ids] /\
    length ids = Z.to_nat N.
Proof.
  intros Hc Hr Hlen Hch Hh Hw HN Hb.
  destruct (load_decodes rt path pipeline cs ce N w r Hr Hlen ltac:(lia) Hb)
    as (ids & Heq & Hl & Hin & Hrun).
  set (x := ByteTensor _) in Hrun.
  destruct (before_flip_total rt x (Z.to_nat N) (reader_height r)
              (reader_width r) Hc) as (z & Hz).
  { unfold x. cbn [shape]. unfold dims.
    cbn [permute_3012 dim0 dim1 dim2 dim3]. rewrite Hch, Hl. reflexivity. }
  { discriminate. }
  { lia. }
  { exact Hh. }
  { exact Hw. }
  rewrite Compose_pipeline, Hz in Hrun. cbn [drawn trace] in Hrun.
  eexists. eexists. exists ids. split; [exact Hrun|].
  pose proof (before_flip_shape rt x z Hc Hz) as Hs.
  destruct (before_flip_inv rt x z Hz) as [_ Hd].
  assert (Hsx : shape x = (3, Z.to_nat N, reader_height r, reader_width r)%nat).
  { unfold x. cbn [shape]. unfold dims.
    cbn [permute_3012 dim0 dim1 dim2 dim3]. rewrite Hch, Hl. reflexivity. }
  rewrite Hsx in Hs. cbn [fst snd] in Hs.
  split.
  { destruct (Float64.ltb _ _); [rewrite (proj1 (hflip_shape z))|]; exact Hs. }
  split.
  { destruct (Float64.ltb _ _); [rewrite (proj2 (hflip_shape z))|]; exact Hd. }
  split; [reflexivity|]. split; [|exact Hl].
  cbn [trace]. rewrite <- app_assoc. reflexivity.
Qed.

(** The image part of a call on videos that all open. *)
Lemma images_total rt cfg tok self paths w :
  init cfg tok = Ok self -> interpolate_contract rt ->
  1 <= num_frames (the_vision_config cfg) ->
  Forall (fun p => exists r,
            VideoReader rt p = Ok r /\
            (1 <= reader_len r)%nat /\ reader_channels r = 3%nat /\
            1 <= Z.of_nat (reader_height r) < 2 ^ 31 /\
            1 <= Z.of_nat (reader_width r) < 2 ^ 31 /\
            Z.of_nat (reader_len r) * num_frames (the_vision_config cfg)
            <= 2 ^ 50) paths ->
  exists fs w',
    for_each (call_image_processor rt self) paths w = (Ok fs, w') /\
    Forall (fun t =>
              shape t = (3, Z.to_nat (num_frames (the_vision_config cfg)),
                         224, 224)%nat) fs /\
    length fs = length paths.
Proof.
  intros Hinit Hc HN Hpaths.
  destruct (init_inv _ _ _ Hinit) as (Htr & _ & Hcfg & Hbe).
  apply (for_each_total
           (fun t => shape t
              = (3, Z.to_nat (num_frames (the_vision_config cfg)),
                 224, 224)%nat)).
  eapply List.Forall_impl; [|exact Hpaths].
  intros p (r & Hr & Hlen & Hch & Hh & Hw & Hb) w0.
  unfold call_image_processor. rewrite Htr, Hcfg, Hbe.
  unfold bind at 1. unfold log at 1.
  destruct (load_total rt p (PFloat Float64.zero) PNone
              (num_frames (the_vision_config cfg))
              {| drawn := drawn w0;
                 trace := trace w0 ++ [CalledImageProcessor p] |}
              r Hc Hr Hlen Hch Hh Hw HN Hb)
    as (y & w1 & ids & Hy & Hs & _).
  exists y, w1. split; [exact Hy | exact Hs].
Qed.

Lemma call_batch_total rt cfg tok self paths ctx rtn kwargs w :
  init cfg tok = Ok self -> interpolate_contract rt ->
  paths <> [] -> 1 <= num_frames (the_vision_config cfg) ->
  Forall (fun p => exists r,
            VideoReader rt p = Ok r /\
            (1 <= reader_len r)%nat /\ reader_channels r = 3%nat /\
            1 <= Z.of_nat (reader_height r) < 2 ^ 31 /\
            1 <= Z.of_nat (reader_width r) < 2 ^ 31 /\
            Z.of_nat (reader_len r) * num_frames (the_vision_config cfg)
            <= 2 ^ 50) paths ->
  exists batch w',
    call rt self (PList paths) PNone ctx rtn kwargs w
    = (Ok {[ "pixel_values" := PixelBatch batch ]}, w') /\
    length batch = length paths /\
    Forall (fun t =>
              shape t = (3, Z.to_nat (num_frames (the_vision_config cfg)),
                         224, 224)%nat) batch.
Proof.
  intros Hinit Hc Hne HN Hpaths.
  destruct (images_total rt cfg tok self paths w Hinit Hc HN Hpaths)
    as (fs & w' & Hfs & Hall & Hl).
  exists fs, w'. split; [|split; [exact Hl | exact Hall]].
  assert (Hi : PList paths <> PNone) by discriminate.
  rewrite (call_images_only rt self (PList paths) ctx rtn kwargs w Hi).
  cbn [make_list_of_images]. rewrite Hfs.
  assert (Hfne : fs <> []).
  { intros ->. destruct paths; [contradiction | discriminate Hl]. }
  rewrite (stack_same_shape _ fs Hfne Hall). reflexivity.
Qed.

(** The clip of the concrete run is a video as required above. *)
Lemma example_clips n :
  Forall (fun p => exists r,
            VideoReader Example.rt p = Ok r /\
            (1 <= reader_len r)%nat /\ reader_channels r = 3%nat /\
            1 <= Z.of_nat (reader_height r) < 2 ^ 31 /\
            1 <= Z.of_nat (reader_width r) < 2 ^ 31 /\
            Z.of_nat (reader_len r)
            * num_frames (the_vision_config Example.cfg) <= 2 ^ 50)
         (repeat (PStr "clip.mp4") n).
Proof.
  induction n as [|n IH]; cbn [repeat]; constructor; [|exact IH].
  exists Example.clip. cbn. intuition lia.
Qed.

(** *** Properties of the loader with the pipeline, and of the processor *)

(** X10: a video that opens, with at least one frame of three channels
    and sides between 1 and [2^31], is loaded for every [num_frames >= 1]
    (with [D * num_frames <= 2^50]): the loader returns a float32 tensor
    of shape [(3, num_frames, 224, 224)], having opened the video, decoded
    [num_frames] frames in one batch and drawn one random number. *)
Theorem load_and_transform_video_returns rt path cs ce N w r :
  interpolate_contract rt ->
  VideoReader rt path = Ok r ->
  (1 <= reader_len r)%nat -> reader_channels r = 3%nat ->
  1 <= Z.of_nat (reader_height r) < 2 ^ 31 ->
  1 <= Z.of_nat (reader_width r) < 2 ^ 31 ->
  1 <= N -> Z.of_nat (reader_len r) * N <= 2 ^ 50 ->
  exists y w' ids,
    Loader.load_and_transform_video rt path pipeline "decord" cs ce N w
    = (Ok y, w') /\
    shape y = (3, Z.to_nat N, 224, 224)%nat /\ dtype_of y = Float32 /\
    drawn w' = S (drawn w) /\
    trace w' = trace w ++ [OpenedVideo path; DecodedFrames path ids] /\
    length ids = Z.to_nat N.
Proof. apply load_total. Qed.

Lemma load_and_transform_video_returns_witness :
  exists y w' ids,
    Loader.load_and_transform_video Example.rt (PStr "clip.mp4") pipeline
      "decord" (PFloat Float64.zero) PNone 8 Example.start = (Ok y, w') /\
    shape y = (3, 8, 224, 224)%nat /\ dtype_of y = Float32 /\
    drawn w' = 1%nat /\
    trace w' = [OpenedVideo (PStr "clip.mp4");
                DecodedFrames (PStr "clip.mp4") ids] /\
    length ids = 8%nat.
Proof.
  exact (load_and_transform_video_returns Example.rt (PStr "clip.mp4")
           (PFloat Float64.zero) PNone 8 Example.start Example.clip
           reference_contract eq_refl ltac:(cbn; lia) eq_refl
           ltac:(cbn; lia) ltac:(cbn; lia) ltac:(lia) ltac:(cbn; lia)).
Defined.

(** X11: when a call with images returns, the mapping holds under
    ["pixel_values"] one tensor per video, in a non-empty batch; each is
    float32 of shape [(3, num_frames, 224, 224)], and one random number
    has been drawn per video. *)
Theorem pixel_values_batch_shape rt cfg tok self images text ctx rtn kwargs
    w m w' :
  init cfg tok = Ok self -> interpolate_contract rt -> images <> PNone ->
  call rt self images text ctx rtn kwargs w = (Ok m, w') ->
  exists batch,
    m !! "pixel_values" = Some (PixelBatch batch) /\
    batch <> [] /\
    length batch = length (make_list_of_images images) /\
    Forall (fun t =>
              shape t = (3, Z.to_nat (num_frames (the_vision_config cfg)),
                         224, 224)%nat /\ dtype_of t = Float32) batch /\
    drawn w' = (drawn w + length batch)%nat.
Proof.
  intros Hinit Hc Hi Hcall.
  destruct (call_ok_images _ _ _ _ _ _ _ _ _ _ Hi Hcall)
    as (w1 & fs & Hd & Hfs & Hne & Hm).
  destruct (images_part _ _ _ _ _ _ _ _ Hinit Hc Hfs) as (Hall & Hl & Hdr).
  exists fs. split; [exact Hm|]. split; [exact Hne|]. split; [exact Hl|].
  split; [exact Hall|]. rewrite Hdr, Hd, Hl. reflexivity.
Qed.

Lemma pixel_values_batch_shape_witness :
  exists m w' batch,
    call Example.rt Example.self (PList [PStr "clip.mp4"; PStr "clip.mp4"])
      PNone (PInt 77) PNone [] Example.start = (Ok m, w') /\
    m !! "pixel_values" = Some (PixelBatch batch) /\
    length batch = 2%nat /\
    Forall (fun t => shape t = (3, 8, 224, 224)%nat /\ dtype_of t = Float32)
           batch /\
    drawn w' = 2%nat.
Proof.
  assert (Hne : [PStr "clip.mp4"; PStr "clip.mp4"] <> []) by discriminate.
  assert (HN : 1 <= num_frames (the_vision_config Example.cfg))
    by (cbn; lia).
  assert (Hi : PList [PStr "clip.mp4"; PStr "clip.mp4"] <> PNone)
    by discriminate.
  destruct (call_batch_total Example.rt Example.cfg (Some Example.tok)
              Example.self [PStr "clip.mp4"; PStr "clip.mp4"] (PInt 77)
              PNone [] Example.start eq_refl reference_contract Hne HN
              (example_clips 2)) as (b & w' & Hr & _).
  eexists. exists w'.
  destruct (pixel_values_batch_shape Example.rt Example.cfg
              (Some Example.tok) Example.self
              (PList [PStr "clip.mp4"; PStr "clip.mp4"]) PNone
              (PInt 77) PNone [] Example.start _ w'
              eq_refl reference_contract Hi Hr)
    as (batch & Hm & _ & Hl & Hall & Hd).
  exists batch. split; [exact Hr|]. split; [exact Hm|].
  split; [exact Hl|]. split; [exact Hall|].
  rewrite Hd, Hl. reflexivity.
Defined.

(** X12: once every video of a non-empty list has been loaded, a call
    without text returns the batch: all clips have the same shape, so
    [torch.stack] fails on the empty list only. *)
Theorem stack_fails_only_on_empty_list rt cfg tok self images ctx rtn kwargs
    w fs w' :
  init cfg tok = Ok self -> interpolate_contract rt ->
  images <> PNone -> make_list_of_images images <> [] ->
  for_each (call_image_processor rt self) (make_list_of_images images) w
  = (Ok fs, w') ->
  call rt self images PNone ctx rtn kwargs w
  = (Ok {[ "pixel_values" := PixelBatch fs ]}, w').
Proof.
  intros Hinit Hc Hi Hne Hfs.
  destruct (images_part _ _ _ _ _ _ _ _ Hinit Hc Hfs) as (Hall & Hl & _).
  rewrite (call_images_only _ _ _ _ _ _ _ Hi), Hfs.
  rewrite (stack_same_shape
             (3, Z.to_nat (num_frames (the_vision_config cfg)), 224, 224)%nat).
  - reflexivity.
  - intros ->. destruct (make_list_of_images images); [contradiction|].
    discriminate Hl.
  - eapply List.Forall_impl; [|exact Hall]. intros t [Ht _]. exact Ht.
Qed.

Lemma stack_fails_only_on_empty_list_witness :
  exists fs w',
    call Example.rt Example.self (PStr "clip.mp4") PNone (PInt 77) PNone []
      Example.start
    = (Ok {[ "pixel_values" := PixelBatch fs ]}, w') /\ length fs = 1%nat.
Proof.
  assert (HN : 1 <= num_frames (the_vision_config Example.cfg))
    by (cbn; lia).
  assert (Hi : PStr "clip.mp4" <> PNone) by discriminate.
  assert (Hne : make_list_of_images (PStr "clip.mp4") <> [])
    by discriminate.
  destruct (images_total Example.rt Example.cfg (Some Example.tok)
              Example.self [PStr "clip.mp4"] Example.start eq_refl
              reference_contract HN (example_clips 1))
    as (fs & w' & Hr & _ & Hl).
  exists fs, w'. split; [|exact Hl].
  exact (stack_fails_only_on_empty_list Example.rt Example.cfg
           (Some Example.tok) Example.self (PStr "clip.mp4") (PInt 77) PNone
           [] Example.start fs w' eq_refl reference_contract Hi Hne Hr).
Defined.

(** X13: a call without text on a non-empty list of videos that all open,
    each with at least one frame of three channels and sides between 1 and
    [2^31], returns the mapping whose single key ["pixel_values"] holds one
    tensor of shape [(3, num_frames, 224, 224)] per video. *)
Theorem call_returns_batch rt cfg tok self paths ctx rtn kwargs w :
  init cfg tok = Ok self -> interpolate_contract rt ->
  paths <> [] -> 1 <= num_frames (the_vision_config cfg) ->
  Forall (fun p => exists r,
            VideoReader rt p = Ok r /\
            (1 <= reader_len r)%nat /\ reader_channels r = 3%nat /\
            1 <= Z.of_nat (reader_height r) < 2 ^ 31 /\
            1 <= Z.of_nat (reader_width r) < 2 ^ 31 /\
            Z.of_nat (reader_len r) * num_frames (the_vision_config cfg)
            <= 2 ^ 50) paths ->
  exists batch w',
    call rt self (PList paths) PNone ctx rtn kwargs w
    = (Ok {[ "pixel_values" := PixelBatch batch ]}, w') /\
    length batch = length paths /\
    Forall (fun t =>
              shape t = (3, Z.to_nat (num_frames (the_vision_config cfg)),
                         224, 224)%nat) batch.
Proof. apply call_batch_total. Qed.

Lemma call_returns_batch_witness :
  exists batch w',
    call Example.rt Example.self
      (PList [PStr "clip.mp4"; PStr "clip.mp4"; PStr "clip.mp4"]) PNone
      (PInt 77) PNone [] Example.start
    = (Ok {[ "pixel_values" := PixelBatch batch ]}, w') /\
    length batch = 3%nat.
Proof.
  assert (Hne : [PStr "clip.mp4"; PStr "clip.mp4"; PStr "clip.mp4"] <> [])
    by discriminate.
  assert (HN : 1 <= num_frames (the_vision_config Example.cfg))
    by (cbn; lia).
  destruct (call_returns_batch Example.rt Example.cfg (Some Example.tok)
              Example.self
              [PStr "clip.mp4"; PStr "clip.mp4"; PStr "clip.mp4"]
              (PInt 77) PNone [] Example.start eq_refl reference_contract
              Hne HN (example_clips 3))
    as (batch & w' & Hr & Hl & _).
  exists batch, w'. split; [exact Hr | exact Hl].
Defined.

(** X14: if loading a video fails, the call fails with the same error at
    that point: the videos after it in the list are not opened, and
    nothing is stacked. *)
Theorem first_failing_video_aborts_batch rt self before p after ctx rtn
    kwargs w fs w1 e w2 :
  for_each (call_image_processor rt self) before w = (Ok fs, w1) ->
  call_image_processor rt self p w1 = (Raise e, w2) ->
  call rt self (PList (before ++ p :: after)) PNone ctx rtn kwargs w
  = (Raise e, w2).
Proof.
  intros Hb Hp.
  assert (Hi : PList (before ++ p :: after) <> PNone) by discriminate.
  rewrite (call_images_only rt self _ ctx rtn kwargs w Hi).
  cbn [make_list_of_images].
  rewrite (for_each_app_fail _ _ _ after _ _ _ _ _ Hb Hp). reflexivity.
Qed.

Lemma first_failing_video_aborts_batch_witness :
  exists w2,
    call Example.rt Example.self
      (PList [PStr "clip.mp4"; PStr "lost.mp4"; PStr "clip.mp4"]) PNone
      (PInt 77) PNone [] Example.start
    = (Raise (CollaboratorError "cannot open the video"), w2).
Proof.
  assert (HN : 1 <= num_frames (the_vision_config Example.cfg))
    by (cbn; lia).
  destruct (images_total Example.rt Example.cfg (Some Example.tok)
              Example.self [PStr "clip.mp4"] Example.start eq_refl
              reference_contract HN (example_clips 1))
    as (fs & w1 & Hr & _).
  eexists.
  apply (first_failing_video_aborts_batch Example.rt Example.self
           [PStr "clip.mp4"] (PStr "lost.mp4") [PStr "clip.mp4"]
           (PInt 77) PNone [] Example.start fs w1
           (CollaboratorError "cannot open the video") _ Hr).
  reflexivity.
Defined.

(** X15: the text is tokenized before any video is read: when the
    tokenizer raises, the call fails with its error, the tokenizer having
    been called once and no video opened, whatever [images] is. *)
Theorem tokenizer_failure_opens_no_video rt self images text ctx rtn kwargs
    w tok kw e :
  text <> PNone -> self_tokenizer self = Some tok ->
  tokenizer_kwargs ctx rtn kwargs = Ok kw ->
  tokenize tok {| call_args := [text]; call_kwargs := kw |} = Raise e ->
  call rt self images text ctx rtn kwargs w
  = (Raise e,
     {| drawn := drawn w;
        trace := trace w
                 ++ [CalledTokenizer
                       {| call_args := [text]; call_kwargs := kw |}] |}).
Proof.
  intros Ht Htok Hkw He. apply is_None_false in Ht.
  unfold call. rewrite Ht. cbn [andb negb].
  unfold bind at 1. unfold bind at 1. unfold lift at 1. rewrite Hkw.
  unfold bind at 1. unfold call_tokenizer. rewrite Htok.
  unfold bind at 1. unfold log at 1. unfold lift at 1. rewrite He.
  reflexivity.
Qed.

Lemma tokenizer_failure_opens_no_video_witness :
  let failing :=
    {| tokenize := fun _ => Raise (CollaboratorError "text too long");
       tokenizer_batch_decode := fun _ => Ok PNone;
       tokenizer_decode := fun _ => Ok PNone |} in
  exists w',
    call Example.rt
      {| self_config := Example.cfg; self_transform := pipeline;
         self_tokenizer := Some failing |}
      (PStr "clip.mp4") (PStr "a cat") (PInt 77) PNone [] Example.start
    = (Raise (CollaboratorError "text too long"), w') /\
    length (trace w') = 1%nat.
Proof.
  intros failing. eexists. split.
  - apply (tokenizer_failure_opens_no_video Example.rt
             {| self_config := Example.cfg; self_transform := pipeline;
                self_tokenizer := Some failing |}
             (PStr "clip.mp4") (PStr "a cat") (PInt 77) PNone []
             Example.start failing).
    + discriminate.
    + reflexivity.
    + reflexivity.
    + reflexivity.
  - reflexivity.
Defined.

(** X16: an extra keyword argument of the call that is also one of the
    keywords the processor itself passes to the tokenizer ([max_length],
    [padding], [truncation]) makes a call with text fail with a type
    error, before the tokenizer is called or a video opened. *)
Theorem call_rejects_reserved_keyword rt self images text ctx rtn kwargs w k v :
  text <> PNone ->
  In k ["max_length"; "padding"; "truncation"] ->
  kw_lookup k kwargs = Some v ->
  exists msg,
    call rt self images text ctx rtn kwargs w = (Raise (TypeError msg), w).
Proof.
  intros Ht Hin Hk. apply is_None_false in Ht.
  assert (Hin' : In k (map fst
                   [("max_length", ctx); ("padding", PStr "max_length");
                    ("truncation", PBool true); ("return_tensors", rtn)])).
  { cbn [map fst]. cbn [In] in Hin |- *. tauto. }
  destruct (kw_extend_conflict
              [("max_length", ctx); ("padding", PStr "max_length");
               ("truncation", PBool true); ("return_tensors", rtn)]
              kwargs k v Hin' Hk) as (msg & Hmsg).
  exists msg. unfold call. rewrite Ht. cbn [andb negb].
  unfold bind at 1. unfold bind at 1. unfold lift at 1.
  unfold tokenizer_kwargs. rewrite Hmsg. reflexivity.
Qed.

Lemma call_rejects_reserved_keyword_witness :
  exists msg,
    call Example.rt Example.self (PStr "clip.mp4") (PStr "a cat") (PInt 77)
      PNone [("padding", PBool false)] Example.start
    = (Raise (TypeError msg), Example.start).
Proof.
  apply (call_rejects_reserved_keyword Example.rt Example.self
           (PStr "clip.mp4") (PStr "a cat") (PInt 77) PNone
           [("padding", PBool false)] Example.start "padding" (PBool false)).
  - discriminate.
  - right. left. reflexivity.
  - reflexivity.
Defined.



(** X18: [preprocess] never calls the tokenizer.  Without images it raises
    the value error of [__call__]; otherwise the events of the run are
    those of the image processor, and a result is the mapping with the
    single key ["pixel_values"]. *)
Theorem preprocess_never_tokenizes rt self images rtn w :
  preprocess rt self PNone rtn w = (Raise (ValueError neither_message), w) /\
  (exists evs,
     trace (snd (preprocess rt self images rtn w)) = trace w ++ evs /\
     Forall (fun ev => forall c, ev <> CalledTokenizer c) evs) /\
  (forall m,
     fst (preprocess rt self images rtn w) = Ok m ->
     exists batch, m = {[ "pixel_values" := PixelBatch batch ]}).
Proof.
  split; [reflexivity|]. unfold preprocess.
  destruct (is_None images) eqn:Hi.
  - apply is_None_true in Hi. subst images. split.
    + exists []. split; [rewrite app_nil_r; reflexivity | constructor].
    + intros m Hm. discriminate Hm.
  - apply is_None_false in Hi.
    rewrite (call_images_only _ _ _ _ _ _ _ Hi).
    destruct (for_each_trace (call_image_processor rt self)
                (make_list_of_images images)
                (call_image_processor_trace rt self) w) as (evs & Hevs & HF).
    destruct (for_each _ _ w) as [[fs|e] w1]; cbn [snd] in Hevs.
    + destruct (stack fs) as [b|e]; cbn [fst snd]; split.
      * exists evs. split; assumption.
      * intros m [= <-]. eauto.
      * exists evs. split; assumption.
      * intros m Hm. discriminate Hm.
    + cbn [fst snd]. split.
      * exists evs. split; assumption.
      * intros m Hm. discriminate Hm.
Qed.

(** X19: [make_list_of_images] wraps a value that is not a list: a call
    with a single video is the call with the list of that one video. *)
Theorem single_video_is_batch_of_one rt self image text ctx rtn kwargs w :
  image <> PNone -> (forall l, image <> PList l) ->
  call rt self image text ctx rtn kwargs w
  = call rt self (PList [image]) text ctx rtn kwargs w.
Proof.
  intros Hn Hl. unfold call.
  destruct image as [| | | | |l]; try reflexivity.
  - contradiction.
  - exfalso. exact (Hl l eq_refl).
Qed.

Lemma single_video_is_batch_of_one_witness :
  call Example.rt Example.self (PStr "clip.mp4") PNone (PInt 77) PNone []
    Example.start
  = call Example.rt Example.self (PList [PStr "clip.mp4"]) PNone (PInt 77)
      PNone [] Example.start.
Proof.
  apply (single_video_is_batch_of_one Example.rt Example.self
           (PStr "clip.mp4") PNone (PInt 77) PNone [] Example.start).
  - discriminate.
  - intros l. discriminate.
Defined.

(** X20: a call of [batch_decode] or [decode] with keyword arguments only
    reaches the tokenizer with no positional argument, with
    [skip_special_tokens] set to the caller's value or to [True], and with
    every other keyword as given: the same bindings as the documented
    forwarding. *)
Theorem decode_keyword_only_call cfg transform tok kwargs :
  let self := {| self_config := cfg; self_transform := transform;
                 self_tokenizer := Some tok |} in
  let c := {| call_args := []; call_kwargs := kwargs |} in
  let skip := default (PBool true) (kw_lookup "skip_special_tokens" kwargs) in
  let c' := {| call_args := [];
               call_kwargs := ("skip_special_tokens", skip)
                              :: kw_remove "skip_special_tokens" kwargs |} in
  batch_decode self c = tokenizer_batch_decode tok c' /\
  decode self c = tokenizer_decode tok c' /\
  call_args c' = call_args (forwarded c) /\
  (forall k, kw_lookup k (call_kwargs c')
             = kw_lookup k (call_kwargs (forwarded c))).
Proof.
  cbn zeta.
  unfold batch_decode, decode, forward_decode, bind_decode_parameters,
    forwarded.
  cbn [call_args call_kwargs self_tokenizer option_map].
  destruct (kw_lookup "skip_special_tokens" kwargs) as [v|] eqn:Hk;
    [|rewrite (kw_remove_absent _ _ Hk)];
    cbn [rbind default call_args call_kwargs].
  - split; [reflexivity|]. split; [reflexivity|]. split; [reflexivity|].
    intros k. cbn [kw_lookup].
    destruct (String.eqb_spec k "skip_special_tokens") as [->|Hne].
    + symmetry. exact Hk.
    + apply kw_lookup_remove_ne. exact Hne.
  - split; [reflexivity|]. split; [reflexivity|]. split; [reflexivity|].
    intros k. cbn [kw_lookup].
    destruct (String.eqb_spec k "skip_special_tokens") as [->|Hne].
    + reflexivity.
    + reflexivity.
Qed.

(** X21: a call of [batch_decode] or [decode] that gives both a positional
    argument and the keyword [skip_special_tokens] fails with a type
    error: the positional argument is already bound to that parameter.  The
    tokenizer is not called. *)
Theorem decode_rejects_positional_with_keyword self v rest kwargs s :
  kw_lookup "skip_special_tokens" kwargs = Some s ->
  let c := {| call_args := v :: rest; call_kwargs := kwargs |} in
  exists msg,
    batch_decode self c = Raise (TypeError msg) /\
    decode self c = Raise (TypeError msg).
Proof.
  intros Hk. cbn zeta. eexists.
  unfold batch_decode, decode, forward_decode, bind_decode_parameters.
  cbn [call_args call_kwargs]. rewrite Hk. split; reflexivity.
Qed.

Lemma decode_rejects_positional_with_keyword_witness :
  exists msg,
    batch_decode Example.self
      {| call_args := [PList [PInt 49406; PInt 320; PInt 49407]];
         call_kwargs := [("skip_special_tokens", PBool false)] |}
    = Raise (TypeError msg).
Proof.
  destruct (decode_rejects_positional_with_keyword Example.self
              (PList [PInt 49406; PInt 320; PInt 49407]) []
              [("skip_special_tokens", PBool false)] (PBool false) eq_refl)
    as (msg & H & _).
  exists msg. exact H.
Defined.

End CallFacts.
